(** * Clinical trial analyzer: validation and statistics engine

    A shallow embedding of [TrialDataAnalyzer] and of the grading query of
    [index], both of [src/clinical_trial_analyzer.py], with the properties
    stated about them.

    Modelling conventions.
    - The file read by [pd.read_csv] is a list of column names with one list
      of cells per row.  A cell is the text of the field, or the missing
      marker (pandas' NaN) for a field that pandas reads as missing, so a
      cell is an [option string].  The dtype that pandas gives a column is
      computed from the cells of the whole column where the program depends
      on it.
    - [pd.to_datetime] and [pd.to_numeric] belong to pandas, not to the
      program: the load is written inside a section over both per-cell
      parsers, and instantiated afterwards with parsers for dates of the
      format [%Y-%m-%d] and for decimal numerals, with or without an
      exponent, and the literals of infinity.
    - A number of the column [age] is an [int64] or a [float64], as the dtype
      of the column has it.  A float carries the decimal numeral of its
      value (mantissa and number of fractional digits); the parser of
      numerals rounds to binary64, and a float is printed as Python prints
      the value of binary64: the shortest decimal that rounds to it, in
      positional or scientific notation, or an infinity.
    - The sums, means and rates of the statistics are computed with exact
      rational arithmetic and rounded half to even.  The properties stated
      about them are bounds and tolerances that do not depend on the last
      digit; where a claim speaks of the exact rounded value, the rate is
      also evaluated in binary64 ([binary64_rate]).
    - [self] is threaded explicitly: a method returns its result together
      with the analyzer after the call.
    - With [errors='coerce'] no conversion raises, so the handler of
      [load_and_validate_data] is reached by a failing [pd.read_csv] only.
    - Logging and printing are effects outside the engine and are left out. *)

From Stdlib Require Import ZArith QArith Qround Qabs List String Ascii Bool Lia Lqa.
From Stdlib Require Import DecimalString Permutation Sorted.
Import ListNotations.

Local Open Scope string_scope.
Local Open Scope Z_scope.

(** ** Python values *)

Module Py.

(** [str(n)] for an integer. *)
Definition str_int (z : Z) : string := NilZero.string_of_int (Z.to_int z).

Definition str_nat (n : nat) : string := str_int (Z.of_nat n).

(** [sep.join(l)]. *)
Fixpoint join (sep : string) (l : list string) : string :=
  match l with
  | [] => ""
  | [s] => s
  | s :: rest => s ++ sep ++ join sep rest
  end.

(** [repr] of a list of strings without quotes inside, as an f-string
    prints it: ['a', 'b']. *)
Definition repr_str_list (l : list string) : string :=
  "[" ++ join ", " (map (fun s => "'" ++ s ++ "'") l) ++ "]".

Definition lower_ascii (c : ascii) : ascii :=
  let n := nat_of_ascii c in
  if andb (Nat.leb 65 n) (Nat.leb n 90) then ascii_of_nat (n + 32) else c.

(** [s.lower()] on ASCII text. *)
Fixpoint lower (s : string) : string :=
  match s with
  | EmptyString => EmptyString
  | String c rest => String (lower_ascii c) (lower rest)
  end.

(** [x in l] for strings. *)
Definition isin (s : string) (l : list string) : bool :=
  existsb (String.eqb s) l.

End Py.

(** ** Cells, numbers and dates *)

(** A cell of the frame read from the file: [None] is the missing marker. *)
Definition cell := option string.

Definition isna {A : Type} (c : option A) : bool :=
  match c with None => true | Some _ => false end.

(** A value of a numeric column.  [Float64 m e] is the float of value
    [m / 10^e]: every finite value of binary64 has such a numeral, and a
    numeral beyond the range of binary64 stands for the infinity of its
    sign. *)
Inductive number :=
| NaN
| Int64 (z : Z)
| Float64 (m : Z) (e : nat).

Definition number_isna (n : number) : bool :=
  match n with NaN => true | _ => false end.

Definition pow10 (e : nat) : Z := 10 ^ Z.of_nat e.

(** [n < k] and [n > k] for an integer bound [k]; every comparison with NaN
    is false. *)
Definition number_ltb (n : number) (k : Z) : bool :=
  match n with
  | NaN => false
  | Int64 z => z <? k
  | Float64 m e => m <? k * pow10 e
  end.

Definition number_gtb (n : number) (k : Z) : bool :=
  match n with
  | NaN => false
  | Int64 z => k <? z
  | Float64 m e => k * pow10 e <? m
  end.

Definition number_leb (n : number) (k : Z) : bool :=
  match n with
  | NaN => false
  | Int64 z => z <=? k
  | Float64 m e => m <=? k * pow10 e
  end.

(** The rational value of a number that is not NaN. *)
Definition number_Q (n : number) : option Q :=
  match n with
  | NaN => None
  | Int64 z => Some (inject_Z z)
  | Float64 m e => Some (Qred (inject_Z m / inject_Z (pow10 e)))
  end.

(** The cast of an integer column to float64, which pandas applies to the
    whole column as soon as one value of it is a float or NaN. *)
Definition as_float (n : number) : number :=
  match n with
  | Int64 z => Float64 z 0
  | other => other
  end.

Definition is_int64 (n : number) : bool :=
  match n with Int64 _ => true | _ => false end.

(** The [k] digits of [z], padded with zeros on the left. *)
Fixpoint digits_padded (k : nat) (z : Z) : string :=
  match k with
  | O => ""
  | S k' => digits_padded k' (z / 10) ++ Py.str_int (z mod 10)
  end.

(** Rounding to the nearest integer, ties to the even one. *)
Definition rint (q : Q) : Z :=
  let f := Qfloor q in
  match (q - inject_Z f ?= 1 # 2)%Q with
  | Lt => f
  | Gt => f + 1
  | Eq => if Z.even f then f else f + 1
  end.

(** *** Binary floating point

    A float of the program is a value of binary64.  The text of a float is
    the shortest decimal that rounds to it, as Python prints it; the sign of
    a zero is not kept. *)

(** [b^e] for an integer exponent. *)
Definition Qpow (b : Z) (e : Z) : Q :=
  if 0 <=? e then inject_Z (b ^ e) else (1 / inject_Z (b ^ (- e)))%Q.

(** The integer part of the logarithm of a positive rational, in base 2 and
    in base 10. *)
Definition Qlog2 (a : Q) : Z :=
  let e := Z.log2 (Qnum a) - Z.log2 (Zpos (Qden a)) in
  if Qle_bool (Qpow 2 e) a then e else e - 1.

Definition ilog10 (z : Z) : Z := Z.of_nat (String.length (Py.str_int z)) - 1.

Definition Qlog10 (a : Q) : Z :=
  let e := ilog10 (Qnum a) - ilog10 (Zpos (Qden a)) in
  if Qle_bool (Qpow 10 e) a then e else e - 1.

(** A value of binary64 that is not NaN: a rational or an infinity. *)
Inductive binary64 :=
| Finite (q : Q)
| Infinite (negative : bool).

(** Rounding to the nearest value of binary64, ties to even: 53 bits of
    mantissa, least exponent -1074, overflow from 2^1024 on. *)
Definition to_binary64 (q : Q) : binary64 :=
  if Qeq_bool q 0 then Finite 0
  else
    let a := Qabs q in
    let t := Z.max (Qlog2 a - 52) (-1074) in
    let v := (inject_Z (rint (a / Qpow 2 t)) * Qpow 2 t)%Q in
    if Qle_bool (Qpow 2 1024) v then Infinite (Qnum q <? 0)
    else Finite (Qred (if Qnum q <? 0 then - v else v)).

Definition binary64_eqb (x y : binary64) : bool :=
  match x, y with
  | Finite p, Finite q => Qeq_bool p q
  | Infinite a, Infinite b => Bool.eqb a b
  | _, _ => false
  end.

(** The decimal [d * 10^s] of [k] digits that rounds to the positive float
    [a]: the nearer one of the two around [a], if one of them does. *)
Definition decimal_of_digits (a : Q) (k : Z) : option (Z * Z) :=
  let s := Qlog10 a - k + 1 in
  let scaled := (a / Qpow 10 s)%Q in
  let lo := Qfloor scaled in
  let hi := lo + 1 in
  let back d := binary64_eqb (to_binary64 (inject_Z d * Qpow 10 s)) (Finite a) in
  let lo_nearer := Qle_bool (scaled - inject_Z lo) (inject_Z hi - scaled) in
  match back lo, back hi with
  | true, true => Some (if lo_nearer then lo else hi, s)
  | true, false => Some (lo, s)
  | false, true => Some (hi, s)
  | false, false => None
  end.

(** The shortest decimal that rounds to [a]; seventeen digits always do. *)
Fixpoint shortest_decimal (a : Q) (k : Z) (fuel : nat) : Z * Z :=
  match fuel with
  | O => (rint (a / Qpow 10 (Qlog10 a - 16)), Qlog10 a - 16)
  | S fuel' =>
      match decimal_of_digits a k with
      | Some d => d
      | None => shortest_decimal a (k + 1) fuel'
      end
  end.

Fixpoint strip_trailing_zeros (fuel : nat) (d s : Z) : Z * Z :=
  match fuel with
  | O => (d, s)
  | S fuel' =>
      if (d mod 10 =? 0) && negb (d =? 0)
      then strip_trailing_zeros fuel' (d / 10) (s + 1)
      else (d, s)
  end.

(** The exponent of the scientific notation: a sign and at least two
    digits. *)
Definition exponent_digits (e : Z) : string :=
  let digits := Py.str_int (Z.abs e) in
  (if e <? 0 then "-" else "+")
  ++ (if Z.abs e <? 10 then "0" ++ digits else digits).

(** [repr(x)] for a finite float [x]: the digits of the shortest decimal
    that rounds to [x], in positional notation when the decimal point is
    more than -4 and at most 16 places after the first digit, in scientific
    notation otherwise. *)
Definition repr_finite (x : Q) : string :=
  if Qeq_bool x 0 then "0.0"
  else
    let sign := if Qnum x <? 0 then "-" else "" in
    let '(d0, s0) := shortest_decimal (Qred (Qabs x)) 1 17 in
    let '(d, s) := strip_trailing_zeros 20 d0 s0 in
    let digits := Py.str_int d in
    let decpt := Z.of_nat (String.length digits) + s in
    if (-4 <? decpt) && (decpt <=? 16)
    then
      if 0 <=? s
      then sign ++ digits ++ digits_padded (Z.to_nat s) 0 ++ ".0"
      else sign ++ Py.str_int (d / 10 ^ (- s)) ++ "."
                ++ digits_padded (Z.to_nat (- s)) (d mod 10 ^ (- s))
    else
      let mantissa :=
        match digits with
        | String c EmptyString => String c EmptyString
        | String c rest => String c ("." ++ rest)
        | EmptyString => EmptyString
        end in
      sign ++ mantissa ++ "e" ++ exponent_digits (decpt - 1).

Definition str_binary64 (x : binary64) : string :=
  match x with
  | Infinite true => "-inf"
  | Infinite false => "inf"
  | Finite q => repr_finite q
  end.

(** [str(x)] for the float of [Float64 m e]: the value of binary64 nearest
    to [m / 10^e], which is [m / 10^e] itself when that is a value of
    binary64, and an infinity when it is beyond the range. *)
Definition str_float (m : Z) (e : nat) : string :=
  str_binary64 (to_binary64 (inject_Z m / inject_Z (pow10 e))).

(** [f"{x}"] for a value of a numeric column. *)
Definition str_number (n : number) : string :=
  match n with
  | NaN => "nan"
  | Int64 z => Py.str_int z
  | Float64 m e => str_float m e
  end.

(** A calendar date (the day of a pandas [Timestamp]). *)
Record date := mkDate { year : Z; month : Z; day : Z }.

(** ** The frame and the analyzer *)

(** A row of the frame after the type conversions of
    [load_and_validate_data].  Columns other than the six required ones are
    carried along by pandas and read by none of the computations below; the
    model leaves them out. *)
Record Row := mkRow {
  patient_id : cell;
  trial_site : cell;
  enrollment_date : option date;
  age : number;
  adverse_event : bool;
  completed_trial : bool
}.

(** [self.df]: the frame as read from the file, or the converted frame, which
    [get_advanced_analysis] extends with the column [age_group]. *)
Inductive DataFrame :=
| RawFrame (columns : list string) (data : list (list cell))
| Frame (rows : list Row) (age_group : option (list (option string))).

Definition len (f : DataFrame) : nat :=
  match f with
  | RawFrame _ data => List.length data
  | Frame rows _ => List.length rows
  end.

(** An entry of [self.invalid_records]: [row.to_dict()] with the key
    [validation_errors] added. *)
Record InvalidRecord := mkInvalid {
  invalid_row : Row;
  validation_errors : list string
}.

Record TrialDataAnalyzer := mkAnalyzer {
  csv_file : string;
  df : option DataFrame;
  invalid_records : list InvalidRecord;
  errors : list string;
  db_path : string
}.

(** [TrialDataAnalyzer.__init__]. *)
Definition init (file : string) : TrialDataAnalyzer :=
  mkAnalyzer file None [] [] "trial_data.db".

Definition set_df (f : DataFrame) (self : TrialDataAnalyzer) :=
  mkAnalyzer (csv_file self) (Some f) (invalid_records self) (errors self) (db_path self).

Definition set_invalid_records (l : list InvalidRecord) (self : TrialDataAnalyzer) :=
  mkAnalyzer (csv_file self) (df self) l (errors self) (db_path self).

(** [self.errors.append(msg)]. *)
Definition add_error (msg : string) (self : TrialDataAnalyzer) :=
  mkAnalyzer (csv_file self) (df self) (invalid_records self)
             (errors self ++ [msg])%list (db_path self).

(** What [pd.read_csv] gives: an exception with its message, or a frame. *)
Inductive read_result :=
| ReadError (msg : string)
| ReadOk (columns : list string) (data : list (list cell)).

Fixpoint index_of (name : string) (cols : list string) : option nat :=
  match cols with
  | [] => None
  | c :: rest =>
      if String.eqb c name then Some O
      else option_map S (index_of name rest)
  end.

(** [row[name]] in the frame as read; a row shorter than the header is
    filled with missing markers. *)
Definition row_get (cols : list string) (r : list cell) (name : string) : cell :=
  match index_of name cols with
  | Some i => nth i r None
  | None => None
  end.

Definition required_cols : list string :=
  ["patient_id"; "trial_site"; "enrollment_date"; "age"; "adverse_event";
   "completed_trial"].

(** [[col for col in required_cols if col not in self.df.columns]]. *)
Definition missing_columns (cols : list string) : list string :=
  filter (fun col => negb (Py.isin col cols)) required_cols.

(** The rows of the converted frame: the working set once the load is over. *)
Definition working_set (self : TrialDataAnalyzer) : list Row :=
  match df self with
  | Some (Frame rows _) => rows
  | _ => []
  end.

(** ** Validation *)

(** The row of [invalid_mask]. *)
Definition invalid_mask (r : Row) : bool :=
  isna (enrollment_date r)
  || number_isna (age r)
  || number_ltb (age r) 0
  || number_gtb (age r) 150
  || isna (patient_id r)
  || isna (trial_site r).

(** [pd.isna(row['age']) or row['age'] < 0 or row['age'] > 150]. *)
Definition age_invalid (r : Row) : bool :=
  number_isna (age r) || number_ltb (age r) 0 || number_gtb (age r) 150.

(** The body of the loop over [self.df[invalid_mask].iterrows()]. *)
Definition reasons_of (r : Row) : list string :=
  let reasons : list string := [] in
  let reasons :=
    if isna (enrollment_date r)
    then (reasons ++ ["Invalid enrollment date"])%list else reasons in
  let reasons :=
    if age_invalid r
    then (reasons ++ [("Invalid age: " ++ str_number (age r))%string])%list else reasons in
  let reasons :=
    if isna (patient_id r)
    then (reasons ++ ["Missing patient ID"])%list else reasons in
  let reasons :=
    if isna (trial_site r)
    then (reasons ++ ["Missing trial site"])%list else reasons in
  reasons.

Definition invalid_record_of (r : Row) : InvalidRecord :=
  mkInvalid r (reasons_of r).

(** The reasons of a row, as the rule table of the validator reads: the
    messages of the failing checks, in the order of the table. *)
Definition rule_table (r : Row) : list (bool * string) :=
  [ (isna (enrollment_date r), "Invalid enrollment date");
    (age_invalid r, "Invalid age: " ++ str_number (age r));
    (isna (patient_id r), "Missing patient ID");
    (isna (trial_site r), "Missing trial site") ].

(** The checks of the validator in their fixed order, what it is for a
    record to fail one, and the message of each. *)
Inductive check :=
| InvalidDate
| InvalidAge
| MissingPatientId
| MissingTrialSite.

Definition checks : list check :=
  [InvalidDate; InvalidAge; MissingPatientId; MissingTrialSite].

Definition fails (r : Row) (c : check) : Prop :=
  match c with
  | InvalidDate => enrollment_date r = None
  | InvalidAge =>
      age r = NaN \/
      exists q, number_Q (age r) = Some q /\ (q < 0 \/ 150 < q)%Q
  | MissingPatientId => patient_id r = None
  | MissingTrialSite => trial_site r = None
  end.

Definition message (r : Row) (c : check) : string :=
  match c with
  | InvalidDate => "Invalid enrollment date"
  | InvalidAge => "Invalid age: " ++ str_number (age r)
  | MissingPatientId => "Missing patient ID"
  | MissingTrialSite => "Missing trial site"
  end.

(** The test the loop makes for each check. *)
Definition tested (r : Row) (c : check) : bool :=
  match c with
  | InvalidDate => isna (enrollment_date r)
  | InvalidAge => age_invalid r
  | MissingPatientId => isna (patient_id r)
  | MissingTrialSite => isna (trial_site r)
  end.

(** [l] is [l'] with some elements left out, the others in their order. *)
Inductive subsequence {A : Type} : list A -> list A -> Prop :=
| subsequence_nil : subsequence [] []
| subsequence_skip x l l' : subsequence l l' -> subsequence l (x :: l')
| subsequence_keep x l l' : subsequence l l' -> subsequence (x :: l) (x :: l').

Section Pipeline.

(** [pd.to_datetime(_, format='%Y-%m-%d', errors='coerce')] and
    [pd.to_numeric(_, errors='coerce')] on the text of one cell. *)
Variable to_datetime : string -> option date.
Variable to_numeric : string -> number.

Definition coerce_date (c : cell) : option date :=
  match c with Some s => to_datetime s | None => None end.

Definition coerce_number (c : cell) : number :=
  match c with Some s => to_numeric s | None => NaN end.

(** [pd.to_numeric] on a column: int64 when every value is an integer,
    float64 otherwise. *)
Definition to_numeric_column (col : list cell) : list number :=
  let parsed := map coerce_number col in
  if forallb is_int64 parsed then parsed else map as_float parsed.

(** The dtype [pd.read_csv] gives a column that the program does not
    convert to a number: int64 when every cell is an integer, float64 when
    every cell is a number or missing, and the texts themselves otherwise.
    [col.astype(str)] prints the values of that dtype; the text of a missing
    marker is "nan". *)
Definition str_of_cell (col : list cell) : cell -> string :=
  if forallb is_int64 (map coerce_number col)
  then (fun c => str_number (coerce_number c))
  else if forallb (fun c => isna c || negb (number_isna (coerce_number c))) col
  then (fun c => str_number (as_float (coerce_number c)))
  else (fun c => match c with Some s => s | None => "nan" end).

Definition astype_str (col : list cell) : list string :=
  map (str_of_cell col) col.

(** [col.astype(str).str.lower().isin(['true', '1'])]. *)
Definition to_bool_column (col : list cell) : list bool :=
  map (fun s => Py.isin (Py.lower s) ["true"; "1"]) (astype_str col).

Definition column (cols : list string) (data : list (list cell))
           (name : string) : list cell :=
  map (fun r => row_get cols r name) data.

(** The frame after the four type conversions. *)
Definition convert (cols : list string) (data : list (list cell)) : list Row :=
  let dates := map coerce_date (column cols data "enrollment_date") in
  let ages := to_numeric_column (column cols data "age") in
  let adverse := to_bool_column (column cols data "adverse_event") in
  let completed := to_bool_column (column cols data "completed_trial") in
  map (fun '(r, d, a, adv, com) =>
         mkRow (row_get cols r "patient_id") (row_get cols r "trial_site")
               d a adv com)
      (combine (combine (combine (combine data dates) ages) adverse) completed).

(** The conversion seen row by row: the dtype of a column depends on the
    whole column, the value of a cell on the cell. *)
Definition age_cast (cols : list string) (data : list (list cell))
  : number -> number :=
  if forallb is_int64 (map coerce_number (column cols data "age"))
  then (fun n => n) else as_float.

Definition to_bool (cols : list string) (data : list (list cell))
           (name : string) (c : cell) : bool :=
  Py.isin (Py.lower (str_of_cell (column cols data name) c)) ["true"; "1"].

Definition convert_row (cols : list string) (data : list (list cell))
           (raw : list cell) : Row :=
  mkRow (row_get cols raw "patient_id")
        (row_get cols raw "trial_site")
        (coerce_date (row_get cols raw "enrollment_date"))
        (age_cast cols data (coerce_number (row_get cols raw "age")))
        (to_bool cols data "adverse_event" (row_get cols raw "adverse_event"))
        (to_bool cols data "completed_trial" (row_get cols raw "completed_trial")).

Definition load_and_validate_data (file : read_result)
           (self : TrialDataAnalyzer) : bool * TrialDataAnalyzer :=
  match file with
  | ReadError msg => (false, add_error ("Error loading CSV: " ++ msg) self)
  | ReadOk cols data =>
      let self := set_df (RawFrame cols data) self in
      let missing_cols := missing_columns cols in
      match missing_cols with
      | _ :: _ =>
          (false,
           add_error ("Missing columns: " ++ Py.repr_str_list missing_cols) self)
      | [] =>
          let rows := convert cols data in
          let invalid := map invalid_record_of (filter invalid_mask rows) in
          let self := set_invalid_records invalid self in
          let self :=
            if (0 <? List.length invalid)%nat
            then add_error ("Total: " ++ Py.str_nat (List.length invalid)
                            ++ " invalid record(s) excluded from analysis") self
            else self in
          let valid := filter (fun r => negb (invalid_mask r)) rows in
          let self := set_df (Frame valid None) self in
          if (List.length valid =? 0)%nat
          then (false, add_error "No valid records found after validation" self)
          else (true, self)
      end
  end.

End Pipeline.

(** ** Report values *)

(** A key of a report: a text, or the pair of texts that names a column of
    an aggregated frame. *)
Inductive key :=
| KStr (s : string)
| KPair (column aggregate : string).

Definition key_eqb (a b : key) : bool :=
  match a, b with
  | KStr x, KStr y => String.eqb x y
  | KPair x1 x2, KPair y1 y2 => String.eqb x1 y1 && String.eqb x2 y2
  | _, _ => false
  end.

(** The values a report is made of. *)
#[warnings="-register-all"]
Inductive value :=
| VInt (z : Z)
| VFloat (q : Q)
| VNaN
| VNaT
| VBool (b : bool)
| VStr (s : string)
| VDate (d : date)
| VList (l : list value)
| VDict (d : list (key * value)).

Definition dict := list (key * value).

(** [d.get(k)]. *)
Fixpoint get (d : dict) (k : key) : option value :=
  match d with
  | [] => None
  | (k', v) :: rest => if key_eqb k' k then Some v else get rest k
  end.

Definition value_of_cell (c : cell) : value :=
  match c with Some s => VStr s | None => VNaN end.

Definition value_of_number (n : number) : value :=
  match number_Q n with
  | None => VNaN
  | Some q => match n with Int64 z => VInt z | _ => VFloat q end
  end.

Definition value_of_mean (m : option Q) : value :=
  match m with Some q => VFloat q | None => VNaN end.

(** [row.to_dict()]. *)
Definition row_to_dict (r : Row) : dict :=
  [ (KStr "patient_id", value_of_cell (patient_id r));
    (KStr "trial_site", value_of_cell (trial_site r));
    (KStr "enrollment_date",
      match enrollment_date r with Some d => VDate d | None => VNaT end);
    (KStr "age", value_of_number (age r));
    (KStr "adverse_event", VBool (adverse_event r));
    (KStr "completed_trial", VBool (completed_trial r)) ].

Definition invalid_to_dict (i : InvalidRecord) : value :=
  VDict (row_to_dict (invalid_row i)
         ++ [(KStr "validation_errors", VList (map VStr (validation_errors i)))])%list.

(** ** Rounding and aggregation *)

(** [round(q, d)] of numpy and pandas. *)
Definition round (q : Q) (d : nat) : Q :=
  Qred (inject_Z (rint (q * inject_Z (pow10 d))) / inject_Z (pow10 d)).

Definition round_opt (m : option Q) (d : nat) : option Q :=
  option_map (fun q => round q d) m.

Definition Qsum (l : list Q) : Q := fold_right Qplus 0%Q l.

(** [sum()] of a column of booleans. *)
Definition count_true (l : list bool) : Z :=
  Z.of_nat (List.length (filter (fun b => b) l)).

(** The values of a numeric column that are not NaN. *)
Definition dropna (l : list number) : list Q :=
  flat_map (fun n => match number_Q n with Some q => [q] | None => [] end) l.

(** [mean()]: NaN values are skipped, and the mean of nothing is NaN. *)
Definition mean (l : list Q) : option Q :=
  match l with
  | [] => None
  | _ => Some (Qsum l / inject_Z (Z.of_nat (List.length l)))%Q
  end.

Definition Q_of_bool (b : bool) : Q := if b then 1%Q else 0%Q.

(** The texts of [l] without repetition, in the order of first occurrence. *)
Fixpoint distinct (l : list string) : list string :=
  match l with
  | [] => []
  | x :: rest => x :: filter (fun y => negb (String.eqb x y)) (distinct rest)
  end.

Fixpoint insert_sorted (x : string) (l : list string) : list string :=
  match l with
  | [] => [x]
  | y :: rest => if String.leb x y then x :: l else y :: insert_sorted x rest
  end.

Definition sort (l : list string) : list string :=
  fold_right insert_sorted [] l.

Definition present (l : list cell) : list string :=
  flat_map (fun c => match c with Some s => [s] | None => [] end) l.

Definition has_site (site : string) (r : Row) : bool :=
  match trial_site r with Some s => String.eqb s site | None => false end.

(** The occurrences of every text of the column of the sites, missing
    markers left out, in the order of first occurrence. *)
Definition site_table (rows : list Row) : list (string * nat) :=
  map (fun site => (site, List.length (filter (has_site site) rows)))
      (distinct (present (map trial_site rows))).

(** The sort of [value_counts]: by count, the largest first.  Equal counts
    keep their order, as the sort leaves them on a table of at most 16
    rows. *)
Fixpoint insert_by_count (x : string * nat) (l : list (string * nat))
  : list (string * nat) :=
  match l with
  | [] => [x]
  | y :: rest =>
      if (snd y <=? snd x)%nat then x :: l else y :: insert_by_count x rest
  end.

Definition site_entry (p : string * nat) : key * value :=
  (KStr (fst p), VInt (Z.of_nat (snd p))).

(** [col.value_counts().to_dict()]; the dict keeps the order of the
    counts. *)
Definition value_counts (rows : list Row) : dict :=
  map site_entry (fold_right insert_by_count [] (site_table rows)).

(** [(col.sum() / n) * 100] rounded to two decimals. *)
Definition rate_percent (col : list bool) (n : nat) : Q :=
  round (inject_Z (count_true col) / inject_Z (Z.of_nat n) * 100)%Q 2.

(** *** The rate in binary64

    [round((col.sum() / n) * 100, 2)] as it is evaluated on floats: the
    quotient of the two integers, its product with 100, and the rounding of
    numpy (the product with [10^d], the nearest integer, the quotient by
    [10^d]), each operation rounded to binary64. *)
Definition binary64_div (x y : Z) : binary64 :=
  to_binary64 (inject_Z x / inject_Z y).

(** The product with a positive integer. *)
Definition binary64_times (k : Z) (x : binary64) : binary64 :=
  match x with
  | Finite q => to_binary64 (q * inject_Z k)
  | Infinite negative => Infinite negative
  end.

Definition binary64_round (x : binary64) (d : nat) : binary64 :=
  match binary64_times (pow10 d) x with
  | Finite y => to_binary64 (inject_Z (rint y) / inject_Z (pow10 d))
  | Infinite negative => Infinite negative
  end.

Definition binary64_rate (completed size : Z) : binary64 :=
  binary64_round (binary64_times 100 (binary64_div completed size)) 2.

(** A bound on the error of one rounding to binary64 below 2^14. *)
Definition ulp_bound : Q := 1 # (2 ^ 38).

(** ** [calculate_statistics] *)

(** The method reads [self] and changes nothing of it.  On a frame that is
    still as read from the file (the load stopped at the schema check) and
    has rows, the method goes on with unconverted columns; the model does not
    follow it there and gives [None]. *)
Definition calculate_statistics (self : TrialDataAnalyzer)
  : option dict * TrialDataAnalyzer :=
  match df self with
  | None => (Some [], self)
  | Some f =>
      if (len f =? 0)%nat then (Some [], self)
      else
        match f with
        | RawFrame _ _ => (None, self)
        | Frame rows _ =>
            let total_patients := List.length rows in
            let stats :=
              [ (KStr "total_patients", VInt (Z.of_nat total_patients));
                (KStr "patients_per_site", VDict (value_counts rows));
                (KStr "average_age",
                  value_of_mean (round_opt (mean (dropna (map age rows))) 2));
                (KStr "completion_rate_percent",
                  VFloat (rate_percent (map completed_trial rows) total_patients));
                (KStr "adverse_event_rate_percent",
                  VFloat (rate_percent (map adverse_event rows) total_patients)) ] in
            let with_adverse := filter adverse_event rows in
            let without_adverse := filter (fun r => negb (adverse_event r)) rows in
            let stats :=
              (stats ++
               [ (KStr "completion_rate_with_adverse_percent",
                   if (0 <? List.length with_adverse)%nat
                   then VFloat (rate_percent (map completed_trial with_adverse)
                                             (List.length with_adverse))
                   else VInt 0) ])%list in
            let stats :=
              (stats ++
               [ (KStr "completion_rate_without_adverse_percent",
                   if (0 <? List.length without_adverse)%nat
                   then VFloat (rate_percent (map completed_trial without_adverse)
                                             (List.length without_adverse))
                   else VInt 0) ])%list in
            let stats :=
              (stats ++
               [ (KStr "data_quality",
                   VDict
                     [ (KStr "valid_records", VInt (Z.of_nat total_patients));
                       (KStr "invalid_records",
                         VInt (Z.of_nat (List.length (invalid_records self))));
                       (KStr "invalid_record_details",
                         VList (map invalid_to_dict (invalid_records self))) ]) ])%list in
            (Some stats, self)
        end
  end.

(** ** [get_advanced_analysis] *)

(** [pd.cut(x, bins, labels)] with the default [right=True]: the label of
    the interval (lo, hi] that holds [x], the missing marker when there is
    none. *)
Fixpoint cut (bins : list Z) (labels : list string) (x : number) : option string :=
  match bins with
  | [] => None
  | lo :: rest =>
      match rest, labels with
      | hi :: _, label :: labels' =>
          if number_gtb x lo && number_leb x hi then Some label
          else cut rest labels' x
      | _, _ => None
      end
  end.

Definition age_bins : list Z := [0; 35; 50; 65; 150].
Definition age_labels : list string := ["18-35"; "36-50"; "51-65"; "65+"].

Definition age_group_of (x : number) : option string := cut age_bins age_labels x.

(** The five aggregates of one site, rounded to two decimals. *)
Definition site_row (rows : list Row) (site : string) : list (key * value) :=
  let g := filter (has_site site) rows in
  [ (KPair "completed_trial" "sum", VInt (count_true (map completed_trial g)));
    (KPair "completed_trial" "count", VInt (Z.of_nat (List.length g)));
    (KPair "completed_trial" "mean",
      value_of_mean (round_opt (mean (map Q_of_bool (map completed_trial g))) 2));
    (KPair "adverse_event" "sum", VInt (count_true (map adverse_event g)));
    (KPair "age" "mean", value_of_mean (round_opt (mean (dropna (map age g))) 2)) ].

(** [frame.to_dict()] of an aggregated frame: for every column, the value of
    every group. *)
Definition to_dict (columns : list key) (groups : list string)
           (row : string -> list (key * value)) : dict :=
  map (fun c =>
         (c, VDict (map (fun g =>
                           (KStr g, match get (row g) c with
                                    | Some v => v
                                    | None => VNaN
                                    end))
                        groups)))
      columns.

(** [groupby('trial_site').agg(...).round(2).to_dict()]; the groups are the
    sites in increasing order. *)
Definition site_analysis (rows : list Row) : dict :=
  to_dict [ KPair "completed_trial" "sum"; KPair "completed_trial" "count";
            KPair "completed_trial" "mean"; KPair "adverse_event" "sum";
            KPair "age" "mean" ]
          (sort (distinct (present (map trial_site rows))))
          (site_row rows).

Definition in_group (groups : list (Row * option string)) (label : string)
  : list Row :=
  map fst (filter (fun p => match snd p with
                            | Some l => String.eqb l label
                            | None => false
                            end) groups).

Definition age_group_row (groups : list (Row * option string)) (label : string)
  : list (key * value) :=
  let g := in_group groups label in
  [ (KPair "completed_trial" "sum", VInt (count_true (map completed_trial g)));
    (KPair "completed_trial" "count", VInt (Z.of_nat (List.length g)));
    (KPair "completed_trial" "mean",
      value_of_mean (round_opt (mean (map Q_of_bool (map completed_trial g))) 2)) ].

(** [groupby('age_group').agg(...).round(2).to_dict()]; the column is
    categorical and every category is a group, as pandas 2 has it by
    default. *)
Definition age_group_analysis (rows : list Row) (groups : list (option string))
  : dict :=
  to_dict [ KPair "completed_trial" "sum"; KPair "completed_trial" "count";
            KPair "completed_trial" "mean" ]
          age_labels
          (age_group_row (combine rows groups)).

(** The rows on which both columns have a value. *)
Fixpoint complete_pairs (xs ys : list (option Q)) : list (Q * Q) :=
  match xs, ys with
  | Some x :: xs', Some y :: ys' => (x, y) :: complete_pairs xs' ys'
  | _ :: xs', _ :: ys' => complete_pairs xs' ys'
  | _, _ => []
  end.

(** The sum of the products of the deviations from the means. *)
Definition codeviation (xs ys : list Q) : Q :=
  match mean xs, mean ys with
  | Some mx, Some my =>
      Qsum (map (fun p => (fst p - mx) * (snd p - my))%Q (combine xs ys))
  | _, _ => 0%Q
  end.

(** [sign * sqrt q] rounded to [d] decimals, ties to even, for [0 <= q]:
    with [s] the integer part of [2 * 10^d * sqrt q], the rounded numerator
    is [(s + 1) / 2] unless [s] is odd and the square root is exact. *)
Definition round_sqrt (sign : Z) (q : Q) (d : nat) : Q :=
  let x := (inject_Z (4 * pow10 d * pow10 d) * q)%Q in
  let s := Z.sqrt (Qfloor x) in
  let tie := Z.odd s && Qeq_bool (inject_Z (s * s)) x in
  let k := if tie then (if Z.even (s / 2) then s / 2 else s / 2 + 1)
           else (s + 1) / 2 in
  Qred (inject_Z (sign * k) / inject_Z (pow10 d)).

(** The Pearson coefficient of two columns, rounded to three decimals; NaN
    when a column has no variance. *)
Definition pearson (xs ys : list (option Q)) : option Q :=
  let pairs := complete_pairs xs ys in
  let a := map fst pairs in
  let b := map snd pairs in
  let ssx := codeviation a a in
  let ssy := codeviation b b in
  let cov := codeviation a b in
  if Qeq_bool (ssx * ssy) 0 then None
  else Some (round_sqrt (Z.sgn (Qnum cov)) (cov * cov / (ssx * ssy)) 3).

(** [self.df[numeric_cols].corr().round(3).to_dict()]. *)
Definition correlations (rows : list Row) : dict :=
  let cols :=
    [ ("age", map (fun r => number_Q (age r)) rows);
      ("adverse_event", map (fun r => Some (Q_of_bool (adverse_event r))) rows);
      ("completed_trial", map (fun r => Some (Q_of_bool (completed_trial r))) rows) ] in
  map (fun c =>
         (KStr (fst c),
          VDict (map (fun c' =>
                        (KStr (fst c'), value_of_mean (pearson (snd c') (snd c))))
                     cols)))
      cols.

(** The method stores the column [age_group] in [self.df] and returns the
    three analyses.  As for [calculate_statistics], a frame still as read
    from the file and with rows is not followed. *)
Definition get_advanced_analysis (self : TrialDataAnalyzer)
  : option dict * TrialDataAnalyzer :=
  match df self with
  | None => (Some [], self)
  | Some f =>
      if (len f =? 0)%nat then (Some [], self)
      else
        match f with
        | RawFrame _ _ => (None, self)
        | Frame rows _ =>
            let site_analysis := site_analysis rows in
            let age_group := map (fun r => age_group_of (age r)) rows in
            let self := set_df (Frame rows (Some age_group)) self in
            let age_group_analysis := age_group_analysis rows age_group in
            let correlations := correlations rows in
            (Some [ (KStr "site_performance", VDict site_analysis);
                    (KStr "age_group_analysis", VDict age_group_analysis);
                    (KStr "correlations", VDict correlations) ],
             self)
        end
  end.

(** ** Site grading

    The query of [index] that grades the sites, on the table [patients]
    that [load_to_sqlite] fills with [self.df]. *)

(** SQLite's [ROUND(q, d)]: to the nearest, ties away from zero. *)
Definition sql_round (q : Q) (d : nat) : Q :=
  let scaled := (Qabs q * inject_Z (pow10 d) + (1 # 2))%Q in
  Qred (inject_Z (Z.sgn (Qnum q) * Qfloor scaled) / inject_Z (pow10 d)).

(** [ROUND(100.0 * SUM(completed_trial) / COUNT( * ), 2)]. *)
Definition completion_pct (completed total : Z) : Q :=
  sql_round (100 * inject_Z completed / inject_Z total)%Q 2.

(** The [CASE] expression of the query. *)
Definition grade (rate : Q) : string :=
  if Qle_bool 90 rate then "A (Excellent)"
  else if Qle_bool 70 rate then "B (Good)"
  else if Qle_bool 50 rate then "C (Fair)"
  else "D (Poor)".

(** The letter of a grade: the first character of its text. *)
Definition letter (g : string) : string :=
  match g with
  | String c _ => String c EmptyString
  | EmptyString => EmptyString
  end.

(** A row of the result for one site: total, completed, rate and grade. *)
Definition site_grade (rows : list Row) (site : string)
  : string * Z * Z * Q * string :=
  let g := filter (has_site site) rows in
  let total := Z.of_nat (List.length g) in
  let completed := count_true (map completed_trial g) in
  let pct := completion_pct completed total in
  (site, total, completed, pct, grade pct).

Fixpoint insert_by_rate (x : string * Z * Z * Q * string)
         (l : list (string * Z * Z * Q * string)) :=
  match l with
  | [] => [x]
  | y :: rest =>
      if Qle_bool (snd (fst y)) (snd (fst x)) then x :: l
      else y :: insert_by_rate x rest
  end.

(** [GROUP BY trial_site ORDER BY completion_pct DESC]. *)
Definition site_grades (rows : list Row) : list (string * Z * Z * Q * string) :=
  fold_right insert_by_rate []
             (map (site_grade rows) (sort (distinct (present (map trial_site rows))))).

(** ** The parsers of dates and numerals *)

Definition digit_of (c : ascii) : option Z :=
  let n := nat_of_ascii c in
  if andb (Nat.leb 48 n) (Nat.leb n 57) then Some (Z.of_nat (n - 48)) else None.

(** The value of a non-empty string of digits. *)
Fixpoint digits_value (acc : Z) (s : string) : option Z :=
  match s with
  | EmptyString => Some acc
  | String c rest =>
      match digit_of c with
      | Some d => digits_value (10 * acc + d) rest
      | None => None
      end
  end.

Definition natural (s : string) : option Z :=
  match s with
  | EmptyString => None
  | _ => digits_value 0 s
  end.

(** Splits at the first occurrence of [sep]. *)
Fixpoint split_at (sep : ascii) (s : string) : string * option string :=
  match s with
  | EmptyString => (EmptyString, None)
  | String c rest =>
      if Ascii.eqb c sep then (EmptyString, Some rest)
      else let '(a, b) := split_at sep rest in (String c a, b)
  end.

(** The digits of a decimal numeral with the number of those after the
    point: digits, or digits "." digits with digits on at least one side of
    the point. *)
Definition mantissa (s : string) : option (Z * nat) :=
  match split_at "." s with
  | (whole, None) =>
      match natural whole with Some z => Some (z, O) | None => None end
  | (whole, Some frac) =>
      match digits_value 0 whole, digits_value 0 frac with
      | Some a, Some b =>
          if (String.length whole + String.length frac =? 0)%nat then None
          else Some (a * pow10 (String.length frac) + b, String.length frac)
      | _, _ => None
      end
  end.

(** The exponent of a numeral: digits with an optional sign. *)
Definition exponent (s : string) : option Z :=
  match s with
  | String "-" rest => option_map Z.opp (natural rest)
  | String "+" rest => natural rest
  | _ => natural s
  end.

Definition split_exponent (s : string) : string * option string :=
  match split_at "e" s with
  | (m, Some x) => (m, Some x)
  | (_, None) => split_at "E" s
  end.

(** What an unsigned numeral denotes. *)
Inductive numeral :=
| Integer (z : Z)
| Decimal (q : Q)
| Infinity
| Malformed.

Definition unsigned_numeral (s : string) : numeral :=
  if Py.isin (Py.lower s) ["inf"; "infinity"] then Infinity
  else
    match split_exponent s with
    | (m, None) =>
        match split_at "." m with
        | (_, None) =>
            match natural m with Some z => Integer z | None => Malformed end
        | _ =>
            match mantissa m with
            | Some (d, k) => Decimal (inject_Z d / inject_Z (pow10 k))
            | None => Malformed
            end
        end
    | (m, Some x) =>
        match mantissa m, exponent x with
        | Some (d, k), Some n =>
            Decimal (inject_Z d / inject_Z (pow10 k) * Qpow 10 n)
        | _, _ => Malformed
        end
    end.

(** A numeral beyond the range of binary64. *)
Definition beyond_range : Z := 10 ^ 400.

(** The float nearest to [q], as a value of a numeric column: a finite value
    of binary64 is [n / 2^k], that is [n * 5^k / 10^k]. *)
Definition float_of_Q (q : Q) : number :=
  match to_binary64 q with
  | Finite x =>
      let k := Z.log2 (Zpos (Qden x)) in
      Float64 (Qnum x * 5 ^ k) (Z.to_nat k)
  | Infinite negative =>
      Float64 (if negative then - beyond_range else beyond_range) 0
  end.

Definition number_of_numeral (negative : bool) (n : numeral) : number :=
  let sign z := if negative then - z else z in
  match n with
  | Malformed => NaN
  | Infinity => Float64 (sign beyond_range) 0
  | Integer z =>
      if (- 2 ^ 63 <=? sign z) && (sign z <? 2 ^ 63) then Int64 (sign z)
      else float_of_Q (inject_Z (sign z))
  | Decimal q => float_of_Q (if negative then - q else q)
  end.

(** [pd.to_numeric(_, errors='coerce')] on the text of a cell: a decimal
    numeral with an optional sign and an optional exponent, or a literal for
    infinity; any other text is coerced to NaN.  A numeral without point and
    exponent is an integer when it is in the range of int64 and a float
    otherwise; every other numeral is the float nearest to its value.  The
    unsigned integers above the range of int64 and the columns that pandas
    reads as booleans are not told apart. *)
Definition parse_numeral (s : string) : number :=
  match s with
  | String "-" rest => number_of_numeral true (unsigned_numeral rest)
  | String "+" rest => number_of_numeral false (unsigned_numeral rest)
  | _ => number_of_numeral false (unsigned_numeral s)
  end.

Definition leap_year (y : Z) : bool :=
  ((y mod 4 =? 0) && negb (y mod 100 =? 0)) || (y mod 400 =? 0).

Definition days_in_month (y m : Z) : Z :=
  if m =? 2 then (if leap_year y then 29 else 28)
  else if (m =? 4) || (m =? 6) || (m =? 9) || (m =? 11) then 30
  else 31.

(** [pd.to_datetime(_, format='%Y-%m-%d', errors='coerce')]: a year of four
    digits, a month and a day of one or two digits, naming a day of the
    calendar within the range of [datetime64[ns]] (1677-09-22 to
    2262-04-11); any other text is coerced to the missing marker. *)
Definition parse_date (s : string) : option date :=
  match split_at "-" s with
  | (ys, Some rest) =>
      match split_at "-" rest with
      | (ms, Some ds) =>
          match natural ys, natural ms, natural ds with
          | Some y, Some m, Some d =>
              let day := y * 10000 + m * 100 + d in
              if (String.length ys =? 4)%nat
                 && (String.length ms <=? 2)%nat && (String.length ds <=? 2)%nat
                 && (1 <=? m) && (m <=? 12) && (1 <=? d) && (d <=? days_in_month y m)
                 && (16770922 <=? day) && (day <=? 22620411)
              then Some (mkDate y m d) else None
          | _, _, _ => None
          end
      | _ => None
      end
  | _ => None
  end.

(** The pipeline with these parsers. *)
Definition load := load_and_validate_data parse_date parse_numeral.

Definition header : list string := required_cols.

(** ** Reference tables and sample inputs *)

(** The intervals of the age groups as the bins and labels pair up: lower
    edge, upper edge, label. *)
Definition age_intervals : list (Z * Z * string) :=
  [ (0, 35, "18-35"); (35, 50, "36-50"); (50, 65, "51-65"); (65, 150, "65+") ].

Definition raw_row (id site day age adverse completed : string) : list cell :=
  [Some id; Some site; Some day; Some age; Some adverse; Some completed].

(** Three valid rows. *)
Definition three_valid : list (list cell) :=
  [ raw_row "P001" "SiteA" "2024-01-10" "20" "True" "False";
    raw_row "P002" "SiteB" "2024-01-11" "40" "False" "True";
    raw_row "P003" "SiteA" "2024-01-12" "60" "false" "TRUE" ].

(** A file with valid and invalid rows. *)
Definition mixed : list (list cell) :=
  [ raw_row "P001" "SiteA" "2024-01-10" "20" "True" "False";
    raw_row "P002" "SiteB" "2024-01-11" "abc" "False" "True";
    [None; Some "SiteA"; Some "10/01/2024"; Some "200"; Some "1"; Some "1"];
    raw_row "P004" "SiteB" "2024-02-29" "0" "0" "1";
    raw_row "P005" "SiteB" "2024-03-01" "150" "0" "0" ].

(** One row whose age is the text abc. *)
Definition one_abc : list (list cell) :=
  [ raw_row "P001" "SiteA" "2024-01-10" "abc" "True" "False" ].

(** Every row has age 200. *)
Definition all_200 : list (list cell) :=
  [ raw_row "P001" "SiteA" "2024-01-10" "200" "True" "False";
    raw_row "P002" "SiteB" "2024-01-11" "200" "False" "True" ].

(** A stratum of 160 rows with an adverse event, 23 of them completed. *)
Definition patient (completed : bool) : Row :=
  mkRow (Some "P") (Some "SiteA") (Some (mkDate 2024 1 10)) (Int64 40)
        true completed.

Definition stratum_23_of_160 : list Row :=
  (repeat (patient true) 23 ++ repeat (patient false) 137)%list.

(** Ages that are printed in scientific notation or as an infinity. *)
Definition extreme_ages : list (list cell) :=
  [ raw_row "P001" "SiteA" "2024-01-10" "-0.00001" "True" "False";
    raw_row "P002" "SiteB" "2024-01-11" "1e16" "False" "True";
    raw_row "P003" "SiteA" "2024-01-12" "inf" "False" "True";
    raw_row "P004" "SiteA" "2024-01-13" "150.5" "False" "True" ].

Definition loaded (data : list (list cell)) : TrialDataAnalyzer :=
  snd (load (ReadOk header data) (init "trial.csv")).

(** The first row of [mixed] after the conversion: the column [age] holds a
    text that is no number, so it is a float column. *)
Definition row_P001 : Row :=
  mkRow (Some "P001") (Some "SiteA") (Some (mkDate 2024 1 10)) (Float64 20 0)
        true false.

(** The fourth row of [mixed], of age 0. *)
Definition row_P004 : Row :=
  mkRow (Some "P004") (Some "SiteB") (Some (mkDate 2024 2 29)) (Float64 0 0)
        false true.

(** The invalid record of the second row of [mixed]. *)
Definition invalid_P002 : InvalidRecord :=
  mkInvalid (mkRow (Some "P002") (Some "SiteB") (Some (mkDate 2024 1 11)) NaN
                   false true)
            ["Invalid age: nan"].

(** ** Measures on reports *)

(** The count of an entry of a dict of counts. *)
Definition count_of (kv : key * value) : Z :=
  match snd kv with VInt z => z | _ => 0 end.

Definition cell_eq_dec (x y : cell) : {x = y} + {x <> y}.
Proof. decide equality. apply string_dec. Defined.

(** The sum of the integer values of a mapping. *)
Definition sum_values (d : dict) : Z :=
  fold_right (fun kv acc => match snd kv with VInt z => z + acc | _ => acc end)
             0 d.

(** A value that is a percentage: the integer 0 or a float from 0 to 100. *)
Definition is_percentage (v : value) : Prop :=
  match v with
  | VInt z => z = 0
  | VFloat q => (0 <= q)%Q /\ (q <= 100)%Q
  | _ => False
  end.

(** The occurrences of [x] in [l]. *)
Definition occurrences (x : string) (l : list string) : nat :=
  List.length (filter (String.eqb x) l).

(** An age above 0 and at most 150: the ages that fall in an interval of
    [pd.cut] with outer edges 0 and 150. *)
Definition in_age_range (r : Row) : bool :=
  number_gtb (age r) 0 && number_leb (age r) 150.

(** A column varies when two of its values differ. *)
Definition varies (col : list (option Q)) : Prop :=
  exists x y, In (Some x) col /\ In (Some y) col /\ ~ (x == y)%Q.

(** The numeric columns of the correlation matrix. *)
Definition numeric_columns (rows : list Row) : list (string * list (option Q)) :=
  [ ("age", map (fun r => number_Q (age r)) rows);
    ("adverse_event", map (fun r => Some (Q_of_bool (adverse_event r))) rows);
    ("completed_trial", map (fun r => Some (Q_of_bool (completed_trial r))) rows) ].

(** The entry of a correlation matrix: [matrix[a][b]], if it is there. *)
Definition correlation_of (matrix : dict) (a b : string) : option value :=
  match get matrix (KStr a) with
  | Some (VDict row) => get row (KStr b)
  | _ => None
  end.

(** The columns of a row of [site_grades]. *)
Definition row_site (r : string * Z * Z * Q * string) : string :=
  fst (fst (fst (fst r))).
Definition row_total (r : string * Z * Z * Q * string) : Z :=
  snd (fst (fst (fst r))).
Definition row_completed (r : string * Z * Z * Q * string) : Z :=
  snd (fst (fst r)).
Definition row_pct (r : string * Z * Z * Q * string) : Q := snd (fst r).
Definition row_grade (r : string * Z * Z * Q * string) : string := snd r.

(** ** [generate_text_report] *)

(** The line feed. *)
Definition newline : string := String (ascii_of_nat 10) EmptyString.

(** [s * n]. *)
Fixpoint repeat_string (s : string) (n : nat) : string :=
  match n with
  | O => ""
  | S n' => s ++ repeat_string s n'
  end.

(** [f"{v}"] for a value of the statistics.  The floats of the statistics
    are rounded to two decimals and are printed with their shortest
    numeral. *)
Definition str_value (v : value) : string :=
  match v with
  | VInt z => Py.str_int z
  | VFloat q => str_float (Qfloor (q * 100)) 2
  | VNaN => "nan"
  | VNaT => "NaT"
  | VBool true => "True"
  | VBool false => "False"
  | VStr s => s
  | _ => ""
  end.

(** [d[k]] for a key that [calculate_statistics] always sets. *)
Definition item (d : dict) (k : string) : value :=
  match get d (KStr k) with Some v => v | None => VNaN end.

Definition items (v : value) : dict :=
  match v with VDict d => d | _ => [] end.

Definition elements (v : value) : list value :=
  match v with VList l => l | _ => [] end.

Definition key_text (k : key) : string :=
  match k with KStr s => s | KPair a b => a end.

(** The lines of the sites: [sorted(stats['patients_per_site'].items())]. *)
Definition site_lines (sites : dict) : list string :=
  map (fun site => "  " ++ site ++ ": " ++ str_value (item sites site))
      (sort (map (fun kv => key_text (fst kv)) sites)).

(** The two lines of the invalid record number [i]. *)
Definition invalid_lines (i : nat) (invalid : value) : list string :=
  let patient_id :=
    match get (items invalid) (KStr "patient_id") with
    | Some v => str_value v
    | None => "UNKNOWN"
    end in
  let reasons :=
    match get (items invalid) (KStr "validation_errors") with
    | Some v => map str_value (elements v)
    | None => []
    end in
  [ "  " ++ Py.str_nat i ++ ". Patient ID: " ++ patient_id;
    "     Errors: " ++ Py.join ", " reasons ].

(** [enumerate(l, start)], mapped and flattened. *)
Fixpoint enumerate_lines (start : nat) (l : list value) : list string :=
  match l with
  | [] => []
  | x :: rest => (invalid_lines start x ++ enumerate_lines (S start) rest)%list
  end.

(** The block of the invalid records: the first five, and the number of the
    others. *)
Definition invalid_details_lines (details : list value) : list string :=
  let remaining :=
    "  ... and " ++ Py.str_nat (List.length details - 5)
    ++ " more (see data_validation.log)" in
  if (0 <? List.length details)%nat
  then ([""; "INVALID RECORDS DETAILS"]
        ++ enumerate_lines 1 (firstn 5 details)
        ++ (if (5 <? List.length details)%nat then [remaining] else []))%list
  else [].

(** The block of the validation notes: the first five errors. *)
Definition validation_notes_lines (errs : list string) : list string :=
  match errs with
  | [] => []
  | _ => ([""; "VALIDATION NOTES"]
          ++ map (fun e => "  - " ++ e)%string (firstn 5 errs))%list
  end.

(** The lines up to the sites, the lines from the demographics to the data
    quality, and the whole report. *)
Definition head_lines (stats : dict) : list string :=
  [ repeat_string "=" 70;
    "CLINICAL TRIAL DATA SUMMARY REPORT";
    repeat_string "=" 70;
    "";
    "ENROLLMENT SUMMARY";
    "  Total Patients Enrolled: " ++ str_value (item stats "total_patients");
    "";
    "PATIENTS PER TRIAL SITE" ].

Definition body_lines (stats : dict) : list string :=
  let quality := items (item stats "data_quality") in
  [ "";
    "DEMOGRAPHICS";
    "  Average Age: " ++ str_value (item stats "average_age") ++ " years";
    "";
    "TRIAL OUTCOMES";
    "  Completion Rate: "
      ++ str_value (item stats "completion_rate_percent") ++ "%";
    "  Adverse Event Rate: "
      ++ str_value (item stats "adverse_event_rate_percent") ++ "%";
    "";
    "OUTCOME COMPARISON";
    "  Completion Rate (with adverse events): "
      ++ str_value (item stats "completion_rate_with_adverse_percent") ++ "%";
    "  Completion Rate (without adverse events): "
      ++ str_value (item stats "completion_rate_without_adverse_percent")
      ++ "%";
    "";
    "DATA QUALITY";
    "  Valid Records: " ++ str_value (item quality "valid_records");
    "  Invalid Records: " ++ str_value (item quality "invalid_records") ].

Definition report_lines (stats : dict) (errs : list string) : list string :=
  let quality := items (item stats "data_quality") in
  (head_lines stats
   ++ site_lines (items (item stats "patients_per_site"))
   ++ body_lines stats
   ++ (match item quality "invalid_records" with
       | VInt n =>
           if 0 <? n
           then invalid_details_lines
                  (elements (item quality "invalid_record_details"))
           else []
       | _ => []
       end)
   ++ validation_notes_lines errs
   ++ [ repeat_string "=" 70 ])%list.

(** The report, [None] where [calculate_statistics] is not followed. *)
Definition generate_text_report (self : TrialDataAnalyzer) : option string :=
  match fst (calculate_statistics self) with
  | None => None
  | Some [] => Some "No valid data to report."
  | Some stats => Some (Py.join newline (report_lines stats (errors self)))
  end.


(** ** [api_analyze] *)

(** [s.endswith(suffix)]. *)
Definition endswith (s suffix : string) : bool :=
  (String.length suffix <=? String.length s)%nat
  && String.eqb (substring (String.length s - String.length suffix)
                           (String.length suffix) s)
                suffix.

(** Whether [jsonify] writes a value.  Numbers, NaN included, booleans,
    texts and dates are written; the missing date [pd.NaT] is not: the
    encoder takes it for a date and fails to format it.  The keys of a dict
    have to be texts. *)
Fixpoint serializable (v : value) : bool :=
  match v with
  | VNaT => false
  | VList l => forallb serializable l
  | VDict d =>
      forallb (fun kv => match fst kv with
                         | KStr _ => serializable (snd kv)
                         | KPair _ _ => false
                         end) d
  | _ => true
  end.

Section Api.

Variable to_datetime : string -> option date.
Variable to_numeric : string -> number.

(** The route on the uploaded file, if any: its name and what
    [pd.read_csv] gives on its saved content.  The result is the body handed
    to [jsonify], if [jsonify] writes it, and the status code.  When
    [jsonify] raises, the exception leaves the view and the answer is the
    error page of status 500, which has no JSON body. *)
Definition api_analyze (file : option (string * read_result))
  : option value * Z :=
  let rejected :=
    (Some (VDict [(KStr "error", VStr "Valid CSV file required")]), 400) in
  match file with
  | None => rejected
  | Some (filename, content) =>
      if negb (negb (String.eqb filename "") && endswith filename ".csv")
      then rejected
      else
        let temp_path := "temp_upload.csv" in
        let analyzer := init temp_path in
        let (ok, analyzer) :=
          load_and_validate_data to_datetime to_numeric content analyzer in
        if ok
        then
          let stats := fst (calculate_statistics analyzer) in
          let body := VDict (match stats with Some d => d | None => [] end) in
          if serializable body then (Some body, 200) else (None, 500)
        else
          (Some (VDict [(KStr "errors", VList (map VStr (errors analyzer)))]),
           400)
  end.

End Api.


(** ** [create_visualizations]

    A figure is represented by the data series handed to plotly; titles,
    colours and layout are left out. *)

Inductive figure :=
| LineChart (points : list (date * nat))
| GroupedBars (bars : list (string * string * nat))
| BarChart (bars : list (string * nat))
| PieChart (slices : list (string * nat)).

Definition date_eqb (a b : date) : bool :=
  (year a =? year b) && (month a =? month b) && (day a =? day b).

Definition date_leb (a b : date) : bool :=
  (year a <? year b)
  || ((year a =? year b)
      && ((month a <? month b)
          || ((month a =? month b) && (day a <=? day b)))).

Fixpoint distinct_dates (l : list date) : list date :=
  match l with
  | [] => []
  | x :: rest => x :: filter (fun y => negb (date_eqb x y)) (distinct_dates rest)
  end.

Fixpoint insert_date (x : date) (l : list date) : list date :=
  match l with
  | [] => [x]
  | y :: rest => if date_leb x y then x :: l else y :: insert_date x rest
  end.

Definition sort_dates (l : list date) : list date :=
  fold_right insert_date [] l.

Definition has_date (d : date) (r : Row) : bool :=
  match enrollment_date r with Some d' => date_eqb d' d | None => false end.

(** [groupby('enrollment_date').size()]: the dates in increasing order, each
    with the number of its rows. *)
Definition enrollment_by_date (rows : list Row) : list (date * nat) :=
  map (fun d => (d, List.length (filter (has_date d) rows)))
      (sort_dates
         (distinct_dates
            (flat_map (fun r => match enrollment_date r with
                                | Some d => [d]
                                | None => []
                                end) rows))).

(** [groupby(['trial_site', 'completed_trial']).size()] with the column
    [status]: for every site in increasing order, the rows that did not
    complete and then those that did, a pair without rows left out. *)
Definition site_completion (rows : list Row) : list (string * string * nat) :=
  flat_map
    (fun site =>
       flat_map
         (fun completed : bool =>
            let n :=
              List.length
                (filter (fun r => has_site site r
                                  && Bool.eqb (completed_trial r) completed)
                        rows) in
            if (0 <? n)%nat
            then [(site,
                   if completed then "Completed Trial"
                   else "Did Not Complete Trial",
                   n)]
            else [])
         [false; true])
    (sort (distinct (present (map trial_site rows)))).

Definition chart_age_bins : list Z := [0; 35; 45; 55; 65; 150].
Definition chart_age_labels : list string :=
  ["18-35"; "36-45"; "46-55"; "56-65"; "65+"].

Definition chart_age_group_of (x : number) : option string :=
  cut chart_age_bins chart_age_labels x.

(** [self.df['age_group'].value_counts().sort_index()]: every category in
    the order of the labels, with the number of its rows. *)
Definition age_distribution (groups : list (option string)) : list (string * nat) :=
  map (fun label =>
         (label,
          List.length (filter (fun g => match g with
                                        | Some l => String.eqb l label
                                        | None => false
                                        end) groups)))
      chart_age_labels.

(** The values of the pie chart: the rows without and with an adverse
    event. *)
Definition adverse_slices (rows : list Row) : list (string * nat) :=
  [ ("No Adverse Events",
      List.length (filter (fun r => negb (adverse_event r)) rows));
    ("Experienced Adverse Events", List.length (filter adverse_event rows)) ].

(** The method stores the column [age_group], with the bins of the chart,
    in [self.df] and returns the four figures.  A frame still as read from
    the file and with rows is not followed. *)
Definition create_visualizations (self : TrialDataAnalyzer)
  : option (list (string * figure)) * TrialDataAnalyzer :=
  match df self with
  | None => (Some [], self)
  | Some f =>
      if (len f =? 0)%nat then (Some [], self)
      else
        match f with
        | RawFrame _ _ => (None, self)
        | Frame rows _ =>
            let fig1 := LineChart (enrollment_by_date rows) in
            let fig2 := GroupedBars (site_completion rows) in
            let age_group := map (fun r => chart_age_group_of (age r)) rows in
            let self := set_df (Frame rows (Some age_group)) self in
            let fig3 := BarChart (age_distribution age_group) in
            let fig4 := PieChart (adverse_slices rows) in
            (Some [ ("enrollment_timeline", fig1);
                    ("site_completion", fig2);
                    ("age_distribution", fig3);
                    ("adverse_events", fig4) ],
             self)
        end
  end.

(** [charts.get(name)]. *)
Fixpoint chart (charts : list (string * figure)) (name : string) : option figure :=
  match charts with
  | [] => None
  | (n, f) :: rest => if String.eqb n name then Some f else chart rest name
  end.

Definition total_of (series : list (string * nat)) : nat :=
  fold_right (fun p acc => (snd p + acc)%nat) O series.


(** The intervals of the age groups of the chart. *)
Definition chart_age_intervals : list (Z * Z * string) :=
  [ (0, 35, "18-35"); (35, 45, "36-45"); (45, 55, "46-55");
    (55, 65, "56-65"); (65, 150, "65+") ].


(** Whether a text holds a decimal point or a sign. *)
Definition is_mark (c : ascii) : bool :=
  Ascii.eqb c "." || Ascii.eqb c "+" || Ascii.eqb c "-".

Fixpoint has_mark (s : string) : bool :=
  match s with
  | EmptyString => false
  | String c rest => is_mark c || has_mark rest
  end.


(** More sample inputs: a header without the column of the sites, a column
    of flags with a missing cell, a column of flags in words, and the row of
    SiteB in the table of grades of [three_valid]. *)
Definition header_without_site : list string :=
  ["patient_id"; "enrollment_date"; "age"; "adverse_event"; "completed_trial"].

Definition flags_with_gap : list cell := [Some "1"; Some "0"; None].

Definition flags_in_words : list cell :=
  [Some "True"; Some "1"; None; Some "no"; Some "TRUE"].

Definition grade_row_SiteB : string * Z * Z * Q * string :=
  ("SiteB", 1, 1, 100%Q, "A (Excellent)").


(** The number a value of the statistics stands for. *)
Definition value_Q (v : value) : Q :=
  match v with
  | VInt z => inject_Z z
  | VFloat q => q
  | _ => 0%Q
  end.


(** * Properties *)

(** ** Numbers *)

Lemma pow10_pos (e : nat) : 0 < pow10 e.
Proof. unfold pow10. apply Z.pow_pos_nonneg; lia. Qed.

(** The comparisons of a number with an integer bound are those of its
    rational value. *)
Lemma number_Q_float (m : Z) (e : nat) (k : Z) :
  (Qred (inject_Z m / inject_Z (pow10 e)) ?= inject_Z k)%Q = (m ?= k * pow10 e).
Proof.
  pose proof (pow10_pos e) as Hp.
  rewrite (Qcompare_comp _ _ (Qred_correct _) _ _ (Qeq_refl _)).
  assert (Hd : (inject_Z m / inject_Z (pow10 e) == m # Z.to_pos (pow10 e))%Q).
  { rewrite (Qmake_Qdiv m (Z.to_pos (pow10 e))).
    rewrite Z2Pos.id by exact Hp. reflexivity. }
  rewrite (Qcompare_comp _ _ Hd _ _ (Qeq_refl _)).
  unfold Qcompare; simpl.
  rewrite Z2Pos.id by exact Hp.
  rewrite Z.mul_1_r. reflexivity.
Qed.

Lemma Some_eq {A : Type} (a b : A) : Some a = Some b -> a = b.
Proof. congruence. Qed.

Lemma number_ltb_Q (n : number) (q : Q) (k : Z) :
  number_Q n = Some q -> number_ltb n k = true <-> (q < inject_Z k)%Q.
Proof.
  destruct n as [|z|m e]; unfold number_Q, number_ltb;
    [discriminate | intros <-%Some_eq ..].
  - rewrite Z.ltb_lt, <- Zlt_Qlt. reflexivity.
  - rewrite Z.ltb_lt, Qlt_alt, number_Q_float. reflexivity.
Qed.

Lemma number_gtb_Q (n : number) (q : Q) (k : Z) :
  number_Q n = Some q -> number_gtb n k = true <-> (inject_Z k < q)%Q.
Proof.
  destruct n as [|z|m e]; unfold number_Q, number_gtb;
    [discriminate | intros <-%Some_eq ..].
  - rewrite Z.ltb_lt, <- Zlt_Qlt. reflexivity.
  - rewrite Z.ltb_lt.
    change (k * pow10 e < m <->
            (Qred (inject_Z m / inject_Z (pow10 e)) > inject_Z k)%Q).
    rewrite Qgt_alt, number_Q_float, Z.compare_gt_iff. reflexivity.
Qed.

Lemma number_leb_Q (n : number) (q : Q) (k : Z) :
  number_Q n = Some q -> number_leb n k = true <-> (q <= inject_Z k)%Q.
Proof.
  destruct n as [|z|m e]; unfold number_Q, number_leb;
    [discriminate | intros <-%Some_eq ..].
  - rewrite Z.leb_le, <- Zle_Qle. reflexivity.
  - rewrite Z.leb_le, Qle_alt, number_Q_float. reflexivity.
Qed.

Lemma number_Q_isna (n : number) :
  number_isna n = false -> exists q, number_Q n = Some q.
Proof. destruct n; simpl; intros H; try discriminate; eauto. Qed.

(** ** Lists *)

Lemma filter_subsequence {A : Type} (f : A -> bool) (l : list A) :
  subsequence (filter f l) l.
Proof.
  induction l as [|x l IH]; simpl.
  - constructor.
  - destruct (f x); constructor; exact IH.
Qed.

Lemma filter_split_length {A : Type} (f : A -> bool) (l : list A) :
  (List.length (filter (fun x => negb (f x)) l) + List.length (filter f l)
   = List.length l)%nat.
Proof.
  induction l as [|x l IH]; simpl.
  - reflexivity.
  - destruct (f x); simpl; lia.
Qed.

Lemma filter_nil_forallb {A : Type} (f : A -> bool) (l : list A) :
  filter (fun x => negb (f x)) l = [] <-> forallb f l = true.
Proof.
  induction l as [|x l IH]; simpl.
  - tauto.
  - destruct (f x); simpl.
    + exact IH.
    + split; discriminate.
Qed.

Lemma filter_all {A : Type} (f : A -> bool) (l : list A) :
  forallb f l = true -> filter f l = l.
Proof.
  induction l as [|x l IH]; simpl.
  - reflexivity.
  - destruct (f x); simpl; [intros H; f_equal; auto | discriminate].
Qed.

(** ** The load: what it leaves in the analyzer *)

Lemma invalid_mask_checks (r : Row) :
  invalid_mask r =
  isna (enrollment_date r) || age_invalid r
  || isna (patient_id r) || isna (trial_site r).
Proof.
  unfold invalid_mask, age_invalid.
  destruct (isna (enrollment_date r)), (number_isna (age r)),
    (number_ltb (age r) 0), (number_gtb (age r) 150); reflexivity.
Qed.

Lemma reasons_of_table (r : Row) :
  reasons_of r = map snd (filter fst (rule_table r)).
Proof.
  unfold reasons_of, rule_table.
  destruct (isna (enrollment_date r)), (age_invalid r),
    (isna (patient_id r)), (isna (trial_site r)); reflexivity.
Qed.

(** The tests of the loop decide the checks. *)
Lemma isna_None {A : Type} (c : option A) : isna c = true <-> c = None.
Proof. destruct c; simpl; split; congruence. Qed.

Lemma age_invalid_fails (r : Row) :
  age_invalid r = true <-> fails r InvalidAge.
Proof.
  unfold age_invalid, fails.
  destruct (number_isna (age r)) eqn:Hna.
  - simpl. split; [|reflexivity]. intros _. left.
    destruct (age r); [reflexivity | discriminate Hna | discriminate Hna].
  - destruct (number_Q_isna (age r) Hna) as [q Hq]. simpl.
    rewrite orb_true_iff, (number_ltb_Q _ _ 0 Hq), (number_gtb_Q _ _ 150 Hq).
    split.
    + intros H. right. exists q. split; [exact Hq | exact H].
    + intros [H | (q' & Hq' & H)].
      * rewrite H in Hna. discriminate Hna.
      * rewrite Hq in Hq'. apply Some_eq in Hq'. subst q'. exact H.
Qed.

Lemma tested_fails (r : Row) (c : check) :
  tested r c = true <-> fails r c.
Proof.
  destruct c; simpl;
    [apply isna_None | apply age_invalid_fails | apply isna_None | apply isna_None].
Qed.

Section PipelineProperties.

Variable to_datetime : string -> option date.
Variable to_numeric : string -> number.

Let load_data := load_and_validate_data to_datetime to_numeric.
Let candidates := convert to_datetime to_numeric.

Lemma to_numeric_column_length (col : list cell) :
  List.length (to_numeric_column to_numeric col) = List.length col.
Proof.
  unfold to_numeric_column.
  destruct (forallb _ _); rewrite ?length_map; reflexivity.
Qed.

Lemma convert_length (cols : list string) (data : list (list cell)) :
  List.length (candidates cols data) = List.length data.
Proof.
  unfold candidates, convert, to_bool_column, astype_str, column.
  rewrite length_map, !length_combine, to_numeric_column_length, !length_map.
  rewrite !Nat.min_id. reflexivity.
Qed.

Variables (cols : list string) (data : list (list cell)).
Variable self : TrialDataAnalyzer.
Hypothesis schema : missing_columns cols = [].

Lemma load_working_set :
  working_set (snd (load_data (ReadOk cols data) self))
  = filter (fun r => negb (invalid_mask r)) (candidates cols data).
Proof.
  unfold load_data, load_and_validate_data. rewrite schema.
  destruct (List.length (filter _ _) =? 0)%nat; reflexivity.
Qed.

Lemma load_invalid_records :
  invalid_records (snd (load_data (ReadOk cols data) self))
  = map invalid_record_of (filter invalid_mask (candidates cols data)).
Proof.
  unfold load_data, load_and_validate_data. rewrite schema.
  destruct (List.length (filter _ _) =? 0)%nat;
    destruct (0 <? List.length _)%nat; reflexivity.
Qed.

Lemma load_result :
  fst (load_data (ReadOk cols data) self)
  = negb (List.length (working_set (snd (load_data (ReadOk cols data) self)))
          =? 0)%nat.
Proof.
  rewrite load_working_set.
  unfold load_data, load_and_validate_data. rewrite schema.
  fold (candidates cols data).
  destruct (List.length (filter _ _) =? 0)%nat; reflexivity.
Qed.

Lemma load_errors :
  errors (snd (load_data (ReadOk cols data) self))
  = (errors self
     ++ (if (0 <? List.length (filter invalid_mask (candidates cols data)))%nat
         then [("Total: "
                ++ Py.str_nat (List.length (filter invalid_mask (candidates cols data)))
                ++ " invalid record(s) excluded from analysis")%string]
         else [])
     ++ (if fst (load_data (ReadOk cols data) self) then []
         else ["No valid records found after validation"]))%list.
Proof.
  unfold load_data, load_and_validate_data. rewrite schema.
  fold (candidates cols data). rewrite length_map.
  destruct (List.length (filter (fun r => negb _) _) =? 0)%nat;
    destruct (0 <? List.length _)%nat; simpl;
    rewrite <- ?app_assoc, ?app_nil_r; reflexivity.
Qed.

Lemma combine_map {A B C : Type} (f : A -> B) (g : A -> C) (l : list A) :
  combine (map f l) (map g l) = map (fun x => (f x, g x)) l.
Proof. induction l; simpl; congruence. Qed.

Lemma convert_rows :
  candidates cols data = map (convert_row to_datetime to_numeric cols data) data.
Proof.
  unfold candidates, convert, convert_row, to_bool, to_bool_column, astype_str.
  assert (Hages : to_numeric_column to_numeric (column cols data "age")
                  = map (fun r => age_cast to_numeric cols data
                                    (coerce_number to_numeric (row_get cols r "age")))
                        data).
  { unfold to_numeric_column, age_cast, column.
    destruct (forallb _ _); rewrite !map_map; reflexivity. }
  rewrite Hages. unfold column at 1 3 5. rewrite !map_map.
  rewrite <- (map_id data) at 1.
  rewrite !combine_map, map_map. reflexivity.
Qed.

Lemma invalid_record_in (r : Row) :
  In r (candidates cols data) -> invalid_mask r = true ->
  In (invalid_record_of r)
     (invalid_records (snd (load_data (ReadOk cols data) self))).
Proof.
  intros Hin Hmask. rewrite load_invalid_records.
  apply in_map, filter_In. split; assumption.
Qed.

Lemma invalid_record_inv (ir : InvalidRecord) :
  In ir (invalid_records (snd (load_data (ReadOk cols data) self))) ->
  ir = invalid_record_of (invalid_row ir)
  /\ In (invalid_row ir) (candidates cols data)
  /\ invalid_mask (invalid_row ir) = true.
Proof.
  rewrite load_invalid_records. intros H.
  apply in_map_iff in H. destruct H as (r & <- & H).
  apply filter_In in H. simpl. tauto.
Qed.

(** C4.  When the schema check passes, the load splits the candidate records
    in two: the working set and the invalid records together have as many
    entries as the input has rows, a record with a true mask goes to the
    invalid records and any other to the working set, and each part lists its
    records in the order of the input. *)
Theorem partition_total_and_stable :
  let self' := snd (load_data (ReadOk cols data) self) in
  List.length (candidates cols data) = List.length data /\
  (List.length (working_set self') + List.length (invalid_records self')
   = List.length data)%nat /\
  working_set self'
  = filter (fun r => negb (invalid_mask r)) (candidates cols data) /\
  map invalid_row (invalid_records self')
  = filter invalid_mask (candidates cols data) /\
  subsequence (working_set self') (candidates cols data) /\
  subsequence (map invalid_row (invalid_records self')) (candidates cols data).
Proof.
  cbv zeta.
  assert (Hinv : map invalid_row
                   (invalid_records (snd (load_data (ReadOk cols data) self)))
                 = filter invalid_mask (candidates cols data)).
  { rewrite load_invalid_records, map_map. apply map_id. }
  repeat split.
  - apply convert_length.
  - rewrite <- (length_map invalid_row), Hinv, load_working_set.
    rewrite filter_split_length. apply convert_length.
  - apply load_working_set.
  - exact Hinv.
  - rewrite load_working_set. apply filter_subsequence.
  - rewrite Hinv. apply filter_subsequence.
Qed.

(** C5.  Every record of the working set has a parsed enrollment date, an
    age that is a number between 0 and 150, both bounds included, a patient
    identifier and a trial site. *)
Theorem working_set_records_valid (r : Row) :
  In r (working_set (snd (load_data (ReadOk cols data) self))) ->
  (exists d, enrollment_date r = Some d) /\
  (exists q, number_Q (age r) = Some q /\ (0 <= q)%Q /\ (q <= 150)%Q) /\
  (exists p, patient_id r = Some p) /\
  (exists s, trial_site r = Some s).
Proof.
  rewrite load_working_set. intros H.
  apply filter_In in H. destruct H as [_ H].
  apply negb_true_iff in H. unfold invalid_mask in H.
  repeat (apply orb_false_elim in H; destruct H as [H ?]).
  repeat split.
  - destruct (enrollment_date r); [eauto | discriminate].
  - destruct (number_Q_isna (age r)) as [q Hq]; [assumption|].
    exists q. split; [exact Hq|]. split.
    + apply Qnot_lt_le. intros Hlt.
      apply (number_ltb_Q _ _ 0 Hq) in Hlt. congruence.
    + apply Qnot_lt_le. intros Hlt.
      apply (number_gtb_Q _ _ 150 Hq) in Hlt. congruence.
  - destruct (patient_id r); [eauto | discriminate].
  - destruct (trial_site r); [eauto | discriminate].
Qed.

(** C6.  Every candidate record that fails a check is stored as an invalid
    record, and its reasons are the messages of exactly the checks it
    fails, one for each, in the fixed order: date, age, patient identifier,
    trial site.  The reasons are never empty and hold no message twice.
    Conversely every stored record is a candidate that fails a check, and
    the stored rows are the invalid candidates in the order of the input. *)
Theorem invalid_reasons_by_rule :
  let stored := invalid_records (snd (load_data (ReadOk cols data) self)) in
  (forall r : Row,
     In r (candidates cols data) -> (exists c, fails r c) ->
     exists cs : list check,
       subsequence cs checks /\
       (forall c, In c cs <-> fails r c) /\
       cs <> [] /\
       NoDup (map (message r) cs) /\
       In (mkInvalid r (map (message r) cs)) stored /\
       (forall ir, In ir stored -> invalid_row ir = r ->
                   validation_errors ir = map (message r) cs)) /\
  (forall ir : InvalidRecord,
     In ir stored ->
     In (invalid_row ir) (candidates cols data) /\
     exists c, fails (invalid_row ir) c) /\
  map invalid_row stored
  = filter (fun r => existsb (tested r) checks) (candidates cols data).
Proof.
  cbv zeta. split; [|split].
  - intros r Hin Hfails.
    exists (filter (tested r) checks).
    assert (Hspec : forall c, In c (filter (tested r) checks) <-> fails r c).
    { intros c. rewrite filter_In, tested_fails.
      split; [tauto|]. intros H. split; [destruct c; simpl; tauto | exact H]. }
    assert (Hmask : invalid_mask r = true).
    { destruct Hfails as [c Hc]. apply tested_fails in Hc.
      rewrite invalid_mask_checks.
      destruct c; simpl in Hc; rewrite Hc, ?orb_true_r; reflexivity. }
    assert (Hreasons : reasons_of r = map (message r) (filter (tested r) checks)).
    { unfold reasons_of, checks. simpl.
      destruct (isna (enrollment_date r)), (age_invalid r),
        (isna (patient_id r)), (isna (trial_site r)); reflexivity. }
    split; [apply filter_subsequence|].
    split; [exact Hspec|].
    split.
    { destruct Hfails as [c Hc]. apply Hspec in Hc.
      intros E. rewrite E in Hc. exact Hc. }
    split.
    { unfold checks. simpl.
      destruct (isna (enrollment_date r)), (age_invalid r),
        (isna (patient_id r)), (isna (trial_site r)); simpl;
        repeat (constructor; [simpl; intuition discriminate|]); constructor. }
    split.
    { rewrite <- Hreasons. apply (invalid_record_in r Hin Hmask). }
    intros ir Hir Hrow.
    destruct (invalid_record_inv ir Hir) as (E & _ & _).
    rewrite E, Hrow. simpl. exact Hreasons.
  - intros ir Hir.
    destruct (invalid_record_inv ir Hir) as (_ & Hin & Hmask).
    split; [exact Hin|].
    rewrite invalid_mask_checks in Hmask.
    destruct (isna (enrollment_date (invalid_row ir))) eqn:H1;
      [exists InvalidDate; apply tested_fails; exact H1|].
    destruct (age_invalid (invalid_row ir)) eqn:H2;
      [exists InvalidAge; apply tested_fails; exact H2|].
    destruct (isna (patient_id (invalid_row ir))) eqn:H3;
      [exists MissingPatientId; apply tested_fails; exact H3|].
    exists MissingTrialSite. apply tested_fails. exact Hmask.
  - rewrite load_invalid_records, map_map, map_id.
    apply filter_ext. intros r. rewrite invalid_mask_checks.
    unfold checks. simpl. rewrite orb_false_r, !orb_assoc. reflexivity.
Qed.

(** C7.  When the schema check passes, the load fails exactly when the
    working set is empty, that is when every candidate record is invalid.
    The invalid records are stored in either case; on failure they are all
    the candidate records and the last error is the message of the empty
    working set. *)
Theorem load_fails_iff_working_set_empty :
  let result := load_data (ReadOk cols data) self in
  (fst result = false <-> working_set (snd result) = []) /\
  (fst result = false <-> forallb invalid_mask (candidates cols data) = true) /\
  invalid_records (snd result)
  = map invalid_record_of (filter invalid_mask (candidates cols data)) /\
  (fst result = false ->
   map invalid_row (invalid_records (snd result)) = candidates cols data /\
   last (errors (snd result)) "" = "No valid records found after validation").
Proof.
  cbv zeta.
  assert (Hempty : fst (load_data (ReadOk cols data) self) = false <->
                   working_set (snd (load_data (ReadOk cols data) self)) = []).
  { rewrite load_result, negb_false_iff, Nat.eqb_eq. apply length_zero_iff_nil. }
  assert (Hall : fst (load_data (ReadOk cols data) self) = false <->
                 forallb invalid_mask (candidates cols data) = true).
  { rewrite Hempty, load_working_set. apply filter_nil_forallb. }
  split; [exact Hempty|]. split; [exact Hall|].
  split; [apply load_invalid_records|].
  intros Hfalse. split.
  - rewrite load_invalid_records, map_map, map_id.
    apply filter_all, Hall, Hfalse.
  - rewrite load_errors, Hfalse, app_assoc. apply last_last.
Qed.

(** C1, as the code has it.  The reason for an invalid age prints the age
    after the conversion to a number, not the text of the file: every
    candidate whose age is NaN, negative or above 150 is stored with the
    reason made of "Invalid age: " and the printed number, and a row whose
    age text is missing or coerced to NaN is stored with the reason
    "Invalid age: nan". *)
Theorem invalid_age_reason_prints_converted_value :
  (forall r : Row,
     In r (candidates cols data) -> age_invalid r = true ->
     exists ir,
       In ir (invalid_records (snd (load_data (ReadOk cols data) self))) /\
       invalid_row ir = r /\
       In ("Invalid age: " ++ str_number (age r)) (validation_errors ir)) /\
  (forall raw : list cell,
     In raw data ->
     coerce_number to_numeric (row_get cols raw "age") = NaN ->
     exists ir,
       In ir (invalid_records (snd (load_data (ReadOk cols data) self))) /\
       patient_id (invalid_row ir) = row_get cols raw "patient_id" /\
       age (invalid_row ir) = NaN /\
       In "Invalid age: nan" (validation_errors ir)).
Proof.
  assert (Hgen : forall r : Row,
     In r (candidates cols data) -> age_invalid r = true ->
     exists ir,
       In ir (invalid_records (snd (load_data (ReadOk cols data) self))) /\
       invalid_row ir = r /\
       In ("Invalid age: " ++ str_number (age r)) (validation_errors ir)).
  { intros r Hin Hage.
    exists (invalid_record_of r). split; [|split; [reflexivity|]].
    - apply invalid_record_in; [exact Hin|].
      rewrite invalid_mask_checks, Hage.
      destruct (isna (enrollment_date r)); reflexivity.
    - simpl. rewrite reasons_of_table. unfold rule_table. rewrite Hage.
      destruct (isna (enrollment_date r)), (isna (patient_id r)),
        (isna (trial_site r)); simpl; auto. }
  split; [exact Hgen|].
  intros raw Hin Hnan.
  set (r := convert_row to_datetime to_numeric cols data raw).
  assert (Hage : age r = NaN).
  { unfold r. simpl. rewrite Hnan. unfold age_cast.
    destruct (forallb _ _); reflexivity. }
  destruct (Hgen r) as (ir & Hir & Hrow & Hreason).
  - rewrite convert_rows. apply in_map, Hin.
  - unfold age_invalid. rewrite Hage. reflexivity.
  - exists ir. rewrite Hrow. rewrite Hage in Hreason.
    repeat split; assumption.
Qed.

End PipelineProperties.

(** ** Statistics *)

Lemma rint_compat (p q : Q) : (p == q)%Q -> rint p = rint q.
Proof.
  intros H. unfold rint.
  rewrite (Qfloor_comp _ _ H).
  assert (E : (p - inject_Z (Qfloor q) == q - inject_Z (Qfloor q))%Q)
    by (rewrite H; reflexivity).
  rewrite (Qcompare_comp _ _ E _ _ (Qeq_refl (1 # 2))).
  reflexivity.
Qed.

Lemma round_compat (p q : Q) (d : nat) : (p == q)%Q -> round p d = round q d.
Proof.
  intros H. unfold round.
  rewrite (rint_compat (p * inject_Z (pow10 d)) (q * inject_Z (pow10 d)));
    [reflexivity | rewrite H; reflexivity].
Qed.

(** C10.  Without a frame, or with a frame without rows, both computations
    return the empty mapping and leave the analyzer as it is. *)
Theorem no_data_gives_empty_mapping (self : TrialDataAnalyzer) :
  df self = None \/ (exists f, df self = Some f /\ len f = O) ->
  calculate_statistics self = (Some [], self) /\
  get_advanced_analysis self = (Some [], self).
Proof.
  unfold calculate_statistics, get_advanced_analysis.
  intros [H | (f & H & Hlen)]; rewrite H.
  - split; reflexivity.
  - rewrite Hlen. split; reflexivity.
Qed.

(** C3, as the code has it.  [calculate_statistics] returns the analyzer
    unchanged.  [get_advanced_analysis] keeps the rows, the invalid records
    and the errors, and changes the frame only by the column [age_group].
    Running either computation again, in any order, gives the same report. *)
Theorem reports_repeatable (self : TrialDataAnalyzer) :
  snd (calculate_statistics self) = self /\
  working_set (snd (get_advanced_analysis self)) = working_set self /\
  invalid_records (snd (get_advanced_analysis self)) = invalid_records self /\
  errors (snd (get_advanced_analysis self)) = errors self /\
  fst (calculate_statistics (snd (calculate_statistics self)))
  = fst (calculate_statistics self) /\
  fst (get_advanced_analysis (snd (get_advanced_analysis self)))
  = fst (get_advanced_analysis self) /\
  fst (calculate_statistics (snd (get_advanced_analysis self)))
  = fst (calculate_statistics self) /\
  fst (get_advanced_analysis (snd (calculate_statistics self)))
  = fst (get_advanced_analysis self).
Proof.
  assert (Hstat : snd (calculate_statistics self) = self).
  { unfold calculate_statistics.
    destruct (df self) as [f|]; [|reflexivity].
    destruct (len f =? 0)%nat; [reflexivity|].
    destruct f; reflexivity. }
  rewrite !Hstat.
  destruct self as [file [[c d | rows g]|] inv errs db];
    unfold get_advanced_analysis, calculate_statistics, working_set; simpl;
    try (repeat split; reflexivity).
  - destruct (List.length d =? 0)%nat eqn:E; simpl; rewrite ?E;
      repeat split; reflexivity.
  - destruct (List.length rows =? 0)%nat eqn:E; simpl; rewrite ?E;
      repeat split; reflexivity.
Qed.

(** ** Age groups *)

Ltac compare_all :=
  repeat match goal with
         | |- context [(?a <? ?b)] => destruct (Z.ltb_spec a b)
         | |- context [(?a <=? ?b)] => destruct (Z.leb_spec a b)
         | H : context [(?a <? ?b)] |- _ => destruct (Z.ltb_spec a b)
         | H : context [(?a <=? ?b)] |- _ => destruct (Z.leb_spec a b)
         end.

Lemma age_group_of_cases (x : number) :
  age_group_of x =
  if number_gtb x 0 && number_leb x 35 then Some "18-35"
  else if number_gtb x 35 && number_leb x 50 then Some "36-50"
  else if number_gtb x 50 && number_leb x 65 then Some "51-65"
  else if number_gtb x 65 && number_leb x 150 then Some "65+"
  else None.
Proof. reflexivity. Qed.

Lemma in_age_intervals (lo hi : Z) (l : string) :
  In (lo, hi, l) age_intervals <->
  (lo, hi, l) = (0, 35, "18-35") \/ (lo, hi, l) = (35, 50, "36-50") \/
  (lo, hi, l) = (50, 65, "51-65") \/ (lo, hi, l) = (65, 150, "65+").
Proof. unfold age_intervals. simpl. intuition congruence. Qed.

(** A number that is not NaN compares as an integer numerator [v] over a
    positive denominator [p]. *)
Lemma number_scaled (x : number) :
  number_isna x = false ->
  exists v p : Z,
    0 < p /\
    (forall k, number_gtb x k = (k * p <? v)) /\
    (forall k, number_leb x k = (v <=? k * p)) /\
    (forall k, number_ltb x k = (v <? k * p)).
Proof.
  destruct x as [|z|m e]; simpl; intros H; [discriminate| |].
  - exists z, 1. split; [lia|].
    repeat split; intros k; rewrite Z.mul_1_r; reflexivity.
  - exists m, (pow10 e). split; [apply pow10_pos|].
    repeat split; reflexivity.
Qed.

Lemma number_gtb_notna (x : number) (k : Z) :
  number_gtb x k = true -> number_isna x = false.
Proof. destruct x; simpl; congruence. Qed.

Lemma number_leb_notna (x : number) (k : Z) :
  number_leb x k = true -> number_isna x = false.
Proof. destruct x; simpl; congruence. Qed.

Ltac interval_witness Hgt Hle :=
  solve [ exists 0, 35; rewrite Hgt, Hle, Z.ltb_lt, Z.leb_le;
          split; [simpl; tauto | lia]
        | exists 35, 50; rewrite Hgt, Hle, Z.ltb_lt, Z.leb_le;
          split; [simpl; tauto | lia]
        | exists 50, 65; rewrite Hgt, Hle, Z.ltb_lt, Z.leb_le;
          split; [simpl; tauto | lia]
        | exists 65, 150; rewrite Hgt, Hle, Z.ltb_lt, Z.leb_le;
          split; [simpl; tauto | lia] ].

Lemma age_group_of_interval (x : number) (l : string) :
  age_group_of x = Some l <->
  exists lo hi,
    In (lo, hi, l) age_intervals /\
    number_gtb x lo = true /\ number_leb x hi = true.
Proof.
  destruct (number_isna x) eqn:Hna.
  - destruct x; try discriminate. simpl. split; [discriminate|].
    intros (lo & hi & _ & H & _). discriminate.
  - destruct (number_scaled x Hna) as (v & p & Hp & Hgt & Hle & _).
    rewrite age_group_of_cases, !Hgt, !Hle.
    split.
    + compare_all; simpl; intros [= <-]; interval_witness Hgt Hle.
    + intros (lo & hi & Hin & H1 & H2).
      rewrite Hgt, Z.ltb_lt in H1. rewrite Hle, Z.leb_le in H2.
      apply in_age_intervals in Hin.
      destruct Hin as [E | [E | [E | E]]]; injection E as -> -> ->;
        compare_all; simpl; first [reflexivity | exfalso; lia].
Qed.

(** C2, as the code has it.  The cross-analysis gives every row of the
    working set the age group of its age.  The age groups are the intervals
    (0, 35], (35, 50], (50, 65] and (65, 150] with the labels 18-35, 36-50,
    51-65 and 65+: an age is given a label exactly when it lies in the
    interval of that label.  Every age above 0 and at most 150 has one label and lies in
    the interval of no other label; an age that is not above 0, or above
    150, has none. *)
Theorem age_groups_half_open :
  age_intervals = combine (combine age_bins (tl age_bins)) age_labels /\
  (forall self rows groups,
     df self = Some (Frame rows groups) -> rows <> [] ->
     df (snd (get_advanced_analysis self))
     = Some (Frame rows (Some (map (fun r => age_group_of (age r)) rows)))) /\
  (forall x l,
     age_group_of x = Some l <->
     exists lo hi,
       In (lo, hi, l) age_intervals /\
       number_gtb x lo = true /\ number_leb x hi = true) /\
  (forall x,
     number_gtb x 0 = true -> number_leb x 150 = true ->
     exists l,
       age_group_of x = Some l /\
       forall lo hi l',
         In (lo, hi, l') age_intervals ->
         number_gtb x lo = true -> number_leb x hi = true -> l' = l) /\
  (forall x,
     number_gtb x 0 = false \/ number_leb x 150 = false ->
     age_group_of x = None).
Proof.
  split; [reflexivity|]. split.
  { intros self rows groups Hdf Hrows.
    unfold get_advanced_analysis. rewrite Hdf.
    destruct rows as [|r rest]; [congruence | reflexivity]. }
  split; [exact age_group_of_interval|]. split.
  - intros x H0 H150.
    pose proof (number_gtb_notna x 0 H0) as Hna.
    destruct (number_scaled x Hna) as (v & p & Hp & Hgt & Hle & _).
    assert (Hsome : exists l, age_group_of x = Some l).
    { rewrite Hgt, Z.ltb_lt in H0. rewrite Hle, Z.leb_le in H150.
      rewrite age_group_of_cases, !Hgt, !Hle.
      compare_all; simpl; eauto; exfalso; lia. }
    destruct Hsome as [l Hl]. exists l. split; [exact Hl|].
    intros lo hi l' Hin Hlo Hhi.
    assert (Hl' : age_group_of x = Some l').
    { apply age_group_of_interval. exists lo, hi. auto. }
    congruence.
  - intros x H.
    destruct (age_group_of x) as [l|] eqn:E; [|reflexivity].
    apply age_group_of_interval in E.
    destruct E as (lo & hi & Hin & Hlo & Hhi).
    pose proof (number_gtb_notna x lo Hlo) as Hna.
    destruct (number_scaled x Hna) as (v & p & Hp & Hgt & Hle & _).
    rewrite Hgt, Z.ltb_lt in Hlo. rewrite Hle, Z.leb_le in Hhi.
    rewrite Hgt, Hle, Z.ltb_ge, Z.leb_gt in H.
    apply in_age_intervals in Hin.
    destruct Hin as [E | [E | [E | E]]]; injection E as -> -> ->;
      exfalso; lia.
Qed.

(** ** Site grading *)

Lemma Qle_bool_false (x y : Q) : Qle_bool x y = false <-> (y < x)%Q.
Proof.
  rewrite <- not_true_iff_false, Qle_bool_iff. split.
  - apply Qnot_le_lt.
  - apply Qlt_not_le.
Qed.

(** C9.  The grade is a total function of the rate with closed lower
    thresholds: A from 90, B from 70 and below 90, C from 50 and below 70, D
    below 50; the text of a grade starts with its letter.  At the
    boundaries: 90.0 is A, 89.99 is B, 70.0 is B and 49.99 is D. *)
Theorem grade_thresholds (rate : Q) :
  (grade rate = "A (Excellent)" <-> (90 <= rate)%Q) /\
  (grade rate = "B (Good)" <-> (70 <= rate)%Q /\ (rate < 90)%Q) /\
  (grade rate = "C (Fair)" <-> (50 <= rate)%Q /\ (rate < 70)%Q) /\
  (grade rate = "D (Poor)" <-> (rate < 50)%Q) /\
  (letter (grade rate) = "A" <-> (90 <= rate)%Q) /\
  (letter (grade rate) = "B" <-> (70 <= rate)%Q /\ (rate < 90)%Q) /\
  (letter (grade rate) = "C" <-> (50 <= rate)%Q /\ (rate < 70)%Q) /\
  (letter (grade rate) = "D" <-> (rate < 50)%Q) /\
  letter (grade 90) = "A" /\
  letter (grade (8999 # 100)) = "B" /\
  letter (grade 70) = "B" /\
  letter (grade (4999 # 100)) = "D".
Proof.
  unfold grade.
  destruct (Qle_bool 90 rate) eqn:H90;
    [apply Qle_bool_iff in H90 | apply Qle_bool_false in H90];
    (destruct (Qle_bool 70 rate) eqn:H70;
     [apply Qle_bool_iff in H70 | apply Qle_bool_false in H70]);
    (destruct (Qle_bool 50 rate) eqn:H50;
     [apply Qle_bool_iff in H50 | apply Qle_bool_false in H50]);
    simpl;
    repeat split; intros; try discriminate; try lra.
Qed.

(** ** The properties on the sample inputs *)

Lemma partition_total_and_stable_witness :
  missing_columns header = [] /\
  (List.length (working_set (loaded mixed))
   + List.length (invalid_records (loaded mixed)) = 5)%nat /\
  subsequence (working_set (loaded mixed))
              (convert parse_date parse_numeral header mixed).
Proof.
  pose proof (partition_total_and_stable parse_date parse_numeral header mixed
                (init "trial.csv") eq_refl) as H.
  cbv zeta in H. destruct H as (_ & Hlen & _ & _ & Hsub & _).
  split; [reflexivity|]. split; [exact Hlen | exact Hsub].
Defined.

Lemma working_set_records_valid_witness :
  In row_P001 (working_set (loaded mixed)) /\
  (exists d, enrollment_date row_P001 = Some d) /\
  (exists q, number_Q (age row_P001) = Some q /\ (0 <= q)%Q /\ (q <= 150)%Q) /\
  (exists p, patient_id row_P001 = Some p) /\
  (exists s, trial_site row_P001 = Some s).
Proof.
  assert (Hin : In row_P001 (working_set (loaded mixed)))
    by (vm_compute; left; reflexivity).
  split; [exact Hin|].
  exact (working_set_records_valid parse_date parse_numeral header mixed
           (init "trial.csv") eq_refl row_P001 Hin).
Defined.

Lemma invalid_reasons_by_rule_witness :
  missing_columns header = [] /\
  In (invalid_row invalid_P002) (convert parse_date parse_numeral header mixed) /\
  fails (invalid_row invalid_P002) InvalidAge /\
  exists cs : list check,
    subsequence cs checks /\
    (forall c, In c cs <-> fails (invalid_row invalid_P002) c) /\
    cs <> [] /\
    In (mkInvalid (invalid_row invalid_P002)
                  (map (message (invalid_row invalid_P002)) cs))
       (invalid_records (loaded mixed)).
Proof.
  assert (Hin : In (invalid_row invalid_P002)
                   (convert parse_date parse_numeral header mixed))
    by (vm_compute; right; left; reflexivity).
  assert (Hage : fails (invalid_row invalid_P002) InvalidAge)
    by (apply tested_fails; reflexivity).
  split; [reflexivity|]. split; [exact Hin|]. split; [exact Hage|].
  destruct (proj1 (invalid_reasons_by_rule parse_date parse_numeral header mixed
                     (init "trial.csv") eq_refl)
                  (invalid_row invalid_P002) Hin
                  (ex_intro _ InvalidAge Hage))
    as (cs & Hsub & Hspec & Hne & _ & Hstored & _).
  exists cs. repeat split; try assumption; apply Hspec.
Defined.

Lemma load_fails_iff_working_set_empty_witness :
  missing_columns header = [] /\
  (fst (load (ReadOk header all_200) (init "trial.csv")) = false <->
   working_set (loaded all_200) = []) /\
  (fst (load (ReadOk header mixed) (init "trial.csv")) = false <->
   working_set (loaded mixed) = []).
Proof.
  split; [reflexivity|]. split.
  - exact (proj1 (load_fails_iff_working_set_empty parse_date parse_numeral
                    header all_200 (init "trial.csv") eq_refl)).
  - exact (proj1 (load_fails_iff_working_set_empty parse_date parse_numeral
                    header mixed (init "trial.csv") eq_refl)).
Defined.

Lemma invalid_age_reason_witness :
  missing_columns header = [] /\
  exists ir,
    In ir (invalid_records (loaded one_abc)) /\
    patient_id (invalid_row ir) = Some "P001" /\
    age (invalid_row ir) = NaN /\
    In "Invalid age: nan" (validation_errors ir).
Proof.
  split; [reflexivity|].
  apply (proj2 (invalid_age_reason_prints_converted_value
                  parse_date parse_numeral header one_abc (init "trial.csv")
                  eq_refl)
               (raw_row "P001" "SiteA" "2024-01-10" "abc" "True" "False")).
  - left. reflexivity.
  - reflexivity.
Defined.

Lemma no_data_gives_empty_mapping_witness :
  calculate_statistics (init "trial.csv") = (Some [], init "trial.csv") /\
  get_advanced_analysis (init "trial.csv") = (Some [], init "trial.csv") /\
  calculate_statistics (loaded all_200) = (Some [], loaded all_200).
Proof.
  split; [|split].
  - apply (no_data_gives_empty_mapping (init "trial.csv")). left. reflexivity.
  - apply (no_data_gives_empty_mapping (init "trial.csv")). left. reflexivity.
  - apply (no_data_gives_empty_mapping (loaded all_200)). right.
    exists (Frame [] None). split; reflexivity.
Defined.

(** The reasons for invalid ages that are floats, as they are printed. *)
Example invalid_ages_as_printed :
  map validation_errors (invalid_records (loaded extreme_ages))
  = [ ["Invalid age: -1e-05"]; ["Invalid age: 1e+16"]; ["Invalid age: inf"];
      ["Invalid age: 150.5"] ].
Proof. vm_compute. reflexivity. Qed.

(** C1 fails as stated: the row whose age text is abc is stored with the
    single reason "Invalid age: nan"; the text abc is in no reason. *)
Lemma age_text_is_not_reported :
  map validation_errors (invalid_records (loaded one_abc))
  = [["Invalid age: nan"]] /\
  ~ In "Invalid age: abc"
       (List.concat (map validation_errors (invalid_records (loaded one_abc)))).
Proof.
  split; [reflexivity|].
  vm_compute. intros [H | []]. discriminate H.
Qed.

(** C2 fails as stated: age 0 passes the validation, the fourth row of
    [mixed] is in the working set, and it has no age group. *)
Lemma age_zero_has_no_group :
  In row_P004 (working_set (loaded mixed)) /\
  invalid_mask row_P004 = false /\
  age_group_of (age row_P004) = None /\
  age_group_of (Int64 0) = None /\
  ~ (forall x : number,
       number_isna x = false -> number_ltb x 0 = false ->
       number_gtb x 150 = false -> exists l, age_group_of x = Some l).
Proof.
  split; [vm_compute; tauto|].
  repeat split.
  intros H. destruct (H (Int64 0)) as [l Hl]; try reflexivity.
  discriminate Hl.
Qed.

(** C3 fails as stated: the cross-analysis stores the column [age_group] in
    the frame of the working set. *)
Lemma cross_analysis_changes_frame :
  df (loaded three_valid) = Some (Frame (working_set (loaded three_valid)) None) /\
  df (snd (get_advanced_analysis (loaded three_valid)))
  = Some (Frame (working_set (loaded three_valid))
                (Some [Some "18-35"; Some "36-50"; Some "51-65"])) /\
  snd (get_advanced_analysis (loaded three_valid)) <> loaded three_valid.
Proof.
  split; [reflexivity|]. split; [reflexivity|].
  intros H. apply (f_equal df) in H. vm_compute in H. discriminate H.
Qed.

(** ** Scenarios *)

(** Three valid rows of ages 20, 40 and 60, one with an adverse event and
    not completed. *)
Example scenario_three_valid :
  exists stats,
    fst (calculate_statistics (loaded three_valid)) = Some stats /\
    get stats (KStr "total_patients") = Some (VInt 3) /\
    get stats (KStr "adverse_event_rate_percent") = Some (VFloat (3333 # 100)) /\
    get stats (KStr "completion_rate_percent") = Some (VFloat (6667 # 100)).
Proof. eexists. split; [vm_compute; reflexivity|]. repeat split. Qed.

(** A column of ages that are all 200 stays an integer column and the load
    fails with every row among the invalid records. *)
Example scenario_all_200 :
  fst (load (ReadOk header all_200) (init "trial.csv")) = false /\
  map validation_errors (invalid_records (loaded all_200))
  = [["Invalid age: 200"]; ["Invalid age: 200"]] /\
  errors (loaded all_200)
  = ["Total: 2 invalid record(s) excluded from analysis";
     "No valid records found after validation"].
Proof. repeat split. Qed.

(** In a column with a text that is no number, 200 is printed as a float. *)
Example scenario_mixed :
  fst (load (ReadOk header mixed) (init "trial.csv")) = true /\
  map validation_errors (invalid_records (loaded mixed))
  = [["Invalid age: nan"];
     ["Invalid enrollment date"; "Invalid age: 200.0"; "Missing patient ID"]] /\
  map age (working_set (loaded mixed)) = [Float64 20 0; Float64 0 0; Float64 150 0].
Proof. repeat split. Qed.

(** A file without the column [trial_site] stops at the schema check. *)
Example scenario_missing_column :
  let file := ReadOk ["patient_id"; "enrollment_date"; "age"; "adverse_event";
                      "completed_trial"]
                     [[Some "P001"; Some "2024-01-10"; Some "20"; Some "1"; Some "1"]] in
  fst (load file (init "trial.csv")) = false /\
  errors (snd (load file (init "trial.csv"))) = ["Missing columns: ['trial_site']"] /\
  working_set (snd (load file (init "trial.csv"))) = [].
Proof. repeat split. Qed.

(** * Further properties of the engine *)

(** ** The outcomes of the load *)

Lemma filter_not_nil_existsb {A : Type} (f : A -> bool) (l : list A) :
  filter f l <> [] <-> existsb f l = true.
Proof.
  induction l as [|x l IH]; simpl.
  - split; [congruence | discriminate].
  - destruct (f x); simpl; [split; [reflexivity | discriminate] | exact IH].
Qed.

Lemma in_missing_columns (cols : list string) (c : string) :
  In c (missing_columns cols) <-> In c required_cols /\ ~ In c cols.
Proof.
  unfold missing_columns. rewrite filter_In, negb_true_iff.
  assert (H : Py.isin c cols = false <-> ~ In c cols).
  { unfold Py.isin. rewrite <- not_true_iff_false, existsb_exists.
    split; intros H.
    - intros Hin. apply H. exists c. split; [exact Hin | apply String.eqb_refl].
    - intros (x & Hin & E). apply String.eqb_eq in E. subst. auto. }
  rewrite H. reflexivity.
Qed.

Section LoadOutcomes.

Variable to_datetime : string -> option date.
Variable to_numeric : string -> number.

Let load_data := load_and_validate_data to_datetime to_numeric.
Let candidates := convert to_datetime to_numeric.

(** X1.  The load succeeds exactly when the file is read, every required
    column is in its header and at least one converted row passes the
    validation. *)
Theorem load_succeeds_iff (file : read_result) (self : TrialDataAnalyzer) :
  fst (load_data file self) = true <->
  exists cols data,
    file = ReadOk cols data /\
    (forall c, In c required_cols -> In c cols) /\
    existsb (fun r => negb (invalid_mask r)) (candidates cols data) = true.
Proof.
  assert (Hschema : forall cols,
             missing_columns cols = [] <->
             (forall c, In c required_cols -> In c cols)).
  { intros cols. split.
    - intros E c Hc.
      destruct (in_dec string_dec c cols) as [Hin | Hout]; [exact Hin|].
      assert (Hm : In c (missing_columns cols))
        by (apply in_missing_columns; auto).
      rewrite E in Hm. destruct Hm.
    - intros H. destruct (missing_columns cols) as [|c rest] eqn:E;
        [reflexivity|].
      assert (Hm : In c (missing_columns cols)) by (rewrite E; left; reflexivity).
      apply in_missing_columns in Hm. destruct Hm as [Hreq Hout].
      elim Hout. auto. }
  unfold load_data, candidates. split.
  - destruct file as [msg | cols data]; [discriminate|].
    intros Hok. exists cols, data. split; [reflexivity|].
    destruct (missing_columns cols) as [|c rest] eqn:E.
    + split; [apply Hschema, E|].
      rewrite (load_result to_datetime to_numeric cols data self E) in Hok.
      rewrite (load_working_set to_datetime to_numeric cols data self E) in Hok.
      apply negb_true_iff, Nat.eqb_neq in Hok.
      apply filter_not_nil_existsb. intros Hnil.
      apply Hok. rewrite Hnil. reflexivity.
    + unfold load_and_validate_data in Hok. rewrite E in Hok.
      discriminate Hok.
  - intros (cols & data & -> & Hcols & Hex).
    apply Hschema in Hcols.
    rewrite (load_result to_datetime to_numeric cols data self Hcols).
    rewrite (load_working_set to_datetime to_numeric cols data self Hcols).
    apply negb_true_iff, Nat.eqb_neq. intros Hlen.
    apply length_zero_iff_nil in Hlen.
    apply filter_not_nil_existsb in Hex. auto.
Qed.

(** X2.  The load never drops an error already recorded: it appends at most
    two messages, at least one whenever it fails, and on success at most the
    count of the excluded records. *)
Theorem load_error_log (file : read_result) (self : TrialDataAnalyzer) :
  exists new,
    errors (snd (load_data file self)) = (errors self ++ new)%list /\
    (List.length new <= 2)%nat /\
    (fst (load_data file self) = false -> new <> []) /\
    (fst (load_data file self) = true ->
     new = [] \/
     exists n, (0 < n)%nat /\
       new = [("Total: " ++ Py.str_nat n
               ++ " invalid record(s) excluded from analysis")%string]).
Proof.
  unfold load_data.
  destruct file as [msg | cols data].
  - exists ["Error loading CSV: " ++ msg]. simpl.
    repeat split; [lia | discriminate | discriminate].
  - destruct (missing_columns cols) as [|c rest] eqn:E.
    + pose proof (load_errors to_datetime to_numeric cols data self E) as Herr.
      set (n := List.length (filter invalid_mask
                               (convert to_datetime to_numeric cols data))) in *.
      destruct (fst (load_and_validate_data to_datetime to_numeric
                       (ReadOk cols data) self)) eqn:Hres;
        destruct (0 <? n)%nat eqn:Hn; rewrite Herr;
        eexists; (split; [reflexivity|]); simpl;
        repeat split; try lia; try discriminate.
      * intros _. right. exists n. apply Nat.ltb_lt in Hn. auto.
      * intros _. left. reflexivity.
    + exists ["Missing columns: " ++ Py.repr_str_list (c :: rest)].
      unfold load_and_validate_data. rewrite E. simpl.
      repeat split; [lia | discriminate | discriminate].
Qed.

(** X3.  When required columns are missing from the header, the load fails
    with the single message that lists them, keeps the frame as read and the
    invalid records as they were, and leaves no working set.  The columns
    listed are the required ones that the header does not have. *)
Theorem schema_error_reported
        (cols : list string) (data : list (list cell)) (self : TrialDataAnalyzer) :
  missing_columns cols <> [] ->
  let self' := snd (load_data (ReadOk cols data) self) in
  fst (load_data (ReadOk cols data) self) = false /\
  errors self'
  = (errors self
     ++ [("Missing columns: " ++ Py.repr_str_list (missing_columns cols))%string])%list /\
  df self' = Some (RawFrame cols data) /\
  invalid_records self' = invalid_records self /\
  working_set self' = [] /\
  (forall c, In c (missing_columns cols) <-> In c required_cols /\ ~ In c cols).
Proof.
  intros Hmiss. cbv zeta.
  split; [|split; [|split; [|split; [|split]]]];
    try (unfold load_data, load_and_validate_data, working_set;
         destruct (missing_columns cols) as [|c rest] eqn:E;
         [congruence | reflexivity]).
  intros c. apply in_missing_columns.
Qed.

End LoadOutcomes.

(** ** Rounding keeps integer bounds *)

Lemma rint_floor (q : Q) : rint q = Qfloor q \/ rint q = Qfloor q + 1.
Proof.
  unfold rint. destruct (_ ?= _)%Q; auto.
  destruct (Z.even _); auto.
Qed.

Lemma rint_lower (q : Q) (z : Z) : (inject_Z z <= q)%Q -> z <= rint q.
Proof.
  intros H. apply Qfloor_resp_le in H. rewrite Qfloor_Z in H.
  destruct (rint_floor q) as [E | E]; rewrite E; lia.
Qed.

Lemma rint_upper (q : Q) (z : Z) : (q <= inject_Z z)%Q -> rint q <= z.
Proof.
  intros H.
  pose proof (Qfloor_le q) as Hf.
  assert (Hfz : Qfloor q <= z).
  { apply Qfloor_resp_le in H. rewrite Qfloor_Z in H. exact H. }
  destruct (Z.eq_dec (Qfloor q) z) as [E | N].
  - unfold rint.
    destruct (Qcompare_spec (q - inject_Z (Qfloor q)) (1 # 2)) as [C | C | C];
      [| lia |]; exfalso; rewrite E in C; lra.
  - destruct (rint_floor q) as [E | E]; rewrite E; lia.
Qed.

Lemma inject_Z_pow10_pos (d : nat) : (0 < inject_Z (pow10 d))%Q.
Proof.
  change 0%Q with (inject_Z 0). rewrite <- Zlt_Qlt. apply pow10_pos.
Qed.

Lemma round_bounds (q : Q) (d : nat) (a b : Z) :
  (inject_Z a <= q)%Q -> (q <= inject_Z b)%Q ->
  (inject_Z a <= round q d)%Q /\ (round q d <= inject_Z b)%Q.
Proof.
  intros Ha Hb. unfold round. rewrite Qred_correct.
  pose proof (inject_Z_pow10_pos d) as Hp.
  split.
  - apply Qle_shift_div_l; [exact Hp|].
    rewrite <- inject_Z_mult, <- Zle_Qle. apply rint_lower.
    rewrite inject_Z_mult. apply Qmult_le_compat_r; [exact Ha | lra].
  - apply Qle_shift_div_r; [exact Hp|].
    rewrite <- inject_Z_mult, <- Zle_Qle. apply rint_upper.
    rewrite inject_Z_mult. apply Qmult_le_compat_r; [exact Hb | lra].
Qed.

Lemma count_true_bounds (col : list bool) :
  0 <= count_true col <= Z.of_nat (List.length col).
Proof.
  unfold count_true. split; [lia|].
  apply inj_le. induction col as [|b col IH]; simpl; [lia|].
  destruct b; simpl; lia.
Qed.

Lemma rate_percent_bounds (col : list bool) :
  col <> [] ->
  (0 <= rate_percent col (List.length col))%Q /\
  (rate_percent col (List.length col) <= 100)%Q.
Proof.
  intros Hne. unfold rate_percent.
  pose proof (count_true_bounds col) as [Hc0 Hcn].
  assert (Hn : 0 < Z.of_nat (List.length col))
    by (destruct col; [congruence | simpl; lia]).
  set (c := count_true col) in *. set (n := Z.of_nat (List.length col)) in *.
  assert (Hn' : (0 < inject_Z n)%Q)
    by (change 0%Q with (inject_Z 0); rewrite <- Zlt_Qlt; exact Hn).
  assert (Hc0' : (0 <= inject_Z c)%Q)
    by (change 0%Q with (inject_Z 0); rewrite <- Zle_Qle; exact Hc0).
  assert (Hcn' : (inject_Z c <= inject_Z n)%Q) by (rewrite <- Zle_Qle; exact Hcn).
  assert (H0 : (0 <= inject_Z c / inject_Z n)%Q)
    by (apply Qle_shift_div_l; [exact Hn' | lra]).
  assert (H1 : (inject_Z c / inject_Z n <= 1)%Q)
    by (apply Qle_shift_div_r; [exact Hn' | lra]).
  apply (round_bounds _ 2 0 100).
  - change (inject_Z 0) with 0%Q. lra.
  - change (inject_Z 100) with 100%Q. lra.
Qed.

Lemma stratum_percentage (stratum : list Row) :
  is_percentage
    (if (0 <? List.length stratum)%nat
     then VFloat (rate_percent (map completed_trial stratum) (List.length stratum))
     else VInt 0).
Proof.
  destruct stratum as [|r rest] eqn:E; [reflexivity|].
  rewrite <- E.
  replace (0 <? List.length stratum)%nat with true by (subst; reflexivity).
  simpl. rewrite <- (length_map completed_trial).
  apply rate_percent_bounds. subst. discriminate.
Qed.

(** X4.  On a frame with rows, the completion rate and the adverse-event
    rate of the statistics are floats from 0 to 100, and each of the two
    stratified completion rates is the integer 0 or a float from 0 to
    100. *)
Theorem rates_are_percentages
        (self : TrialDataAnalyzer) (rows : list Row)
        (groups : option (list (option string))) :
  df self = Some (Frame rows groups) -> rows <> [] ->
  exists stats,
    fst (calculate_statistics self) = Some stats /\
    (exists c, get stats (KStr "completion_rate_percent") = Some (VFloat c)
               /\ is_percentage (VFloat c)) /\
    (exists a, get stats (KStr "adverse_event_rate_percent") = Some (VFloat a)
               /\ is_percentage (VFloat a)) /\
    (exists v, get stats (KStr "completion_rate_with_adverse_percent") = Some v
               /\ is_percentage v) /\
    (exists v, get stats (KStr "completion_rate_without_adverse_percent") = Some v
               /\ is_percentage v).
Proof.
  intros Hdf Hrows.
  unfold calculate_statistics. rewrite Hdf.
  destruct rows as [|r rest] eqn:E; [congruence|].
  rewrite <- E in *.
  replace (len (Frame rows groups) =? 0)%nat with false by (subst; reflexivity).
  assert (Hcol : forall f : Row -> bool, map f rows <> [])
    by (intros f; subst; discriminate).
  eexists. split; [reflexivity|].
  split; [|split; [|split]].
  - eexists. split; [reflexivity|]. simpl.
    rewrite <- (length_map completed_trial). apply rate_percent_bounds, Hcol.
  - eexists. split; [reflexivity|]. simpl.
    rewrite <- (length_map adverse_event). apply rate_percent_bounds, Hcol.
  - eexists. split; [reflexivity|]. apply stratum_percentage.
  - eexists. split; [reflexivity|]. apply stratum_percentage.
Qed.

(** ** Means and counts *)

Lemma valid_row_fields (r : Row) :
  invalid_mask r = false ->
  (exists q, number_Q (age r) = Some q /\ (0 <= q)%Q /\ (q <= 150)%Q) /\
  isna (trial_site r) = false /\ isna (patient_id r) = false /\
  isna (enrollment_date r) = false.
Proof.
  unfold invalid_mask. intros H.
  repeat (apply orb_false_elim in H; destruct H as [H ?]).
  repeat split; try assumption.
  destruct (number_Q_isna (age r)) as [q Hq]; [assumption|].
  exists q. split; [exact Hq|]. split; apply Qnot_lt_le; intros Hlt.
  - apply (number_ltb_Q _ _ 0 Hq) in Hlt. congruence.
  - apply (number_gtb_Q _ _ 150 Hq) in Hlt. congruence.
Qed.

Lemma Qsum_bounds (l : list Q) (a b : Q) :
  Forall (fun q => a <= q /\ q <= b)%Q l ->
  (inject_Z (Z.of_nat (List.length l)) * a <= Qsum l)%Q /\
  (Qsum l <= inject_Z (Z.of_nat (List.length l)) * b)%Q.
Proof.
  induction 1 as [|q rest [Ha Hb] _ [IHa IHb]].
  - simpl. change (inject_Z 0) with 0%Q. lra.
  - change (List.length (q :: rest)) with (S (List.length rest)).
    rewrite Nat2Z.inj_succ. unfold Z.succ. rewrite inject_Z_plus.
    change (inject_Z 1) with 1%Q.
    change (Qsum (q :: rest)) with (q + Qsum rest)%Q. lra.
Qed.

Lemma mean_bounds (l : list Q) (a b : Q) :
  l <> [] -> Forall (fun q => a <= q /\ q <= b)%Q l ->
  exists m, mean l = Some m /\ (a <= m)%Q /\ (m <= b)%Q.
Proof.
  intros Hne Hall. destruct (Qsum_bounds l a b Hall) as [Ha Hb].
  destruct l as [|q rest]; [congruence|].
  remember (q :: rest) as l' eqn:E.
  assert (Hn : (0 < inject_Z (Z.of_nat (List.length l')))%Q).
  { change 0%Q with (inject_Z 0). rewrite <- Zlt_Qlt. subst.
    change (List.length (q :: rest)) with (S (List.length rest)). lia. }
  exists (Qsum l' / inject_Z (Z.of_nat (List.length l')))%Q.
  split; [subst; reflexivity|]. split.
  - apply Qle_shift_div_l; [exact Hn | lra].
  - apply Qle_shift_div_r; [exact Hn | lra].
Qed.

Lemma dropna_valid (rows : list Row) :
  Forall (fun r => invalid_mask r = false) rows ->
  List.length (dropna (map age rows)) = List.length rows /\
  Forall (fun q => 0 <= q /\ q <= 150)%Q (dropna (map age rows)).
Proof.
  induction 1 as [|r rows Hr _ [IHl IHf]]; [split; [reflexivity | constructor]|].
  destruct (valid_row_fields r Hr) as ((q & Hq & H0 & H150) & _).
  unfold dropna in *. simpl. rewrite Hq. simpl. split.
  - f_equal. exact IHl.
  - constructor; [split; assumption | exact IHf].
Qed.

(** The counts of the distinct texts of a list add up to its length. *)
Lemma distinct_spec (l : list string) :
  NoDup (distinct l) /\ forall x, In x (distinct l) <-> In x l.
Proof.
  induction l as [|a l [IHn IHi]]; simpl.
  - split; [constructor | tauto].
  - split.
    + constructor.
      * rewrite filter_In, negb_true_iff, String.eqb_refl.
        intros [_ H]. discriminate.
      * apply NoDup_filter, IHn.
    + intros x. rewrite filter_In, IHi, negb_true_iff, String.eqb_neq.
      destruct (string_dec a x); intuition congruence.
Qed.

Lemma occurrences_sum (keys l : list string) :
  NoDup keys ->
  fold_right (fun k acc => occurrences k l + acc)%nat O keys
  = List.length (filter (fun x => existsb (String.eqb x) keys) l).
Proof.
  intros Hnd. induction l as [|a l IH].
  - unfold occurrences. simpl. clear Hnd. induction keys; simpl; auto.
  - assert (Hstep : forall ks, NoDup ks ->
              fold_right (fun k acc => occurrences k (a :: l) + acc)%nat O ks
              = ((if existsb (String.eqb a) ks then 1 else 0)
                 + fold_right (fun k acc => occurrences k l + acc)%nat O ks)%nat).
    { induction 1 as [|k ks Hk _ IHks]; [reflexivity|].
      simpl. rewrite IHks. unfold occurrences at 1. simpl.
      rewrite (String.eqb_sym a k).
      destruct (String.eqb k a) eqn:Eka; simpl.
      - apply String.eqb_eq in Eka. subst k.
        replace (existsb (String.eqb a) ks) with false.
        + unfold occurrences. lia.
        + symmetry. apply not_true_iff_false. rewrite existsb_exists.
          intros (x & Hx & Ex). apply String.eqb_eq in Ex. subst. auto.
      - unfold occurrences. lia. }
    rewrite (Hstep keys Hnd), IH. simpl.
    destruct (existsb (String.eqb a) keys); simpl; lia.
Qed.

Lemma occurrences_distinct (l : list string) :
  fold_right (fun k acc => occurrences k l + acc)%nat O (distinct l)
  = List.length l.
Proof.
  destruct (distinct_spec l) as [Hnd Hin].
  rewrite (occurrences_sum _ l Hnd). f_equal.
  apply filter_all. apply forallb_forall. intros x Hx.
  apply existsb_exists. exists x. split; [apply Hin, Hx | apply String.eqb_refl].
Qed.

Lemma has_site_occurrences (rows : list Row) (site : string) :
  List.length (filter (has_site site) rows)
  = occurrences site (present (map trial_site rows)).
Proof.
  unfold occurrences, present. induction rows as [|r rows IH]; [reflexivity|].
  simpl. unfold has_site at 1.
  destruct (trial_site r) as [s|]; simpl; [|exact IH].
  rewrite (String.eqb_sym site s).
  destruct (String.eqb s site); simpl; rewrite IH; reflexivity.
Qed.

Lemma present_all (rows : list Row) :
  Forall (fun r => invalid_mask r = false) rows ->
  List.length (present (map trial_site rows)) = List.length rows.
Proof.
  induction 1 as [|r rows Hr _ IH]; [reflexivity|].
  destruct (valid_row_fields r Hr) as (_ & Hs & _).
  unfold present in *. simpl.
  destruct (trial_site r); [simpl; f_equal; exact IH | discriminate].
Qed.

Lemma insert_by_count_perm (x : string * nat) (l : list (string * nat)) :
  Permutation (insert_by_count x l) (x :: l).
Proof.
  induction l as [|y l IH]; simpl; [apply Permutation_refl|].
  destruct (snd y <=? snd x)%nat; [apply Permutation_refl|].
  apply (Permutation_trans (perm_skip y IH)), perm_swap.
Qed.

Lemma sort_by_count_perm (l : list (string * nat)) :
  Permutation (fold_right insert_by_count [] l) l.
Proof.
  induction l as [|x l IH]; simpl; [apply perm_nil|].
  apply (Permutation_trans (insert_by_count_perm x _)), perm_skip, IH.
Qed.

Lemma value_counts_perm (rows : list Row) :
  Permutation (value_counts rows) (map site_entry (site_table rows)).
Proof. apply Permutation_map, sort_by_count_perm. Qed.

Lemma sum_values_perm (d d' : dict) :
  Permutation d d' -> sum_values d = sum_values d'.
Proof.
  induction 1 as [| [k v] l l' _ IH | [k v] [k' v'] l | l1 l2 l3 _ IH1 _ IH2];
    simpl; [reflexivity | | | congruence].
  - destruct v; rewrite IH; reflexivity.
  - destruct v, v'; lia.
Qed.

Lemma value_counts_sum (rows : list Row) :
  sum_values (value_counts rows)
  = Z.of_nat (List.length (present (map trial_site rows))).
Proof.
  rewrite (sum_values_perm _ _ (value_counts_perm rows)).
  rewrite <- (occurrences_distinct (present (map trial_site rows))).
  unfold site_table, sum_values.
  induction (distinct (present (map trial_site rows))) as [|k ks IH];
    [reflexivity|].
  simpl. simpl in IH. rewrite IH, has_site_occurrences. lia.
Qed.

Lemma site_table_keys (rows : list Row) :
  NoDup (map fst (site_table rows)) /\
  forall site n, In (site, n) (site_table rows) <->
    In (Some site) (map trial_site rows) /\
    n = List.length (filter (has_site site) rows).
Proof.
  unfold site_table.
  destruct (distinct_spec (present (map trial_site rows))) as [Hnd Hin].
  split.
  - rewrite map_map. simpl. rewrite map_id. exact Hnd.
  - intros site n. rewrite in_map_iff.
    assert (Hp : In site (present (map trial_site rows))
                 <-> In (Some site) (map trial_site rows)).
    { unfold present. rewrite in_flat_map. split.
      - intros (c & Hc & Hs). destruct c as [s|]; [|destruct Hs].
        destruct Hs as [-> | []]. exact Hc.
      - intros H. exists (Some site). split; [exact H | left; reflexivity]. }
    split.
    + intros (s & E & Hs). inversion E; subst; clear E.
      split; [apply Hp, Hin, Hs | reflexivity].
    + intros [Hs ->]. exists site. split; [reflexivity | apply Hin, Hp, Hs].
Qed.

Lemma has_site_count_occ (rows : list Row) (site : string) :
  List.length (filter (has_site site) rows)
  = count_occ cell_eq_dec (map trial_site rows) (Some site).
Proof.
  induction rows as [|r rows IH]; [reflexivity|].
  simpl. unfold has_site at 1.
  destruct (cell_eq_dec (trial_site r) (Some site)) as [E | N].
  - rewrite E, String.eqb_refl. simpl. rewrite IH. reflexivity.
  - destruct (trial_site r) as [s|]; [|exact IH].
    destruct (String.eqb_spec s site) as [-> | _]; [congruence | exact IH].
Qed.

Lemma key_eqb_eq (a b : key) : key_eqb a b = true <-> a = b.
Proof.
  destruct a, b; simpl; try (split; [discriminate | congruence]).
  - rewrite String.eqb_eq. split; congruence.
  - rewrite andb_true_iff, !String.eqb_eq. split; [intros [-> ->]; reflexivity|].
    intros E. inversion E. auto.
Qed.

Lemma get_in (d : dict) (k : key) (v : value) :
  NoDup (map fst d) -> In (k, v) d -> get d k = Some v.
Proof.
  induction d as [|[k' v'] d IH]; simpl; [tauto|].
  intros Hnd H. inversion Hnd as [|? ? Hk Hnd']; subst.
  destruct H as [E | H].
  - inversion E; subst. replace (key_eqb k k) with true; [reflexivity|].
    symmetry. apply key_eqb_eq. reflexivity.
  - destruct (key_eqb k' k) eqn:E; [|apply IH; assumption].
    apply key_eqb_eq in E. subst k'. exfalso. apply Hk.
    apply (in_map fst) in H. exact H.
Qed.

Lemma get_not_in (d : dict) (k : key) :
  ~ In k (map fst d) -> get d k = None.
Proof.
  induction d as [|[k' v'] d IH]; simpl; [reflexivity|].
  intros H. destruct (key_eqb k' k) eqn:E.
  - apply key_eqb_eq in E. tauto.
  - apply IH. tauto.
Qed.

Lemma value_counts_nodup (rows : list Row) :
  NoDup (map fst (value_counts rows)).
Proof.
  apply (Permutation_NoDup
           (Permutation_sym (Permutation_map fst (value_counts_perm rows)))).
  rewrite map_map.
  destruct (site_table_keys rows) as [Hnd _].
  induction (site_table rows) as [|[s n] l IH]; simpl; [constructor|].
  inversion Hnd as [|? ? Hs Hnd']; subst.
  constructor; [|apply IH, Hnd'].
  rewrite in_map_iff. intros ([s' n'] & E & H). simpl in E.
  inversion E; subst. apply Hs. apply (in_map fst) in H. exact H.
Qed.

Lemma value_counts_in (rows : list Row) (k : key) (v : value) :
  In (k, v) (value_counts rows) <->
  exists site, k = KStr site /\
    v = VInt (Z.of_nat (List.length (filter (has_site site) rows))) /\
    In (Some site) (map trial_site rows).
Proof.
  destruct (site_table_keys rows) as [_ Hin].
  split.
  - intros H.
    apply (Permutation_in _ (value_counts_perm rows)) in H.
    apply in_map_iff in H. destruct H as ([site n] & E & H).
    apply Hin in H. destruct H as [Hs ->].
    unfold site_entry in E. simpl in E. inversion E; subst.
    exists site. auto.
  - intros (site & -> & -> & Hs).
    apply (Permutation_in _ (Permutation_sym (value_counts_perm rows))).
    apply in_map_iff.
    exists (site, List.length (filter (has_site site) rows)).
    split; [reflexivity|]. apply Hin. auto.
Qed.

Lemma value_counts_keys (rows : list Row) :
  NoDup (map fst (value_counts rows)) /\
  forall k v, In (k, v) (value_counts rows) ->
    exists site c, k = KStr site /\ v = VInt c /\ 1 <= c /\
                   In (Some site) (map trial_site rows).
Proof.
  split; [apply value_counts_nodup|].
  intros k v H. apply value_counts_in in H.
  destruct H as (site & -> & -> & Hc).
  exists site, (Z.of_nat (List.length (filter (has_site site) rows))).
  repeat split; [|exact Hc].
  apply in_map_iff in Hc. destruct Hc as (r & Er & Hr).
  assert (Hf : In r (filter (has_site site) rows)).
  { apply filter_In. split; [exact Hr|].
    unfold has_site. rewrite Er. apply String.eqb_refl. }
  destruct (filter (has_site site) rows); [destruct Hf | simpl; lia].
Qed.

Lemma value_counts_get (rows : list Row) (site : string) :
  (In (Some site) (map trial_site rows) ->
   get (value_counts rows) (KStr site)
   = Some (VInt (Z.of_nat (count_occ cell_eq_dec (map trial_site rows)
                                     (Some site))))) /\
  (~ In (Some site) (map trial_site rows) ->
   get (value_counts rows) (KStr site) = None).
Proof.
  split.
  - intros H. apply get_in; [apply value_counts_nodup|].
    apply value_counts_in. exists site.
    rewrite has_site_count_occ. auto.
  - intros H. apply get_not_in. intros Hk.
    apply in_map_iff in Hk. destruct Hk as ([k v] & E & Hkv).
    simpl in E. subst k. apply value_counts_in in Hkv.
    destruct Hkv as (s & E & _ & Hs). inversion E; subst. exact (H Hs).
Qed.

Lemma insert_by_count_sorted (x : string * nat) (l : list (string * nat)) :
  Sorted (fun a b => (snd b <= snd a)%nat) l ->
  Sorted (fun a b => (snd b <= snd a)%nat) (insert_by_count x l).
Proof.
  induction l as [|y l IH]; simpl; intros Hs.
  - constructor; constructor.
  - destruct (Nat.leb_spec (snd y) (snd x)) as [Hle | Hgt].
    + constructor; [exact Hs | constructor; exact Hle].
    + inversion Hs as [|? ? Hs' Hhd]; subst.
      constructor; [apply IH, Hs'|].
      destruct l as [|z l]; simpl.
      * constructor. lia.
      * destruct (snd z <=? snd x)%nat; constructor; [lia|].
        inversion Hhd; subst. assumption.
Qed.

Lemma value_counts_sorted (rows : list Row) :
  Sorted (fun a b => count_of b <= count_of a) (value_counts rows).
Proof.
  unfold value_counts.
  assert (H : Sorted (fun a b => (snd b <= snd a)%nat)
                     (fold_right insert_by_count [] (site_table rows))).
  { induction (site_table rows) as [|x l IH]; simpl;
      [constructor | apply insert_by_count_sorted, IH]. }
  induction H as [|x l _ IH Hhd]; simpl; constructor; [exact IH|].
  destruct Hhd as [|y l Hle]; simpl; constructor.
  unfold count_of, site_entry. simpl. lia.
Qed.

Section StatisticsAfterLoad.

Variable to_datetime : string -> option date.
Variable to_numeric : string -> number.
Variables (cols : list string) (data : list (list cell)).
Variable self : TrialDataAnalyzer.
Hypothesis schema : missing_columns cols = [].
Hypothesis loaded_ok :
  fst (load_and_validate_data to_datetime to_numeric (ReadOk cols data) self)
  = true.

Let self' :=
  snd (load_and_validate_data to_datetime to_numeric (ReadOk cols data) self).

Lemma loaded_frame :
  exists rows,
    df self' = Some (Frame rows None) /\ rows <> [] /\
    Forall (fun r => invalid_mask r = false) rows /\
    (List.length rows + List.length (invalid_records self')
     = List.length data)%nat.
Proof.
  unfold self'.
  pose proof (load_working_set to_datetime to_numeric cols data self schema) as Hws.
  pose proof (load_invalid_records to_datetime to_numeric cols data self schema)
    as Hinv.
  pose proof (load_result to_datetime to_numeric cols data self schema) as Hres.
  rewrite loaded_ok in Hres.
  set (rows := filter (fun r => negb (invalid_mask r))
                      (convert to_datetime to_numeric cols data)) in *.
  exists rows.
  assert (Hdf : df (snd (load_and_validate_data to_datetime to_numeric
                           (ReadOk cols data) self)) = Some (Frame rows None)).
  { unfold load_and_validate_data. rewrite schema. fold rows.
    destruct (List.length rows =? 0)%nat; reflexivity. }
  split; [exact Hdf|]. split; [|split].
  - intros E. rewrite Hws, E in Hres. discriminate Hres.
  - apply Forall_forall. intros r Hr. apply filter_In in Hr.
    apply negb_true_iff, Hr.
  - rewrite Hinv, length_map. unfold rows.
    rewrite filter_split_length.
    apply (convert_length to_datetime to_numeric).
Qed.

(** X5.  After a successful load the statistics are returned, the total of
    patients is the number of valid records and is at least 1, and the valid
    and the invalid records of the data quality add up to the rows of the
    file. *)
Theorem statistics_count_every_row :
  exists stats quality n k,
    fst (calculate_statistics self') = Some stats /\
    get stats (KStr "total_patients") = Some (VInt n) /\
    get stats (KStr "data_quality") = Some (VDict quality) /\
    get quality (KStr "valid_records") = Some (VInt n) /\
    get quality (KStr "invalid_records") = Some (VInt k) /\
    1 <= n /\ 0 <= k /\
    n + k = Z.of_nat (List.length data).
Proof.
  destruct loaded_frame as (rows & Hdf & Hne & _ & Hlen).
  unfold calculate_statistics. rewrite Hdf.
  destruct rows as [|r rest] eqn:E; [congruence|]. rewrite <- E in *.
  replace (len (Frame rows None) =? 0)%nat with false by (subst; reflexivity).
  do 4 eexists. split; [reflexivity|].
  repeat (split; [reflexivity|]).
  split; [subst; simpl; lia|]. split; lia.
Qed.

(** X6.  After a successful load the average age of the statistics is a
    float from 0 to 150. *)
Theorem average_age_in_range :
  exists stats a,
    fst (calculate_statistics self') = Some stats /\
    get stats (KStr "average_age") = Some (VFloat a) /\
    (0 <= a)%Q /\ (a <= 150)%Q.
Proof.
  destruct loaded_frame as (rows & Hdf & Hne & Hvalid & _).
  destruct (dropna_valid rows Hvalid) as [Hlen Hall].
  destruct (mean_bounds (dropna (map age rows)) 0 150) as (m & Hm & H0 & H150).
  { intros E. rewrite E in Hlen. destruct rows; [congruence | discriminate]. }
  { exact Hall. }
  unfold calculate_statistics. rewrite Hdf.
  destruct rows as [|r rest] eqn:E; [congruence|]. rewrite <- E in *.
  replace (len (Frame rows None) =? 0)%nat with false by (subst; reflexivity).
  cbv zeta. rewrite Hm.
  eexists. exists (round m 2). split; [reflexivity|].
  split; [reflexivity|].
  apply (round_bounds m 2 0 150); assumption.
Qed.

(** X7.  After a successful load the total of patients is the number of
    rows of the working set, and the patients per site hold exactly the
    sites of the working set, each once, with the number of rows of that
    site, which is at least 1; a text that is no site of the working set is
    no key.  The counts add up to the total of patients and are listed from
    the largest to the smallest. *)
Theorem patients_per_site_add_up :
  exists stats sites n,
    fst (calculate_statistics self') = Some stats /\
    get stats (KStr "total_patients") = Some (VInt n) /\
    get stats (KStr "patients_per_site") = Some (VDict sites) /\
    sum_values sites = n /\
    NoDup (map fst sites) /\
    (forall k v, In (k, v) sites ->
       exists site c, k = KStr site /\ v = VInt c /\ 1 <= c) /\
    n = Z.of_nat (List.length (working_set self')) /\
    (forall site,
       In (Some site) (map trial_site (working_set self')) ->
       get sites (KStr site)
       = Some (VInt (Z.of_nat (count_occ cell_eq_dec
                                         (map trial_site (working_set self'))
                                         (Some site))))) /\
    (forall site,
       ~ In (Some site) (map trial_site (working_set self')) ->
       get sites (KStr site) = None) /\
    (forall k v, In (k, v) sites ->
       exists site, k = KStr site /\
                    In (Some site) (map trial_site (working_set self'))) /\
    Sorted (fun a b => count_of b <= count_of a) sites.
Proof.
  destruct loaded_frame as (rows & Hdf & Hne & Hvalid & _).
  unfold calculate_statistics, working_set. rewrite Hdf.
  destruct rows as [|r rest] eqn:E; [congruence|]. rewrite <- E in *.
  replace (len (Frame rows None) =? 0)%nat with false by (subst; reflexivity).
  do 3 eexists. split; [reflexivity|].
  split; [reflexivity|]. split; [reflexivity|].
  destruct (value_counts_keys rows) as [Hnd Hkeys].
  split; [|split; [exact Hnd|]].
  - rewrite value_counts_sum, (present_all rows Hvalid). reflexivity.
  - split.
    { intros k v Hin. destruct (Hkeys k v Hin) as (site & c & ? & ? & ? & _).
      eauto. }
    split; [reflexivity|].
    split; [intros site; apply (value_counts_get rows site)|].
    split; [intros site; apply (value_counts_get rows site)|].
    split; [|apply value_counts_sorted].
    intros k v Hin. destruct (Hkeys k v Hin) as (site & c & ? & _ & _ & ?).
    eauto.
Qed.

End StatisticsAfterLoad.

(** ** Counts of the age groups *)

Lemma age_group_of_range (x : number) :
  (age_group_of x = None /\ number_gtb x 0 && number_leb x 150 = false) \/
  (number_gtb x 0 && number_leb x 150 = true /\
   (age_group_of x = Some "18-35" \/ age_group_of x = Some "36-50" \/
    age_group_of x = Some "51-65" \/ age_group_of x = Some "65+")).
Proof.
  destruct (number_isna x) eqn:Hna.
  - destruct x; try discriminate. left. split; reflexivity.
  - destruct (number_scaled x Hna) as (v & p & Hp & Hgt & Hle & _).
    rewrite age_group_of_cases, !Hgt, !Hle.
    compare_all; simpl; auto 6; exfalso; lia.
Qed.

Lemma age_group_counts (rows : list Row) :
  let groups := combine rows (map (fun r => age_group_of (age r)) rows) in
  (List.length (in_group groups "18-35") + List.length (in_group groups "36-50")
   + List.length (in_group groups "51-65") + List.length (in_group groups "65+")
   = List.length (filter in_age_range rows))%nat.
Proof.
  cbv zeta. induction rows as [|r rows IH]; [reflexivity|].
  unfold in_group in *. simpl. unfold in_age_range at 1.
  destruct (age_group_of_range (age r)) as [[E R] | [R [E | [E | [E | E]]]]];
    rewrite E, R; simpl; lia.
Qed.

(** X8.  On a frame with rows, the age-group analysis counts the rows of
    the four labelled groups, and the four counts add up to the number of
    rows whose age is above 0 and at most 150: a row of another age, age 0
    included, is counted in no group. *)
Theorem age_group_counts_add_up
        (self : TrialDataAnalyzer) (rows : list Row)
        (groups : option (list (option string))) :
  df self = Some (Frame rows groups) -> rows <> [] ->
  exists report analysis counts,
    fst (get_advanced_analysis self) = Some report /\
    get report (KStr "age_group_analysis") = Some (VDict analysis) /\
    get analysis (KPair "completed_trial" "count") = Some (VDict counts) /\
    sum_values counts = Z.of_nat (List.length (filter in_age_range rows)).
Proof.
  intros Hdf Hrows.
  unfold get_advanced_analysis. rewrite Hdf.
  destruct rows as [|r rest] eqn:E; [congruence|]. rewrite <- E in *.
  replace (len (Frame rows groups) =? 0)%nat with false by (subst; reflexivity).
  do 3 eexists. split; [reflexivity|].
  split; [reflexivity|]. split; [reflexivity|].
  rewrite <- (age_group_counts rows). cbv zeta.
  unfold sum_values. simpl. lia.
Qed.

(** ** The correlation matrix *)

Lemma Qmult_comm_eq (x y : Q) : (x * y)%Q = (y * x)%Q.
Proof.
  destruct x as [a b], y as [c d]. unfold Qmult. simpl.
  rewrite Z.mul_comm, Pos.mul_comm. reflexivity.
Qed.

Lemma complete_pairs_swap (xs ys : list (option Q)) :
  complete_pairs ys xs = map (fun p => (snd p, fst p)) (complete_pairs xs ys).
Proof.
  revert ys. induction xs as [|x xs IH]; intros [|y ys];
    try reflexivity.
  - destruct y; reflexivity.
  - destruct x; reflexivity.
  - destruct x, y; simpl; rewrite IH; reflexivity.
Qed.

Lemma complete_pairs_self (xs : list (option Q)) :
  map snd (complete_pairs xs xs) = map fst (complete_pairs xs xs).
Proof.
  induction xs as [|[x|] xs IH]; simpl; congruence.
Qed.

Lemma codeviation_comm (a b : list Q) : codeviation b a = codeviation a b.
Proof.
  unfold codeviation.
  destruct (mean a) as [ma|], (mean b) as [mb|]; try reflexivity.
  revert b. induction a as [|x a IH]; intros [|y b]; try reflexivity.
  simpl. rewrite IH. f_equal. apply Qmult_comm_eq.
Qed.

Lemma pearson_sym (xs ys : list (option Q)) : pearson ys xs = pearson xs ys.
Proof.
  unfold pearson. rewrite (complete_pairs_swap xs ys), !map_map. simpl.
  fold (map (@snd Q Q) (complete_pairs xs ys)).
  fold (map (@fst Q Q) (complete_pairs xs ys)).
  set (a := map fst (complete_pairs xs ys)).
  set (b := map snd (complete_pairs xs ys)).
  rewrite (codeviation_comm a b), (Qmult_comm_eq (codeviation b b)).
  reflexivity.
Qed.

Lemma Qsquare_nonneg (y : Q) : (0 <= y * y)%Q.
Proof.
  destruct (Qlt_le_dec y 0) as [H | H].
  - assert (E : (y * y == (- y) * (- y))%Q) by ring.
    rewrite E. apply Qmult_le_0_compat; lra.
  - apply Qmult_le_0_compat; exact H.
Qed.

Lemma squares_nonneg (m : Q) (l : list Q) :
  (0 <= Qsum (map (fun p => (fst p - m) * (snd p - m)) (combine l l)))%Q.
Proof.
  induction l as [|x l IH]; simpl; [lra|].
  pose proof (Qsquare_nonneg (x - m)) as H. lra.
Qed.

Lemma codeviation_self_nonneg (a : list Q) : (0 <= codeviation a a)%Q.
Proof.
  unfold codeviation. destruct (mean a) as [m|]; [apply squares_nonneg | lra].
Qed.

Lemma round_sqrt_one (q : Q) : (q == 1)%Q -> round_sqrt 1 q 3 = 1%Q.
Proof.
  intros H. unfold round_sqrt.
  assert (Hx : (inject_Z (4 * pow10 3 * pow10 3) * q == inject_Z 4000000)%Q)
    by (rewrite H; reflexivity).
  rewrite (Qfloor_comp _ _ Hx), Qfloor_Z.
  replace (Z.sqrt 4000000) with 2000 by reflexivity.
  reflexivity.
Qed.

Lemma pearson_self (xs : list (option Q)) :
  pearson xs xs = Some 1%Q \/ pearson xs xs = None.
Proof.
  unfold pearson. rewrite complete_pairs_self.
  set (c := codeviation _ _).
  destruct (Qeq_bool (c * c) 0) eqn:E; [right; reflexivity | left].
  apply Qeq_bool_neq in E.
  pose proof (codeviation_self_nonneg (map fst (complete_pairs xs xs))) as Hc.
  fold c in Hc.
  assert (Hpos : (0 < c)%Q).
  { apply Qle_lteq in Hc. destruct Hc as [Hc | Hc]; [exact Hc|].
    elim E. rewrite <- Hc. reflexivity. }
  assert (Hsgn : Z.sgn (Qnum c) = 1).
  { apply Z.sgn_pos. destruct c as [n d]. unfold Qlt in Hpos. simpl in *. lia. }
  rewrite Hsgn. f_equal. apply round_sqrt_one.
  field. intros Hz. apply E. rewrite Hz. reflexivity.
Qed.

(** X9.  The correlation matrix is symmetric: the entry of two columns is
    the same in either order. *)
Theorem correlations_symmetric (rows : list Row) (a b : string) :
  correlation_of (correlations rows) a b = correlation_of (correlations rows) b a.
Proof.
  unfold correlation_of, correlations.
  set (age_col := map (fun r => number_Q (age r)) rows).
  set (adv := map (fun r => Some (Q_of_bool (adverse_event r))) rows).
  set (com := map (fun r => Some (Q_of_bool (completed_trial r))) rows).
  cbn [map fst snd get key_eqb].
  rewrite (pearson_sym age_col adv), (pearson_sym age_col com),
    (pearson_sym adv com).
  destruct (String.eqb "age" a) eqn:A1, (String.eqb "adverse_event" a) eqn:A2,
    (String.eqb "completed_trial" a) eqn:A3, (String.eqb "age" b) eqn:B1,
    (String.eqb "adverse_event" b) eqn:B2, (String.eqb "completed_trial" b) eqn:B3;
    cbn [get key_eqb]; rewrite ?A1, ?A2, ?A3, ?B1, ?B2, ?B3;
    try reflexivity;
    rewrite ?String.eqb_eq in *; congruence.
Qed.

Lemma complete_pairs_self_in (xs : list (option Q)) (x : Q) :
  In x (map fst (complete_pairs xs xs)) <-> In (Some x) xs.
Proof.
  induction xs as [|[y|] xs IH]; simpl; [tauto | |].
  - rewrite IH. split; intros [H | H]; auto; left; congruence.
  - rewrite IH. split; [auto | intros [H | H]; [discriminate | exact H]].
Qed.

Lemma sum_squares_zero (m : Q) (l : list Q) :
  (Qsum (map (fun p => (fst p - m) * (snd p - m)) (combine l l)) == 0)%Q
  <-> Forall (fun x => x == m)%Q l.
Proof.
  induction l as [|x l IH]; simpl.
  - split; [constructor | reflexivity].
  - pose proof (Qsquare_nonneg (x - m)) as Hx.
    pose proof (squares_nonneg m l) as Hl.
    split.
    + intros H.
      assert (H1 : ((x - m) * (x - m) == 0)%Q) by lra.
      assert (H2 : (Qsum (map (fun p => (fst p - m) * (snd p - m)) (combine l l))
                    == 0)%Q) by lra.
      constructor; [|apply IH, H2].
      apply Qmult_integral in H1. destruct H1; lra.
    + intros H. inversion H as [|? ? E Hall]; subst.
      apply IH in Hall. rewrite Hall, E. ring.
Qed.

Lemma Qsum_constant (c : Q) (l : list Q) :
  Forall (fun x => x == c)%Q l ->
  (Qsum l == inject_Z (Z.of_nat (List.length l)) * c)%Q.
Proof.
  induction 1 as [|x l E _ IH].
  - simpl. change (inject_Z 0) with 0%Q. ring.
  - change (List.length (x :: l)) with (S (List.length l)).
    rewrite Nat2Z.inj_succ. unfold Z.succ. rewrite inject_Z_plus.
    change (inject_Z 1) with 1%Q.
    change (Qsum (x :: l)) with (x + Qsum l)%Q. rewrite IH, E. ring.
Qed.

Lemma codeviation_self_zero (a : list Q) :
  (codeviation a a == 0)%Q <->
  (forall x y, In x a -> In y a -> (x == y)%Q).
Proof.
  unfold codeviation. destruct a as [|x0 rest] eqn:E.
  - simpl. split; [intros _ x y [] | reflexivity].
  - rewrite <- E.
    assert (Hmean : mean a
                    = Some (Qsum a / inject_Z (Z.of_nat (List.length a)))%Q)
      by (subst; reflexivity).
    rewrite Hmean. set (m := (Qsum a / inject_Z (Z.of_nat (List.length a)))%Q).
    rewrite sum_squares_zero, Forall_forall.
    split.
    + intros H x y Hx Hy. rewrite (H x Hx), (H y Hy). reflexivity.
    + intros H.
      assert (Hall : Forall (fun x => x == x0)%Q a).
      { apply Forall_forall. intros x Hx. apply H; [exact Hx|].
        subst. left. reflexivity. }
      assert (Hn : (0 < inject_Z (Z.of_nat (List.length a)))%Q).
      { change 0%Q with (inject_Z 0). rewrite <- Zlt_Qlt. subst.
        change (List.length (x0 :: rest)) with (S (List.length rest)). lia. }
      assert (Em : (m == x0)%Q).
      { unfold m. rewrite (Qsum_constant x0 a Hall). field. lra. }
      intros x Hx. rewrite Em. apply H; [exact Hx|].
      subst. left. reflexivity.
Qed.

(** The coefficient of a column with itself: 1 when the column varies, NaN
    when it does not. *)
Lemma pearson_self_varies (xs : list (option Q)) :
  (varies xs -> pearson xs xs = Some 1%Q) /\
  (~ varies xs -> pearson xs xs = None).
Proof.
  unfold pearson. rewrite complete_pairs_self.
  set (a := map fst (complete_pairs xs xs)).
  set (c := codeviation a a).
  pose proof (codeviation_self_nonneg a) as Hc. fold c in Hc.
  pose proof (codeviation_self_zero a) as Hzero. fold c in Hzero.
  split.
  - intros (x & y & Hx & Hy & Hxy).
    assert (Hne : ~ (c == 0)%Q).
    { intros H. apply Hxy.
      apply (proj1 Hzero H); apply complete_pairs_self_in; assumption. }
    assert (Hpos : (0 < c)%Q).
    { apply Qle_lteq in Hc. destruct Hc as [Hc | Hc]; [exact Hc|].
      elim Hne. rewrite <- Hc. reflexivity. }
    destruct (Qeq_bool (c * c) 0) eqn:E.
    + apply Qeq_bool_iff in E. apply Qmult_integral in E. tauto.
    + assert (Hsgn : Z.sgn (Qnum c) = 1).
      { apply Z.sgn_pos. destruct c as [n d]. unfold Qlt in Hpos.
        simpl in *. lia. }
      rewrite Hsgn. f_equal. apply round_sqrt_one.
      field. intros Hz. apply Hne. exact Hz.
  - intros Hconst.
    assert (Hz : (c == 0)%Q).
    { apply Hzero. intros x y Hx Hy.
      destruct (Qeq_dec x y) as [E | N]; [exact E|].
      exfalso. apply Hconst. exists x, y.
      repeat split; [apply complete_pairs_self_in, Hx
                    |apply complete_pairs_self_in, Hy | exact N]. }
    replace (Qeq_bool (c * c) 0) with true; [reflexivity|].
    symmetry. apply Qeq_bool_iff. rewrite Hz. reflexivity.
Qed.


(** ** The table of site grades *)

Lemma insert_sorted_perm (x : string) (l : list string) :
  Permutation (insert_sorted x l) (x :: l).
Proof.
  induction l as [|y l IH]; simpl; [reflexivity|].
  destruct (String.leb x y); [reflexivity|].
  rewrite IH. apply perm_swap.
Qed.

Lemma sort_perm (l : list string) : Permutation (sort l) l.
Proof.
  unfold sort. induction l as [|x l IH]; simpl; [reflexivity|].
  rewrite insert_sorted_perm, IH. reflexivity.
Qed.

Lemma insert_by_rate_perm (x : string * Z * Z * Q * string) l :
  Permutation (insert_by_rate x l) (x :: l).
Proof.
  induction l as [|y l IH]; simpl; [reflexivity|].
  destruct (Qle_bool _ _); [reflexivity|].
  rewrite IH. apply perm_swap.
Qed.

Lemma site_grades_perm (rows : list Row) :
  Permutation (site_grades rows)
    (map (site_grade rows) (distinct (present (map trial_site rows)))).
Proof.
  unfold site_grades.
  rewrite <- (Permutation_map (site_grade rows)
                (sort_perm (distinct (present (map trial_site rows))))).
  induction (map (site_grade rows) _) as [|x l IH]; simpl; [reflexivity|].
  rewrite insert_by_rate_perm, IH. reflexivity.
Qed.

Lemma insert_by_rate_sorted (x : string * Z * Z * Q * string) l :
  StronglySorted (fun a b => row_pct b <= row_pct a)%Q l ->
  StronglySorted (fun a b => row_pct b <= row_pct a)%Q (insert_by_rate x l).
Proof.
  induction 1 as [|y l Hs IH Hy]; simpl.
  - constructor; constructor.
  - fold (row_pct y). fold (row_pct x).
    destruct (Qle_bool (row_pct y) (row_pct x)) eqn:E.
    + apply Qle_bool_iff in E. constructor.
      * constructor; assumption.
      * constructor; [exact E|].
        eapply Forall_impl; [|exact Hy]. simpl. intros z Hz. lra.
    + apply Qle_bool_false in E. constructor; [exact IH|].
      eapply Permutation_Forall; [symmetry; apply insert_by_rate_perm|].
      constructor; [lra | exact Hy].
Qed.

Lemma sql_round_percent (q : Q) :
  (0 <= q)%Q -> (q <= 100)%Q ->
  (0 <= sql_round q 2)%Q /\ (sql_round q 2 <= 100)%Q.
Proof.
  intros H0 H100. unfold sql_round. rewrite Qred_correct.
  pose proof (inject_Z_pow10_pos 2) as Hp.
  rewrite (Qabs_pos q H0).
  assert (Hlo : 0 <= Qfloor (q * inject_Z (pow10 2) + (1 # 2))).
  { change 0 with (Qfloor 0). apply Qfloor_resp_le.
    change (inject_Z (pow10 2)) with 100%Q. lra. }
  assert (Hhi : Qfloor (q * inject_Z (pow10 2) + (1 # 2)) <= 10000).
  { change 10000 with (Qfloor (20001 # 2)). apply Qfloor_resp_le.
    change (inject_Z (pow10 2)) with 100%Q. lra. }
  assert (Hsgn : Z.sgn (Qnum q) = 0 \/ Z.sgn (Qnum q) = 1).
  { destruct q as [n d]. unfold Qle in H0. simpl in *. lia. }
  set (f := Qfloor _) in *.
  split.
  - apply Qle_shift_div_l; [exact Hp|].
    rewrite Qmult_0_l. change 0%Q with (inject_Z 0). rewrite <- Zle_Qle.
    destruct Hsgn as [E | E]; rewrite E; lia.
  - apply Qle_shift_div_r; [exact Hp|].
    change (100 * inject_Z (pow10 2))%Q with (inject_Z 10000).
    rewrite <- Zle_Qle. destruct Hsgn as [E | E]; rewrite E; lia.
Qed.

Lemma completion_pct_bounds (completed total : Z) :
  0 <= completed <= total -> 1 <= total ->
  (0 <= completion_pct completed total)%Q /\
  (completion_pct completed total <= 100)%Q.
Proof.
  intros [Hc0 Hct] Ht. unfold completion_pct.
  assert (Ht' : (0 < inject_Z total)%Q)
    by (change 0%Q with (inject_Z 0); rewrite <- Zlt_Qlt; lia).
  assert (Hc0' : (0 <= inject_Z completed)%Q)
    by (change 0%Q with (inject_Z 0); rewrite <- Zle_Qle; exact Hc0).
  assert (Hct' : (inject_Z completed <= inject_Z total)%Q)
    by (rewrite <- Zle_Qle; exact Hct).
  apply sql_round_percent.
  - apply Qle_shift_div_l; [exact Ht' | lra].
  - apply Qle_shift_div_r; [exact Ht' | lra].
Qed.

Lemma site_grade_row (rows : list Row) (site : string) :
  In (Some site) (map trial_site rows) ->
  let r := site_grade rows site in
  row_site r = site /\
  row_total r = Z.of_nat (List.length (filter (has_site site) rows)) /\
  1 <= row_total r /\
  0 <= row_completed r <= row_total r /\
  row_pct r = completion_pct (row_completed r) (row_total r) /\
  (0 <= row_pct r)%Q /\ (row_pct r <= 100)%Q /\
  row_grade r = grade (row_pct r).
Proof.
  intros Hin. cbv zeta.
  unfold site_grade, row_site, row_total, row_completed, row_pct, row_grade.
  cbn [fst snd].
  set (g := filter (has_site site) rows).
  assert (Hg : (1 <= List.length g)%nat).
  { apply in_map_iff in Hin. destruct Hin as (r & Er & Hr).
    assert (Hf : In r g).
    { apply filter_In. split; [exact Hr|].
      unfold has_site. rewrite Er. apply String.eqb_refl. }
    destruct g; [destruct Hf | simpl; lia]. }
  pose proof (count_true_bounds (map completed_trial g)) as Hc.
  rewrite length_map in Hc.
  fold (completion_pct (count_true (map completed_trial g))
                       (Z.of_nat (List.length g))).
  destruct (completion_pct_bounds (count_true (map completed_trial g))
              (Z.of_nat (List.length g))) as [Hlo Hhi]; [lia | lia |].
  repeat split; try lia; assumption.
Qed.

(** X11.  On a frame whose rows all have a site, as the rows of the working
    set have, the table of site grades has one row for every site of the
    frame and no other row, and lists the rows by decreasing completion
    rate. *)
Theorem site_grades_one_row_per_site (rows : list Row) :
  Forall (fun r => trial_site r <> None) rows ->
  (forall site,
     In site (map row_site (site_grades rows)) <->
     In (Some site) (map trial_site rows)) /\
  NoDup (map row_site (site_grades rows)) /\
  StronglySorted (fun a b => row_pct b <= row_pct a)%Q (site_grades rows).
Proof.
  intros _.
  destruct (distinct_spec (present (map trial_site rows))) as [Hnd Hin].
  assert (Hsites : Permutation (map row_site (site_grades rows))
                     (distinct (present (map trial_site rows)))).
  { rewrite (Permutation_map row_site (site_grades_perm rows)).
    rewrite map_map. unfold site_grade, row_site. simpl.
    rewrite map_id. reflexivity. }
  split; [|split].
  - intros site. split; intros H.
    + apply (Permutation_in _ Hsites) in H. apply (proj1 (Hin site)) in H.
      unfold present in H. apply in_flat_map in H.
      destruct H as ([s|] & Hc & Hs); [|destruct Hs].
      destruct Hs as [-> | []]. exact Hc.
    + apply (Permutation_in _ (Permutation_sym Hsites)).
      apply (proj2 (Hin site)).
      unfold present. apply in_flat_map.
      exists (Some site). split; [exact H | left; reflexivity].
  - apply (Permutation_NoDup (Permutation_sym Hsites)), Hnd.
  - unfold site_grades.
    induction (map (site_grade rows) _) as [|x l IH]; simpl.
    + constructor.
    + apply insert_by_rate_sorted, IH.
Qed.

(** X12.  On a frame whose rows all have a site, every row of the table of
    site grades counts the patients of its site, at least one, has between 0
    and that many completed, a completion rate from 0 to 100 and the grade
    of that rate. *)
Theorem site_grades_rows_consistent
        (rows : list Row) (r : string * Z * Z * Q * string) :
  Forall (fun r => trial_site r <> None) rows ->
  In r (site_grades rows) ->
  row_total r = Z.of_nat (List.length (filter (has_site (row_site r)) rows)) /\
  1 <= row_total r /\
  0 <= row_completed r <= row_total r /\
  row_pct r = completion_pct (row_completed r) (row_total r) /\
  (0 <= row_pct r)%Q /\ (row_pct r <= 100)%Q /\
  row_grade r = grade (row_pct r).
Proof.
  intros _ Hr.
  apply (Permutation_in _ (site_grades_perm rows)) in Hr.
  apply in_map_iff in Hr. destruct Hr as (site & <- & Hsite).
  apply (proj1 (proj2 (distinct_spec _) site)) in Hsite.
  unfold present in Hsite. apply in_flat_map in Hsite.
  destruct Hsite as ([s|] & Hc & Hs); [|destruct Hs].
  destruct Hs as [-> | []].
  destruct (site_grade_row rows site Hc) as (Es & H).
  rewrite Es. exact H.
Qed.

(** X13.  A higher rate never gets a worse grade: the letter of the grade of
    the higher rate is the same or comes earlier in the alphabet. *)
Theorem grade_monotone (low high : Q) :
  (low <= high)%Q ->
  String.leb (letter (grade high)) (letter (grade low)) = true.
Proof.
  intros H. unfold grade.
  destruct (Qle_bool 90 low) eqn:L90;
    [apply Qle_bool_iff in L90 | apply Qle_bool_false in L90];
    (destruct (Qle_bool 70 low) eqn:L70;
     [apply Qle_bool_iff in L70 | apply Qle_bool_false in L70]);
    (destruct (Qle_bool 50 low) eqn:L50;
     [apply Qle_bool_iff in L50 | apply Qle_bool_false in L50]);
    (destruct (Qle_bool 90 high) eqn:H90;
     [apply Qle_bool_iff in H90 | apply Qle_bool_false in H90]);
    (destruct (Qle_bool 70 high) eqn:H70;
     [apply Qle_bool_iff in H70 | apply Qle_bool_false in H70]);
    (destruct (Qle_bool 50 high) eqn:H50;
     [apply Qle_bool_iff in H50 | apply Qle_bool_false in H50]);
    try reflexivity; exfalso; lra.
Qed.

(** ** The text report *)

Lemma report_starts_with_rule (stats : dict) (errs : list string) :
  exists rest, Py.join newline (report_lines stats errs) = String "=" rest.
Proof.
  unfold report_lines, head_lines.
  cbn [app Py.join repeat_string String.append]. eauto.
Qed.

(** X14.  The report is the sentence "No valid data to report." exactly
    when the analyzer has no frame or a frame without rows. *)
Theorem report_without_data (self : TrialDataAnalyzer) :
  generate_text_report self = Some "No valid data to report." <->
  df self = None \/ (exists f, df self = Some f /\ len f = O).
Proof.
  unfold generate_text_report, calculate_statistics.
  destruct (df self) as [f|]; [|split; auto].
  destruct (len f =? 0)%nat eqn:E.
  - apply Nat.eqb_eq in E. split; eauto.
  - apply Nat.eqb_neq in E. split.
    + destruct f as [c d | rows g]; [discriminate|].
      cbn [fst]. cbv zeta. cbn [app].
      intros H. apply Some_eq in H.
      match type of H with
      | Py.join newline (report_lines ?st ?er) = _ =>
          destruct (report_starts_with_rule st er) as [rest Hr]
      end.
      rewrite Hr in H. discriminate H.
    + intros [H | (f' & H & Hlen)]; [discriminate|].
      inversion H; subst. contradiction.
Qed.

Lemma enumerate_lines_length (start : nat) (l : list value) :
  List.length (enumerate_lines start l) = (2 * List.length l)%nat.
Proof.
  revert start. induction l as [|x l IH]; intros start; [reflexivity|].
  simpl. rewrite IH. lia.
Qed.

Lemma invalid_details_lines_length (details : list value) :
  (List.length (invalid_details_lines details) <= 13)%nat.
Proof.
  unfold invalid_details_lines.
  destruct (0 <? List.length details)%nat; [|simpl; lia].
  rewrite !length_app, enumerate_lines_length.
  pose proof (firstn_le_length 5 details) as Hf.
  assert (H5 : (List.length (firstn 5 details) <= 5)%nat)
    by (rewrite length_firstn; lia).
  set (k := List.length (firstn 5 details)) in *.
  destruct (5 <? List.length details)%nat; cbn [List.length]; lia.
Qed.

(** X15.  The report lists the first five invalid records and the first
    five errors only: the block of the invalid records is the block of the
    first five followed, when there are more, by the line with the number
    of the others, and the block of the notes is that of the first five
    errors.  So the report has at most 44 lines and one line for each
    site, however many records are invalid. *)
Theorem report_lists_first_five
        (stats : dict) (errs : list string) (details : list value) :
  invalid_details_lines details
  = (invalid_details_lines (firstn 5 details)
     ++ (if (5 <? List.length details)%nat
         then [("  ... and " ++ Py.str_nat (List.length details - 5)
                ++ " more (see data_validation.log)")%string]
         else []))%list /\
  validation_notes_lines errs = validation_notes_lines (firstn 5 errs) /\
  (List.length (report_lines stats errs)
   <= 44 + List.length (items (item stats "patients_per_site")))%nat.
Proof.
  split; [|split].
  - unfold invalid_details_lines.
    rewrite firstn_firstn, Nat.min_id, length_firstn.
    destruct details as [|d1 [|d2 [|d3 [|d4 [|d5 [|d6 rest]]]]]];
      reflexivity.
  - unfold validation_notes_lines.
    rewrite firstn_firstn, Nat.min_id.
    destruct errs; reflexivity.
  - unfold report_lines. rewrite !length_app.
    assert (Hsites : List.length (site_lines (items (item stats "patients_per_site")))
                     = List.length (items (item stats "patients_per_site"))).
    { unfold site_lines. rewrite length_map.
      rewrite (Permutation_length (sort_perm _)). apply length_map. }
    assert (Hnotes : (List.length (validation_notes_lines errs) <= 7)%nat).
    { unfold validation_notes_lines. destruct errs as [|e errs]; [simpl; lia|].
      rewrite length_app, length_map, length_firstn. simpl List.length. lia. }
    assert (Hdetails :
              (List.length
                 (match item (items (item stats "data_quality")) "invalid_records" with
                  | VInt n =>
                      if (0 <? n)%Z
                      then invalid_details_lines
                             (elements (item (items (item stats "data_quality"))
                                             "invalid_record_details"))
                      else []
                  | _ => []
                  end) <= 13)%nat).
    { destruct (item _ "invalid_records"); try (simpl; lia).
      destruct (0 <? z); [apply invalid_details_lines_length | simpl; lia]. }
    rewrite Hsites. cbv zeta.
    change (List.length (head_lines stats)) with 8%nat.
    change (List.length (body_lines stats)) with 15%nat.
    simpl (List.length [_]). lia.
Qed.

(** ** The analysis route *)

Lemma serializable_texts (l : list string) :
  forallb serializable (map VStr l) = true.
Proof. induction l as [|x l IH]; [reflexivity | exact IH]. Qed.

Lemma serializable_number (n : number) : serializable (value_of_number n) = true.
Proof.
  unfold value_of_number. destruct (number_Q n); [|reflexivity].
  destruct n; reflexivity.
Qed.

Lemma serializable_cell (c : cell) : serializable (value_of_cell c) = true.
Proof. destruct c; reflexivity. Qed.

Lemma serializable_mean (m : option Q) : serializable (value_of_mean m) = true.
Proof. destruct m; reflexivity. Qed.

Lemma serializable_invalid (ir : InvalidRecord) :
  serializable (invalid_to_dict ir)
  = negb (isna (enrollment_date (invalid_row ir))).
Proof.
  unfold invalid_to_dict, row_to_dict.
  cbn [app serializable forallb fst snd].
  rewrite serializable_texts, serializable_number, !serializable_cell.
  destruct (enrollment_date (invalid_row ir)); reflexivity.
Qed.

Lemma serializable_counts (rows : list Row) :
  serializable (VDict (value_counts rows)) = true.
Proof.
  unfold value_counts. cbn [serializable].
  induction (fold_right insert_by_count [] (site_table rows)) as [|p l IH];
    [reflexivity | exact IH].
Qed.

Lemma statistics_serializable
      (self : TrialDataAnalyzer) (rows : list Row)
      (groups : option (list (option string))) :
  df self = Some (Frame rows groups) -> rows <> [] ->
  exists stats,
    fst (calculate_statistics self) = Some stats /\
    serializable (VDict stats)
    = forallb (fun ir => negb (isna (enrollment_date (invalid_row ir))))
              (invalid_records self).
Proof.
  intros Hdf Hrows.
  unfold calculate_statistics. rewrite Hdf.
  destruct rows as [|r rest] eqn:E; [congruence|]. rewrite <- E in *.
  replace (len (Frame rows groups) =? 0)%nat with false by (subst; reflexivity).
  eexists. split; [reflexivity|].
  cbn [serializable]. rewrite !forallb_app.
  cbn [forallb fst snd].
  change (forallb _ (value_counts rows)) with (serializable (VDict (value_counts rows))).
  rewrite serializable_counts, serializable_mean.
  cbn [serializable andb].
  assert (Hs : forall s : list Row,
             serializable (if (0 <? List.length s)%nat
                           then VFloat (rate_percent (map completed_trial s)
                                                     (List.length s))
                           else VInt 0) = true)
    by (intros s; destruct (0 <? List.length s)%nat; reflexivity).
  rewrite !Hs. cbn [andb].
  rewrite andb_true_r.
  cbn [forallb fst snd serializable andb]. rewrite andb_true_r.
  induction (invalid_records self) as [|ir l IH]; [reflexivity|].
  cbn [map forallb]. rewrite serializable_invalid, IH. reflexivity.
Qed.

Section ApiProperties.

Variable to_datetime : string -> option date.
Variable to_numeric : string -> number.

Lemma load_true_schema (file : read_result) (self : TrialDataAnalyzer) :
  fst (load_and_validate_data to_datetime to_numeric file self) = true ->
  exists cols data, file = ReadOk cols data /\ missing_columns cols = [].
Proof.
  destruct file as [msg | cols data]; [discriminate|].
  intros H. exists cols, data. split; [reflexivity|].
  unfold load_and_validate_data in H.
  destruct (missing_columns cols); [reflexivity | discriminate H].
Qed.

Lemma load_false_error (file : read_result) (self : TrialDataAnalyzer) :
  fst (load_and_validate_data to_datetime to_numeric file self) = false ->
  errors (snd (load_and_validate_data to_datetime to_numeric file self)) <> [].
Proof.
  destruct file as [msg | cols data].
  - intros _. simpl. destruct (errors self); discriminate.
  - destruct (missing_columns cols) as [|c rest] eqn:E.
    + intros H.
      rewrite (load_errors to_datetime to_numeric cols data self E), H.
      intros Hnil. apply app_eq_nil in Hnil. destruct Hnil as [_ Hnil].
      apply app_eq_nil in Hnil. destruct Hnil as [_ Hnil]. discriminate.
    + intros _. unfold load_and_validate_data. rewrite E. simpl.
      destruct (errors self); discriminate.
Qed.

(** X16.  The analysis route answers 200, 400 or 500.  A file is accepted
    when it is uploaded and its name is not empty and ends with .csv.  The
    answer is 200 exactly when the file is accepted, the load succeeds and
    every invalid record has an enrollment date; the body then holds the
    statistics, with a total of at least one patient.  It is 500 exactly
    when the file is accepted, the load succeeds and an invalid record has
    no enrollment date: the statistics cannot be written as JSON.  Any other
    answer is 400, with the fixed error for a rejected file or with the
    recorded errors of the load, of which there is at least one. *)
Theorem api_analyze_answers (file : option (string * read_result)) :
  let body := fst (api_analyze to_datetime to_numeric file) in
  let status := snd (api_analyze to_datetime to_numeric file) in
  let load content :=
    load_and_validate_data to_datetime to_numeric content
                           (init "temp_upload.csv") in
  let accepted filename content :=
    file = Some (filename, content) /\ filename <> "" /\
    endswith filename ".csv" = true in
  (status = 200 \/ status = 400 \/ status = 500) /\
  (status = 200 <->
   exists filename content,
     accepted filename content /\ fst (load content) = true /\
     forall ir, In ir (invalid_records (snd (load content))) ->
                enrollment_date (invalid_row ir) <> None) /\
  (status = 500 <->
   exists filename content,
     accepted filename content /\ fst (load content) = true /\
     exists ir, In ir (invalid_records (snd (load content))) /\
                enrollment_date (invalid_row ir) = None) /\
  (status = 200 ->
   exists stats n,
     body = Some (VDict stats) /\
     get stats (KStr "total_patients") = Some (VInt n) /\ 1 <= n) /\
  (status = 400 ->
   body = Some (VDict [(KStr "error", VStr "Valid CSV file required")]) \/
   exists errs,
     errs <> [] /\
     body = Some (VDict [(KStr "errors", VList (map VStr errs))])) /\
  (status = 500 -> body = None).
Proof.
  cbv zeta. unfold api_analyze.
  destruct file as [[filename content]|].
  2:{ simpl. repeat split; auto; try discriminate;
        intros (f & c & (H & _) & _); discriminate H. }
  destruct (String.eqb filename "") eqn:Ename.
  { simpl. apply String.eqb_eq in Ename.
    repeat split; auto; try discriminate;
      intros (f & c & (H & Hne & _) & _); inversion H; subst; congruence. }
  apply String.eqb_neq in Ename.
  destruct (endswith filename ".csv") eqn:Eend.
  2:{ simpl. repeat split; auto; try discriminate;
        intros (f & c & (H & _ & He) & _); inversion H; subst; congruence. }
  cbn [negb andb].
  destruct (load_and_validate_data to_datetime to_numeric content
              (init "temp_upload.csv")) as [ok analyzer] eqn:Eload.
  destruct ok; cbn [fst snd].
  - assert (Hok : fst (load_and_validate_data to_datetime to_numeric content
                         (init "temp_upload.csv")) = true)
      by (rewrite Eload; reflexivity).
    destruct (load_true_schema _ _ Hok) as (cols & data & -> & Hschema).
    destruct (loaded_frame to_datetime to_numeric cols data
                (init "temp_upload.csv") Hschema Hok)
      as (rows & Hdf & Hne & _).
    rewrite Eload in Hdf. cbn [snd] in Hdf.
    destruct (statistics_serializable analyzer rows None Hdf Hne)
      as (stats & Hstats & Hser).
    assert (Htotal : exists n, get stats (KStr "total_patients") = Some (VInt n)
                               /\ 1 <= n).
    { revert Hstats. unfold calculate_statistics. rewrite Hdf.
      destruct rows as [|r rest] eqn:E; [congruence|]. rewrite <- E in *.
      replace (len (Frame rows None) =? 0)%nat with false
        by (subst; reflexivity).
      intros H. apply Some_eq in H. subst stats.
      eexists. split; [reflexivity|]. subst. simpl. lia. }
    rewrite Hstats, Hser.
    destruct (forallb _ (invalid_records analyzer)) eqn:Eall; cbn [fst snd].
    + rewrite forallb_forall in Eall.
      split; [auto|]. split; [|split; [|split; [|split]]]; try discriminate.
      * split; [|reflexivity]. intros _. exists filename, (ReadOk cols data).
        rewrite Eload. cbn [fst snd]. repeat split; auto.
        intros ir Hir Hnone. apply Eall in Hir. rewrite Hnone in Hir.
        discriminate Hir.
      * split; [discriminate|].
        intros (f & c & (H & _) & _ & ir & Hir & Hnone).
        inversion H; subst. rewrite Eload in Hir. cbn [snd] in Hir.
        apply Eall in Hir. rewrite Hnone in Hir. discriminate Hir.
      * intros _. destruct Htotal as (n & Hn & Hle). eauto.
    + assert (Hex : exists ir, In ir (invalid_records analyzer) /\
                               enrollment_date (invalid_row ir) = None).
      { apply not_true_iff_false in Eall.
        destruct (existsb (fun ir => isna (enrollment_date (invalid_row ir)))
                          (invalid_records analyzer)) eqn:Eex.
        - apply existsb_exists in Eex. destruct Eex as (ir & Hir & Hna).
          exists ir. split; [exact Hir|].
          destruct (enrollment_date (invalid_row ir)); [discriminate | reflexivity].
        - exfalso. apply Eall. apply forallb_forall. intros ir Hir.
          apply negb_true_iff.
          destruct (isna (enrollment_date (invalid_row ir))) eqn:Hna;
            [|reflexivity].
          assert (Ht : existsb (fun ir => isna (enrollment_date (invalid_row ir)))
                               (invalid_records analyzer) = true)
            by (apply existsb_exists; eauto).
          congruence. }
      split; [auto|]. split; [|split; [|split; [|split]]]; try discriminate.
      * split; [discriminate|].
        intros (f & c & (H & _) & _ & Hall).
        inversion H; subst. rewrite Eload in Hall. cbn [snd] in Hall.
        destruct Hex as (ir & Hir & Hnone). exfalso. exact (Hall ir Hir Hnone).
      * split; [|reflexivity]. intros _. exists filename, (ReadOk cols data).
        rewrite Eload. cbn [fst snd]. repeat split; auto.
      * reflexivity.
  - split; [auto|]. split; [|split; [|split; [|split]]]; try discriminate.
    + split; [discriminate|]. intros (f & c & (H & _) & Hl & _).
      inversion H; subst. rewrite Eload in Hl. discriminate Hl.
    + split; [discriminate|]. intros (f & c & (H & _) & Hl & _).
      inversion H; subst. rewrite Eload in Hl. discriminate Hl.
    + intros _. right.
      exists (errors analyzer). split; [|reflexivity].
      assert (Hfail : fst (load_and_validate_data to_datetime to_numeric content
                             (init "temp_upload.csv")) = false)
        by (rewrite Eload; reflexivity).
      pose proof (load_false_error _ _ Hfail) as H.
      rewrite Eload in H. exact H.
Qed.

End ApiProperties.

(** The answers of the route on the sample inputs: the third row of [mixed]
    is an invalid record without enrollment date. *)
Example api_analyze_on_samples :
  snd (api_analyze parse_date parse_numeral
         (Some ("trial.csv", ReadOk header three_valid))) = 200 /\
  snd (api_analyze parse_date parse_numeral
         (Some ("trial.csv", ReadOk header mixed))) = 500 /\
  snd (api_analyze parse_date parse_numeral
         (Some ("trial.csv", ReadOk header all_200))) = 400 /\
  snd (api_analyze parse_date parse_numeral
         (Some ("trial.txt", ReadOk header three_valid))) = 400 /\
  snd (api_analyze parse_date parse_numeral None) = 400.
Proof. vm_compute. repeat split; reflexivity. Qed.


(** ** The figures *)

Ltac compare_thresholds :=
  rewrite ?Z.leb_antisym in *;
  repeat match goal with
         | |- context [(?a <? ?b)] => destruct (Z.ltb_spec a b)
         end.

Lemma chart_age_group_of_cases (x : number) :
  chart_age_group_of x =
  if number_gtb x 0 && number_leb x 35 then Some "18-35"
  else if number_gtb x 35 && number_leb x 45 then Some "36-45"
  else if number_gtb x 45 && number_leb x 55 then Some "46-55"
  else if number_gtb x 55 && number_leb x 65 then Some "56-65"
  else if number_gtb x 65 && number_leb x 150 then Some "65+"
  else None.
Proof. reflexivity. Qed.

Lemma chart_age_group_of_range (x : number) :
  (chart_age_group_of x = None /\ number_gtb x 0 && number_leb x 150 = false) \/
  (number_gtb x 0 && number_leb x 150 = true /\
   (chart_age_group_of x = Some "18-35" \/ chart_age_group_of x = Some "36-45" \/
    chart_age_group_of x = Some "46-55" \/ chart_age_group_of x = Some "56-65" \/
    chart_age_group_of x = Some "65+")).
Proof.
  destruct (number_isna x) eqn:Hna.
  - destruct x; try discriminate. left. split; reflexivity.
  - destruct (number_scaled x Hna) as (v & p & Hp & Hgt & Hle & _).
    rewrite chart_age_group_of_cases, !Hgt, !Hle.
    compare_thresholds; simpl; auto 7; exfalso; lia.
Qed.

Lemma age_distribution_total (rows : list Row) :
  total_of (age_distribution (map (fun r => chart_age_group_of (age r)) rows))
  = List.length (filter in_age_range rows).
Proof.
  unfold age_distribution, total_of. simpl.
  induction rows as [|r rows IH]; [reflexivity|].
  simpl. unfold in_age_range at 1.
  destruct (chart_age_group_of_range (age r))
    as [[E R] | [R [E | [E | [E | [E | E]]]]]];
    rewrite E, R; simpl; lia.
Qed.

Lemma adverse_slices_total (rows : list Row) :
  total_of (adverse_slices rows) = List.length rows.
Proof.
  unfold total_of, adverse_slices. simpl.
  pose proof (filter_split_length adverse_event rows). lia.
Qed.

(** X17.  The figures change nothing that the reports read: after
    [create_visualizations] the working set, the invalid records and the
    errors are the same, and the statistics and the cross-analysis give the
    same reports.  Both [create_visualizations] and [get_advanced_analysis]
    store the column [age_group]; the frame after the two calls is the
    frame that the later call alone leaves. *)
Theorem figures_leave_reports_unchanged (self : TrialDataAnalyzer) :
  working_set (snd (create_visualizations self)) = working_set self /\
  invalid_records (snd (create_visualizations self)) = invalid_records self /\
  errors (snd (create_visualizations self)) = errors self /\
  fst (calculate_statistics (snd (create_visualizations self)))
  = fst (calculate_statistics self) /\
  fst (get_advanced_analysis (snd (create_visualizations self)))
  = fst (get_advanced_analysis self) /\
  fst (create_visualizations (snd (get_advanced_analysis self)))
  = fst (create_visualizations self) /\
  snd (get_advanced_analysis (snd (create_visualizations self)))
  = snd (get_advanced_analysis self) /\
  snd (create_visualizations (snd (get_advanced_analysis self)))
  = snd (create_visualizations self).
Proof.
  destruct self as [file [[c d | rows g]|] inv errs db];
    unfold create_visualizations, get_advanced_analysis, calculate_statistics,
      working_set; simpl;
    try (repeat split; reflexivity).
  - destruct (List.length d =? 0)%nat eqn:E; simpl; rewrite ?E;
      repeat split; reflexivity.
  - destruct (List.length rows =? 0)%nat eqn:E; simpl; rewrite ?E;
      repeat split; reflexivity.
Qed.

(** X18.  On a frame with rows the four figures are returned.  The slices
    of the pie chart add up to the number of rows.  The bars of the age
    distribution are the five labels of the chart in their order, and add up
    to the number of rows whose age is above 0 and at most 150. *)
Theorem figures_count_rows
        (self : TrialDataAnalyzer) (rows : list Row)
        (groups : option (list (option string))) :
  df self = Some (Frame rows groups) -> rows <> [] ->
  exists charts slices bars,
    fst (create_visualizations self) = Some charts /\
    map fst charts = ["enrollment_timeline"; "site_completion";
                      "age_distribution"; "adverse_events"] /\
    chart charts "adverse_events" = Some (PieChart slices) /\
    total_of slices = List.length rows /\
    chart charts "age_distribution" = Some (BarChart bars) /\
    map fst bars = chart_age_labels /\
    total_of bars = List.length (filter in_age_range rows).
Proof.
  intros Hdf Hrows.
  unfold create_visualizations. rewrite Hdf.
  destruct rows as [|r rest] eqn:E; [congruence|]. rewrite <- E in *.
  replace (len (Frame rows groups) =? 0)%nat with false by (subst; reflexivity).
  do 3 eexists. split; [reflexivity|].
  split; [reflexivity|]. split; [reflexivity|].
  split; [apply adverse_slices_total|].
  split; [reflexivity|]. split; [reflexivity|].
  apply age_distribution_total.
Qed.

Ltac chart_interval_witness Hgt Hle :=
  solve [ exists 0, 35; rewrite Hgt, Hle, Z.ltb_lt, Z.leb_le;
          split; [simpl; tauto | lia]
        | exists 35, 45; rewrite Hgt, Hle, Z.ltb_lt, Z.leb_le;
          split; [simpl; tauto | lia]
        | exists 45, 55; rewrite Hgt, Hle, Z.ltb_lt, Z.leb_le;
          split; [simpl; tauto | lia]
        | exists 55, 65; rewrite Hgt, Hle, Z.ltb_lt, Z.leb_le;
          split; [simpl; tauto | lia]
        | exists 65, 150; rewrite Hgt, Hle, Z.ltb_lt, Z.leb_le;
          split; [simpl; tauto | lia] ].

Lemma chart_age_group_of_interval (x : number) (l : string) :
  chart_age_group_of x = Some l <->
  exists lo hi,
    In (lo, hi, l) chart_age_intervals /\
    number_gtb x lo = true /\ number_leb x hi = true.
Proof.
  destruct (number_isna x) eqn:Hna.
  - destruct x; try discriminate. simpl. split; [discriminate|].
    intros (lo & hi & _ & H & _). discriminate.
  - destruct (number_scaled x Hna) as (v & p & Hp & Hgt & Hle & _).
    rewrite chart_age_group_of_cases, !Hgt, !Hle.
    split.
    + compare_thresholds; simpl; intros [= <-]; chart_interval_witness Hgt Hle.
    + intros (lo & hi & Hin & H1 & H2).
      rewrite Hgt, Z.ltb_lt in H1. rewrite Hle, Z.leb_le in H2.
      unfold chart_age_intervals in Hin. simpl in Hin.
      destruct Hin as [E | [E | [E | [E | [E | []]]]]];
        injection E as <- <- <-;
        compare_thresholds; simpl; first [reflexivity | exfalso; lia].
Qed.

(** X19.  The age groups of the chart are the intervals (0, 35], (35, 45],
    (45, 55], (55, 65] and (65, 150]: an age has a label exactly when it
    lies in the interval of that label.  The chart gives an age a group
    exactly when the cross-analysis does, and the first and the last group
    are the same in both. *)
Theorem chart_age_groups :
  chart_age_intervals
  = combine (combine chart_age_bins (tl chart_age_bins)) chart_age_labels /\
  (forall x l,
     chart_age_group_of x = Some l <->
     exists lo hi,
       In (lo, hi, l) chart_age_intervals /\
       number_gtb x lo = true /\ number_leb x hi = true) /\
  (forall x, chart_age_group_of x = None <-> age_group_of x = None) /\
  (forall x, chart_age_group_of x = Some "18-35" <-> age_group_of x = Some "18-35") /\
  (forall x, chart_age_group_of x = Some "65+" <-> age_group_of x = Some "65+").
Proof.
  split; [reflexivity|]. split; [exact chart_age_group_of_interval|].
  assert (H : forall x,
             (chart_age_group_of x = None <-> age_group_of x = None) /\
             (chart_age_group_of x = Some "18-35" <-> age_group_of x = Some "18-35") /\
             (chart_age_group_of x = Some "65+" <-> age_group_of x = Some "65+")).
  { intros x. destruct (number_isna x) eqn:Hna.
    - destruct x; try discriminate. simpl. repeat split; auto.
    - destruct (number_scaled x Hna) as (v & p & Hp & Hgt & Hle & _).
      rewrite chart_age_group_of_cases, age_group_of_cases, !Hgt, !Hle.
      compare_thresholds; simpl; repeat split; intros; try discriminate;
        try reflexivity; exfalso; lia. }
  split; [|split]; intros x; apply H.
Qed.

(** ** The conversion of the boolean columns *)

Lemma has_mark_append (a b : string) :
  has_mark (a ++ b) = has_mark a || has_mark b.
Proof.
  induction a as [|c a IH]; simpl; [reflexivity|].
  rewrite IH. apply orb_assoc.
Qed.

Lemma is_mark_lower (c : ascii) :
  is_mark c = true -> Py.lower_ascii c = c.
Proof.
  unfold is_mark. intros H.
  apply orb_true_iff in H. destruct H as [H | H];
    [apply orb_true_iff in H; destruct H as [H | H]|];
    apply Ascii.eqb_eq in H; subst c; reflexivity.
Qed.

Lemma has_mark_lower (s : string) :
  has_mark s = true -> has_mark (Py.lower s) = true.
Proof.
  induction s as [|c s IH]; simpl; [discriminate|].
  intros H. apply orb_true_iff in H. destruct H as [H | H].
  - rewrite (is_mark_lower c H), H. reflexivity.
  - rewrite (IH H). apply orb_true_r.
Qed.

Lemma has_mark_not_true (s : string) :
  has_mark s = true -> Py.isin (Py.lower s) ["true"; "1"] = false.
Proof.
  intros H. apply has_mark_lower in H.
  unfold Py.isin. simpl.
  destruct (String.eqb_spec (Py.lower s) "true") as [E | _];
    [rewrite E in H; discriminate H|].
  destruct (String.eqb_spec (Py.lower s) "1") as [E | _];
    [rewrite E in H; discriminate H|].
  reflexivity.
Qed.

Lemma repr_finite_has_mark (x : Q) : has_mark (repr_finite x) = true.
Proof.
  unfold repr_finite.
  destruct (Qeq_bool x 0); [reflexivity|].
  destruct (shortest_decimal _ _ _) as [d0 s0].
  destruct (strip_trailing_zeros _ _ _) as [d s].
  destruct (_ && _).
  - destruct (0 <=? s); rewrite !has_mark_append; simpl;
      rewrite !orb_true_r; reflexivity.
  - unfold exponent_digits. rewrite !has_mark_append.
    destruct (_ - 1 <? 0); simpl; rewrite !orb_true_r; reflexivity.
Qed.

(** The text of a float is never "true" or "1". *)
Lemma str_float_not_true (m : Z) (e : nat) :
  Py.isin (Py.lower (str_float m e)) ["true"; "1"] = false.
Proof.
  unfold str_float, str_binary64.
  destruct (to_binary64 _) as [x | [|]];
    [apply has_mark_not_true, repr_finite_has_mark | reflexivity | reflexivity].
Qed.

Section BooleanColumns.

Variable to_datetime : string -> option date.
Variable to_numeric : string -> number.

Lemma convert_boolean_columns (cols : list string) (data : list (list cell)) :
  map adverse_event (convert to_datetime to_numeric cols data)
  = to_bool_column to_numeric (column cols data "adverse_event") /\
  map completed_trial (convert to_datetime to_numeric cols data)
  = to_bool_column to_numeric (column cols data "completed_trial").
Proof.
  rewrite (convert_rows to_datetime to_numeric cols data).
  unfold to_bool_column, astype_str, column, convert_row, to_bool.
  rewrite !map_map. simpl. split; reflexivity.
Qed.

(** X20.  In a boolean column that holds a text which is no number, a cell
    is converted to true exactly when its text in lower case is "true" or
    "1", and a missing cell is converted to false. *)
Theorem text_column_to_bool (col : list cell) (text : string) :
  In (Some text) col -> to_numeric text = NaN ->
  to_bool_column to_numeric col
  = map (fun c => match c with
                  | Some s => Py.isin (Py.lower s) ["true"; "1"]
                  | None => false
                  end) col.
Proof.
  intros Hin Hnan.
  assert (H1 : forallb is_int64 (map (coerce_number to_numeric) col) = false).
  { apply not_true_iff_false. intros H.
    rewrite forallb_forall in H.
    specialize (H (coerce_number to_numeric (Some text))
                  (in_map _ _ _ Hin)).
    simpl in H. rewrite Hnan in H. discriminate H. }
  assert (H2 : forallb (fun c => isna c
                                 || negb (number_isna (coerce_number to_numeric c)))
                       col = false).
  { apply not_true_iff_false. intros H.
    rewrite forallb_forall in H. specialize (H (Some text) Hin).
    simpl in H. rewrite Hnan in H. discriminate H. }
  unfold to_bool_column, astype_str, str_of_cell. rewrite H1, H2, map_map.
  apply map_ext. intros [s|]; reflexivity.
Qed.

(** X21.  In a boolean column whose cells are all numbers or missing, with
    at least one cell missing or not an integer, every cell is converted to
    false: the column is read as floats, and the text of a float is never
    "1". *)
Theorem float_column_to_bool (col : list cell) :
  forallb (fun c => isna c || negb (number_isna (coerce_number to_numeric c)))
          col = true ->
  forallb is_int64 (map (coerce_number to_numeric) col) = false ->
  to_bool_column to_numeric col = map (fun _ => false) col.
Proof.
  intros Hnum Hint.
  unfold to_bool_column, astype_str, str_of_cell. rewrite Hint, Hnum, map_map.
  apply map_ext. intros c.
  destruct (coerce_number to_numeric c) as [|z|m e]; simpl.
  - reflexivity.
  - apply str_float_not_true.
  - apply str_float_not_true.
Qed.

End BooleanColumns.

(** ** The further properties on the sample inputs *)

Lemma schema_error_reported_witness :
  missing_columns header_without_site <> [] /\
  fst (load (ReadOk header_without_site [] ) (init "trial.csv")) = false /\
  errors (snd (load (ReadOk header_without_site []) (init "trial.csv")))
  = ["Missing columns: ['trial_site']"].
Proof.
  assert (H : missing_columns header_without_site <> [])
    by (vm_compute; discriminate).
  split; [exact H|].
  pose proof (schema_error_reported parse_date parse_numeral
                header_without_site [] (init "trial.csv") H) as P.
  cbv zeta in P. destruct P as (P1 & P2 & _).
  split; [exact P1 | exact P2].
Defined.

Lemma rates_are_percentages_witness :
  exists stats,
    fst (calculate_statistics (loaded mixed)) = Some stats /\
    (exists c, get stats (KStr "completion_rate_percent") = Some (VFloat c)
               /\ is_percentage (VFloat c)) /\
    (exists a, get stats (KStr "adverse_event_rate_percent") = Some (VFloat a)
               /\ is_percentage (VFloat a)) /\
    (exists v, get stats (KStr "completion_rate_with_adverse_percent") = Some v
               /\ is_percentage v) /\
    (exists v, get stats (KStr "completion_rate_without_adverse_percent") = Some v
               /\ is_percentage v).
Proof.
  apply (rates_are_percentages (loaded mixed) (working_set (loaded mixed)) None).
  - reflexivity.
  - vm_compute. discriminate.
Defined.

Lemma statistics_count_every_row_witness :
  exists stats quality n k,
    fst (calculate_statistics (loaded mixed)) = Some stats /\
    get stats (KStr "total_patients") = Some (VInt n) /\
    get stats (KStr "data_quality") = Some (VDict quality) /\
    get quality (KStr "valid_records") = Some (VInt n) /\
    get quality (KStr "invalid_records") = Some (VInt k) /\
    1 <= n /\ 0 <= k /\
    n + k = 5.
Proof.
  exact (statistics_count_every_row parse_date parse_numeral header mixed
           (init "trial.csv") eq_refl eq_refl).
Defined.

Lemma average_age_in_range_witness :
  exists stats a,
    fst (calculate_statistics (loaded mixed)) = Some stats /\
    get stats (KStr "average_age") = Some (VFloat a) /\
    (0 <= a)%Q /\ (a <= 150)%Q.
Proof.
  exact (average_age_in_range parse_date parse_numeral header mixed
           (init "trial.csv") eq_refl eq_refl).
Defined.

Lemma patients_per_site_add_up_witness :
  missing_columns header = [] /\
  fst (load (ReadOk header mixed) (init "trial.csv")) = true /\
  exists stats sites,
    fst (calculate_statistics (loaded mixed)) = Some stats /\
    get stats (KStr "patients_per_site") = Some (VDict sites) /\
    get sites (KStr "SiteB") = Some (VInt 2) /\
    get sites (KStr "SiteA") = Some (VInt 1) /\
    get sites (KStr "SiteC") = None.
Proof.
  split; [reflexivity|]. split; [reflexivity|].
  destruct (patients_per_site_add_up parse_date parse_numeral header mixed
              (init "trial.csv") eq_refl eq_refl)
    as (stats & sites & n & Hstats & _ & Hsites & _ & _ & _ & _ & Hin & Hout & _).
  exists stats, sites.
  split; [exact Hstats|]. split; [exact Hsites|].
  split; [|split].
  - apply (Hin "SiteB"). vm_compute. auto.
  - apply (Hin "SiteA"). vm_compute. auto.
  - apply (Hout "SiteC"). vm_compute. intuition discriminate.
Defined.

Lemma age_group_counts_add_up_witness :
  exists report analysis counts,
    fst (get_advanced_analysis (loaded mixed)) = Some report /\
    get report (KStr "age_group_analysis") = Some (VDict analysis) /\
    get analysis (KPair "completed_trial" "count") = Some (VDict counts) /\
    sum_values counts = 2.
Proof.
  apply (age_group_counts_add_up (loaded mixed) (working_set (loaded mixed)) None).
  - reflexivity.
  - vm_compute. discriminate.
Defined.


Lemma site_grades_rows_consistent_witness :
  In grade_row_SiteB (site_grades (working_set (loaded three_valid))) /\
  1 <= row_total grade_row_SiteB /\
  row_grade grade_row_SiteB = grade (row_pct grade_row_SiteB).
Proof.
  assert (Hin : In grade_row_SiteB (site_grades (working_set (loaded three_valid))))
    by (vm_compute; left; reflexivity).
  split; [exact Hin|].
  assert (Hsites : Forall (fun r => trial_site r <> None)
                          (working_set (loaded three_valid)))
    by (vm_compute; repeat constructor; discriminate).
  destruct (site_grades_rows_consistent (working_set (loaded three_valid))
              grade_row_SiteB Hsites Hin) as (_ & H1 & _ & _ & _ & _ & Hg).
  split; [exact H1 | exact Hg].
Defined.

Lemma site_grades_one_row_per_site_witness :
  map row_site (site_grades (working_set (loaded three_valid)))
  = ["SiteB"; "SiteA"] /\
  NoDup (map row_site (site_grades (working_set (loaded three_valid)))) /\
  StronglySorted (fun a b => row_pct b <= row_pct a)%Q
                 (site_grades (working_set (loaded three_valid))).
Proof.
  assert (Hsites : Forall (fun r => trial_site r <> None)
                          (working_set (loaded three_valid)))
    by (vm_compute; repeat constructor; discriminate).
  split; [reflexivity|].
  exact (proj2 (site_grades_one_row_per_site (working_set (loaded three_valid))
                  Hsites)).
Defined.

Lemma grade_monotone_witness :
  ((4999 # 100) <= 90)%Q /\
  String.leb (letter (grade 90)) (letter (grade (4999 # 100))) = true.
Proof.
  assert (H : ((4999 # 100) <= 90)%Q) by (unfold Qle; simpl; lia).
  split; [exact H | exact (grade_monotone (4999 # 100) 90 H)].
Defined.

Lemma figures_count_rows_witness :
  exists charts slices bars,
    fst (create_visualizations (loaded mixed)) = Some charts /\
    map fst charts = ["enrollment_timeline"; "site_completion";
                      "age_distribution"; "adverse_events"] /\
    chart charts "adverse_events" = Some (PieChart slices) /\
    total_of slices = 3%nat /\
    chart charts "age_distribution" = Some (BarChart bars) /\
    map fst bars = chart_age_labels /\
    total_of bars = 2%nat.
Proof.
  apply (figures_count_rows (loaded mixed) (working_set (loaded mixed)) None).
  - reflexivity.
  - vm_compute. discriminate.
Defined.

Lemma text_column_to_bool_witness :
  In (Some "True") flags_in_words /\ parse_numeral "True" = NaN /\
  to_bool_column parse_numeral flags_in_words = [true; true; false; false; true].
Proof.
  assert (Hin : In (Some "True") flags_in_words) by (left; reflexivity).
  split; [exact Hin|]. split; [reflexivity|].
  rewrite (text_column_to_bool parse_numeral flags_in_words "True" Hin eq_refl).
  reflexivity.
Defined.

Lemma float_column_to_bool_witness :
  to_bool_column parse_numeral flags_with_gap = [false; false; false].
Proof.
  exact (float_column_to_bool parse_numeral flags_with_gap eq_refl eq_refl).
Defined.

(** ** The stratified rates and the overall rate *)

Lemma rint_error (x : Q) :
  (- (1 # 2) <= inject_Z (rint x) - x)%Q /\ (inject_Z (rint x) - x <= 1 # 2)%Q.
Proof.
  pose proof (Qfloor_le x) as Hlo. pose proof (Qlt_floor x) as Hhi.
  rewrite inject_Z_plus in Hhi. change (inject_Z 1) with 1%Q in Hhi.
  unfold rint.
  destruct (Qcompare_spec (x - inject_Z (Qfloor x)) (1 # 2)) as [C | C | C].
  - destruct (Z.even (Qfloor x)); [|rewrite inject_Z_plus;
                                     change (inject_Z 1) with 1%Q];
      split; lra.
  - split; lra.
  - rewrite inject_Z_plus. change (inject_Z 1) with 1%Q. split; lra.
Qed.

Lemma round_error (q : Q) :
  (- (1 # 200) <= round q 2 - q)%Q /\ (round q 2 - q <= 1 # 200)%Q.
Proof.
  unfold round. rewrite Qred_correct.
  change (inject_Z (pow10 2)) with 100%Q.
  destruct (rint_error (q * 100)) as [Hlo Hhi].
  set (k := inject_Z (rint (q * 100))) in *.
  assert (E : (k / 100 == k * (1 # 100))%Q) by (unfold Qdiv; reflexivity).
  rewrite E. split; lra.
Qed.

(** The rate of a stratum times its size is within size/200 of a hundred
    times its completed rows. *)
Lemma stratum_rate_error (stratum : list Row) :
  let n := inject_Z (Z.of_nat (List.length stratum)) in
  let c := inject_Z (count_true (map completed_trial stratum)) in
  let r := value_Q
             (if (0 <? List.length stratum)%nat
              then VFloat (rate_percent (map completed_trial stratum)
                                        (List.length stratum))
              else VInt 0) in
  (- (n / 200) <= n * r - 100 * c)%Q /\ (n * r - 100 * c <= n / 200)%Q.
Proof.
  cbv zeta.
  destruct stratum as [|x rest] eqn:E.
  - split; apply Qle_bool_iff; reflexivity.
  - rewrite <- E.
    replace (0 <? List.length stratum)%nat with true by (subst; reflexivity).
    unfold value_Q, rate_percent.
    set (c := inject_Z (count_true (map completed_trial stratum))).
    set (n := inject_Z (Z.of_nat (List.length stratum))).
    assert (Hn : (0 < n)%Q).
    { unfold n. change 0%Q with (inject_Z 0). rewrite <- Zlt_Qlt.
      subst. simpl. lia. }
    destruct (round_error (c / n * 100)) as [Hlo Hhi].
    set (r := round (c / n * 100) 2) in *.
    assert (Hq : (n * (c / n * 100) == 100 * c)%Q) by (field; lra).
    assert (Hd : (n / 200 == n * (1 # 200))%Q) by (unfold Qdiv; reflexivity).
    assert (H1 : (n * (r - c / n * 100) <= n * (1 # 200))%Q)
      by (apply Qmult_le_l; assumption).
    assert (H2 : (n * (- (1 # 200)) <= n * (r - c / n * 100))%Q)
      by (apply Qmult_le_l; assumption).
    assert (Hr : (n * (r - c / n * 100) == n * r - 100 * c)%Q)
      by (rewrite <- Hq; ring).
    rewrite Hd, <- Hr. split; lra.
Qed.

Lemma count_true_split (rows : list Row) :
  count_true (map completed_trial rows)
  = count_true (map completed_trial (filter adverse_event rows))
    + count_true (map completed_trial
                      (filter (fun r => negb (adverse_event r)) rows)).
Proof.
  unfold count_true. rewrite <- Nat2Z.inj_add. f_equal.
  induction rows as [|r rows IH]; [reflexivity|].
  simpl. destruct (adverse_event r), (completed_trial r) eqn:C; simpl;
    rewrite ?C; simpl; lia.
Qed.

(** X22.  On a frame with rows, the two stratified completion rates weighted
    by the sizes of their strata give the overall completion rate times the
    number of rows, up to a hundredth of the number of rows. *)
Theorem stratified_rates_sum_law
        (self : TrialDataAnalyzer) (rows : list Row)
        (groups : option (list (option string))) :
  df self = Some (Frame rows groups) -> rows <> [] ->
  exists stats overall with_adverse without_adverse,
    fst (calculate_statistics self) = Some stats /\
    get stats (KStr "completion_rate_percent") = Some overall /\
    get stats (KStr "completion_rate_with_adverse_percent") = Some with_adverse /\
    get stats (KStr "completion_rate_without_adverse_percent")
    = Some without_adverse /\
    let n := inject_Z (Z.of_nat (List.length rows)) in
    let n1 := inject_Z (Z.of_nat (List.length (filter adverse_event rows))) in
    let n0 := inject_Z (Z.of_nat (List.length
                                    (filter (fun r => negb (adverse_event r)) rows))) in
    (n1 + n0 == n)%Q /\
    (- (n / 100)
     <= n1 * value_Q with_adverse + n0 * value_Q without_adverse
        - n * value_Q overall)%Q /\
    (n1 * value_Q with_adverse + n0 * value_Q without_adverse
     - n * value_Q overall <= n / 100)%Q.
Proof.
  intros Hdf Hrows.
  unfold calculate_statistics. rewrite Hdf.
  destruct rows as [|r rest] eqn:E; [congruence|]. rewrite <- E in *.
  replace (len (Frame rows groups) =? 0)%nat with false by (subst; reflexivity).
  do 4 eexists. split; [reflexivity|].
  split; [reflexivity|]. split; [reflexivity|]. split; [reflexivity|].
  cbv zeta.
  pose proof (stratum_rate_error (filter adverse_event rows)) as H1.
  pose proof (stratum_rate_error (filter (fun r => negb (adverse_event r)) rows))
    as H0.
  pose proof (stratum_rate_error rows) as H.
  cbv zeta in H1, H0, H.
  replace (0 <? List.length rows)%nat with true in H by (subst; reflexivity).
  pose proof (count_true_split rows) as Hc.
  pose proof (filter_split_length adverse_event rows) as Hl.
  apply (f_equal Z.of_nat) in Hl. rewrite Nat2Z.inj_add in Hl.
  apply (f_equal inject_Z) in Hc. rewrite inject_Z_plus in Hc.
  apply (f_equal inject_Z) in Hl. rewrite inject_Z_plus in Hl.
  set (n := inject_Z (Z.of_nat (List.length rows))) in *.
  set (n1 := inject_Z (Z.of_nat (List.length (filter adverse_event rows)))) in *.
  set (n0 := inject_Z (Z.of_nat (List.length
                 (filter (fun r => negb (adverse_event r)) rows)))) in *.
  set (c := inject_Z (count_true (map completed_trial rows))) in *.
  set (c1 := inject_Z (count_true (map completed_trial
                                       (filter adverse_event rows)))) in *.
  set (c0 := inject_Z (count_true (map completed_trial
                 (filter (fun r => negb (adverse_event r)) rows)))) in *.
  set (v1 := value_Q _) in *. 
  set (v0 := value_Q (if (0 <? List.length (filter (fun r => negb (adverse_event r)) rows))%nat then _ else _)) in *.
  set (v := value_Q (VFloat _)) in *.
  assert (Dn : (n / 200 == n * (1 # 200))%Q) by (unfold Qdiv; reflexivity).
  assert (Dn1 : (n1 / 200 == n1 * (1 # 200))%Q) by (unfold Qdiv; reflexivity).
  assert (Dn0 : (n0 / 200 == n0 * (1 # 200))%Q) by (unfold Qdiv; reflexivity).
  assert (Dh : (n / 100 == n * (1 # 100))%Q) by (unfold Qdiv; reflexivity).
  rewrite Dn in H. rewrite Dn1 in H1. rewrite Dn0 in H0. rewrite Dh.
  assert (Hl' : (n0 + n1 == n)%Q) by (rewrite <- Hl; reflexivity).
  assert (Hc' : (c == c1 + c0)%Q) by (rewrite Hc; reflexivity).
  set (p1 := (n1 * v1)%Q) in *. set (p0 := (n0 * v0)%Q) in *.
  set (p := (n * v)%Q) in *.
  split; [lra|]. split; lra.
Qed.

Lemma stratified_rates_sum_law_witness :
  exists stats overall with_adverse without_adverse,
    fst (calculate_statistics (loaded mixed)) = Some stats /\
    get stats (KStr "completion_rate_percent") = Some overall /\
    get stats (KStr "completion_rate_with_adverse_percent") = Some with_adverse /\
    get stats (KStr "completion_rate_without_adverse_percent")
    = Some without_adverse /\
    let n := inject_Z (Z.of_nat (List.length (working_set (loaded mixed)))) in
    let n1 := inject_Z (Z.of_nat (List.length
                (filter adverse_event (working_set (loaded mixed))))) in
    let n0 := inject_Z (Z.of_nat (List.length
                (filter (fun r => negb (adverse_event r))
                        (working_set (loaded mixed))))) in
    (n1 + n0 == n)%Q /\
    (- (n / 100)
     <= n1 * value_Q with_adverse + n0 * value_Q without_adverse
        - n * value_Q overall)%Q /\
    (n1 * value_Q with_adverse + n0 * value_Q without_adverse
     - n * value_Q overall <= n / 100)%Q.
Proof.
  apply (stratified_rates_sum_law (loaded mixed) (working_set (loaded mixed)) None).
  - reflexivity.
  - vm_compute. discriminate.
Defined.

(** ** The stratified rates *)

Lemma Qabs_nonneg_eq (q : Q) : (0 <= q)%Q -> Qabs q = q.
Proof.
  destruct q as [n d]. unfold Qle. simpl. intros H.
  rewrite Z.abs_eq; [reflexivity | lia].
Qed.

Lemma Qlog2_le (q : Q) (b : Z) :
  (0 < q)%Q -> 0 <= b -> (q <= inject_Z (2 ^ b))%Q -> Qlog2 q <= b.
Proof.
  intros Hpos Hb Hle.
  assert (He : Z.log2 (Qnum q) - Z.log2 (Zpos (Qden q)) <= b).
  { destruct q as [n d]. unfold Qle, Qlt in *.
    cbn [Qnum Qden inject_Z] in *.
    assert (Hn : n <= Zpos d * 2 ^ b) by lia.
    apply Z.log2_le_mono in Hn.
    rewrite Z.log2_mul_pow2 in Hn by lia. lia. }
  unfold Qlog2. destruct (Qle_bool _ _); lia.
Qed.

Lemma Qpow_neg (t : Z) :
  t < 0 -> (Qpow 2 t == 1 / inject_Z (2 ^ (- t)))%Q.
Proof.
  intros H. unfold Qpow.
  destruct (Z.leb_spec 0 t); [lia | reflexivity].
Qed.

(** A value from 0 to an integer [K] of at most 2^14 is rounded to a float
    from 0 to [K], no farther than 2^-38 from it. *)
Lemma to_binary64_bounds (q : Q) (K : Z) :
  (0 <= q)%Q -> (q <= inject_Z K)%Q -> K <= 2 ^ 14 ->
  exists v, to_binary64 q = Finite v /\
            (0 <= v)%Q /\ (v <= inject_Z K)%Q /\
            (- ulp_bound <= v - q)%Q /\ (v - q <= ulp_bound)%Q.
Proof.
  intros H0 HK HK14.
  unfold to_binary64.
  destruct (Qeq_bool q 0) eqn:E0.
  - apply Qeq_bool_iff in E0. exists 0%Q.
    split; [reflexivity|]. unfold ulp_bound.
    assert (Hu : (0 <= 1 # 2 ^ 38)%Q) by (unfold Qle; simpl; lia).
    repeat split; try lra.
  - assert (Hpos : (0 < q)%Q).
    { apply Qle_lt_or_eq in H0. destruct H0 as [H | H]; [exact H|].
      symmetry in H. apply Qeq_bool_iff in H. congruence. }
    assert (Hsign : (Qnum q <? 0) = false).
    { apply Z.ltb_ge. destruct q as [n d]. unfold Qle in H0. simpl in *. lia. }
    rewrite Hsign, (Qabs_nonneg_eq q H0).
    assert (Hlog : Qlog2 q <= 14).
    { apply Qlog2_le; [exact Hpos | lia |].
      apply (Qle_trans _ _ _ HK). rewrite <- Zle_Qle. exact HK14. }
    set (t := Z.max (Qlog2 q - 52) (-1074)).
    assert (Ht : t <= -38) by (unfold t; lia).
    assert (Ht' : -1074 <= t) by (unfold t; lia).
    set (P := 2 ^ (- t)).
    assert (HP : 2 ^ 38 <= P) by (unfold P; apply Z.pow_le_mono_r; lia).
    assert (HPq : (inject_Z (2 ^ 38) <= inject_Z P)%Q) by (rewrite <- Zle_Qle; exact HP).
    assert (HP0 : (0 < inject_Z P)%Q).
    { change 0%Q with (inject_Z 0). rewrite <- Zlt_Qlt. lia. }
    assert (Epow : (Qpow 2 t == 1 / inject_Z P)%Q) by (apply Qpow_neg; lia).
    assert (Escaled : (q / Qpow 2 t == q * inject_Z P)%Q).
    { rewrite Epow. field. lra. }
    set (r := rint (q / Qpow 2 t)).
    assert (Hr0 : 0 <= r).
    { apply rint_lower. rewrite Escaled. change (inject_Z 0) with 0%Q.
      apply Qmult_le_0_compat; lra. }
    assert (HrK : r <= K * P).
    { apply rint_upper. rewrite Escaled, inject_Z_mult.
      apply Qmult_le_compat_r; lra. }
    destruct (rint_error (q / Qpow 2 t)) as [Hlo Hhi]. fold r in Hlo, Hhi.
    rewrite Escaled in Hlo, Hhi.
    set (v := (inject_Z r * Qpow 2 t)%Q).
    assert (Ev : (v == inject_Z r / inject_Z P)%Q).
    { unfold v. rewrite Epow. field. lra. }
    assert (Hv0 : (0 <= v)%Q).
    { rewrite Ev. apply Qle_shift_div_l; [exact HP0|].
      rewrite Qmult_0_l. change 0%Q with (inject_Z 0). rewrite <- Zle_Qle. exact Hr0. }
    assert (HvK : (v <= inject_Z K)%Q).
    { rewrite Ev. apply Qle_shift_div_r; [exact HP0|].
      rewrite <- inject_Z_mult, <- Zle_Qle. exact HrK. }
    assert (Herr : (- ulp_bound <= v - q)%Q /\ (v - q <= ulp_bound)%Q).
    { assert (E : (v - q == (inject_Z r - q * inject_Z P) / inject_Z P)%Q).
      { rewrite Ev. field. lra. }
      rewrite E. unfold ulp_bound.
      assert (Eu : (1 # 2 ^ 38 == 1 / inject_Z (2 ^ 38))%Q) by reflexivity.
      assert (H38 : (0 < inject_Z (2 ^ 38))%Q) by reflexivity.
      split.
      - apply Qle_shift_div_l; [exact HP0|].
        assert (Hx : (- (1 # 2 ^ 38) * inject_Z P <= - (1 # 2 ^ 38) * inject_Z (2 ^ 38))%Q).
        { assert (Hm : ((1 # 2 ^ 38) * inject_Z (2 ^ 38) <= (1 # 2 ^ 38) * inject_Z P)%Q)
            by (apply Qmult_le_l; [reflexivity | exact HPq]).
          lra. }
        assert (E1 : (- (1 # 2 ^ 38) * inject_Z (2 ^ 38) == -1)%Q) by reflexivity.
        lra.
      - apply Qle_shift_div_r; [exact HP0|].
        assert (Hm : ((1 # 2 ^ 38) * inject_Z (2 ^ 38) <= (1 # 2 ^ 38) * inject_Z P)%Q)
          by (apply Qmult_le_l; [reflexivity | exact HPq]).
        assert (E1 : ((1 # 2 ^ 38) * inject_Z (2 ^ 38) == 1)%Q) by reflexivity.
        lra. }
    assert (Hover : Qle_bool (Qpow 2 1024) v = false).
    { apply not_true_iff_false. intros H. apply Qle_bool_iff in H.
      assert (Hc : (inject_Z (2 ^ 1024) <= inject_Z (2 ^ 14))%Q).
      { apply (Qle_trans _ v); [exact H|].
        apply (Qle_trans _ _ _ HvK). rewrite <- Zle_Qle. exact HK14. }
      rewrite <- Zle_Qle in Hc.
      assert (Hlt : 2 ^ 14 < 2 ^ 1024) by (apply Z.pow_lt_mono_r; lia).
      lia. }
    fold v. rewrite Hover.
    exists (Qred v). split; [reflexivity|].
    rewrite !Qred_correct. tauto.
Qed.

Lemma binary64_rate_bounds (c n : Z) :
  0 <= c <= n -> 0 < n ->
  exists x, binary64_rate c n = Finite x /\
            (0 <= x)%Q /\ (x <= 100)%Q /\
            (- (1 # 100) <= x - 100 * inject_Z c / inject_Z n)%Q /\
            (x - 100 * inject_Z c / inject_Z n <= 1 # 100)%Q.
Proof.
  intros Hc Hn.
  assert (Hn0 : (0 < inject_Z n)%Q).
  { change 0%Q with (inject_Z 0). rewrite <- Zlt_Qlt. exact Hn. }
  set (q := (inject_Z c / inject_Z n)%Q).
  assert (Hq0 : (0 <= q)%Q).
  { unfold q. apply Qle_shift_div_l; [exact Hn0|].
    rewrite Qmult_0_l. change 0%Q with (inject_Z 0). rewrite <- Zle_Qle. lia. }
  assert (Hq1 : (q <= inject_Z 1)%Q).
  { unfold q. apply Qle_shift_div_r; [exact Hn0|].
    rewrite <- inject_Z_mult, <- Zle_Qle. lia. }
  destruct (to_binary64_bounds q 1 Hq0 Hq1) as (x1 & E1 & A1 & B1 & L1 & U1);
    [lia|].
  change (inject_Z 1) with 1%Q in B1.
  destruct (to_binary64_bounds (x1 * inject_Z 100) 100)
    as (x2 & E2 & A2 & B2 & L2 & U2);
    [change (inject_Z 100) with 100%Q; lra
    |change (inject_Z 100) with 100%Q; lra | lia |].
  change (inject_Z 100) with 100%Q in B2, L2, U2.
  destruct (to_binary64_bounds (x2 * inject_Z (pow10 2)) 10000)
    as (x3 & E3 & A3 & B3 & L3 & U3);
    [change (inject_Z (pow10 2)) with 100%Q; lra
    |change (inject_Z (pow10 2)) with 100%Q;
     change (inject_Z 10000) with 10000%Q; lra | lia |].
  change (inject_Z (pow10 2)) with 100%Q in L3, U3.
  change (inject_Z 10000) with 10000%Q in B3.
  destruct (rint_error x3) as [Lk Uk].
  assert (Hk0 : 0 <= rint x3) by (apply rint_lower; exact A3).
  assert (Hk1 : rint x3 <= 10000) by (apply rint_upper; exact B3).
  set (k := inject_Z (rint x3)) in *.
  assert (Hk0' : (0 <= k)%Q).
  { unfold k. change 0%Q with (inject_Z 0). rewrite <- Zle_Qle. exact Hk0. }
  assert (Hk1' : (k <= 10000)%Q).
  { unfold k. change 10000%Q with (inject_Z 10000). rewrite <- Zle_Qle. exact Hk1. }
  assert (Ek : (k / inject_Z (pow10 2) == k * (1 # 100))%Q) by reflexivity.
  destruct (to_binary64_bounds (k / inject_Z (pow10 2)) 100)
    as (x4 & E4 & A4 & B4 & L4 & U4);
    [rewrite Ek; lra
    |rewrite Ek; change (inject_Z 100) with 100%Q; lra | lia |].
  rewrite Ek in L4, U4. change (inject_Z 100) with 100%Q in B4.
  exists x4. split.
  { unfold binary64_rate, binary64_round, binary64_times, binary64_div.
    fold q. rewrite E1, E2, E3. fold k. exact E4. }
  assert (Eq : (100 * inject_Z c / inject_Z n == 100 * q)%Q).
  { unfold q. field. lra. }
  rewrite Eq. unfold ulp_bound in *.
  assert (Hu : (1 # 2 ^ 38 <= 1 # 100000000)%Q) by (unfold Qle; simpl; lia).
  assert (Hu0 : (0 <= 1 # 2 ^ 38)%Q) by (unfold Qle; simpl; lia).
  set (u := 1 # 2 ^ 38) in *.
  repeat split; try assumption; lra.
Qed.

Lemma filter_map_length {A : Type} (f : A -> bool) (l : list A) :
  List.length (filter (fun b : bool => b) (map f l)) = List.length (filter f l).
Proof.
  induction l as [|x l IH]; [reflexivity|].
  simpl. destruct (f x); simpl; rewrite IH; reflexivity.
Qed.

Lemma filter_length_le {A : Type} (f : A -> bool) (l : list A) :
  (List.length (filter f l) <= List.length l)%nat.
Proof.
  induction l as [|x l IH]; [apply Nat.le_refl|].
  simpl. destruct (f x); simpl; lia.
Qed.

(** The entry of a stratum in the statistics. *)
Lemma stratum_entry (stratum : list Row) :
  let size := Z.of_nat (List.length stratum) in
  let completed := Z.of_nat (List.length (filter completed_trial stratum)) in
  let v := if (0 <? List.length stratum)%nat
           then VFloat (rate_percent (map completed_trial stratum)
                                     (List.length stratum))
           else VInt 0 in
  (size = 0 -> v = VInt 0) /\
  (0 < size ->
   exists q, v = VFloat q /\ (0 <= q)%Q /\ (q <= 100)%Q /\
             (- (1 # 100) <= q - 100 * inject_Z completed / inject_Z size)%Q /\
             (q - 100 * inject_Z completed / inject_Z size <= 1 # 100)%Q).
Proof.
  cbv zeta. destruct stratum as [|r rest] eqn:E.
  - split; [reflexivity | simpl; lia].
  - rewrite <- E.
    replace (0 <? List.length stratum)%nat with true by (subst; reflexivity).
    split; [subst; simpl; lia|]. intros Hsize.
    eexists. split; [reflexivity|].
    assert (Hne : map completed_trial stratum <> []) by (subst; discriminate).
    destruct (rate_percent_bounds _ Hne) as [H0 H100].
    rewrite length_map in H0, H100.
    split; [exact H0|]. split; [exact H100|].
    unfold rate_percent, count_true. rewrite filter_map_length.
    set (c := inject_Z (Z.of_nat (List.length (filter completed_trial stratum)))).
    set (n := inject_Z (Z.of_nat (List.length stratum))).
    assert (Hn : (0 < n)%Q).
    { unfold n. change 0%Q with (inject_Z 0). rewrite <- Zlt_Qlt. exact Hsize. }
    destruct (round_error (c / n * 100)) as [Hlo Hhi].
    assert (Eq : (100 * c / n == c / n * 100)%Q) by (field; lra).
    rewrite Eq. split; lra.
Qed.



